(** * KDTSM airspace admission engine: shallow embedding and properties

    The development follows two source units of the repository:

    - the planner's client-side geometry ([getDistanceMeters],
      [isPointInRestrictedArea], [isPointInKosovo],
      [doesTrajectoryCrossOutside]);
    - the flight routes of the server ([generatePathSamples],
      [getFlightBounds], [boundsOverlap], [checkSpatialConflict],
      [isPointInArea], [checkFlightConflicts], [validateFlightRequest] and the
      POST / PATCH / DELETE handlers on the in-memory registry, together with
      the simulation tick that advances flight statuses).

    Conventions of the embedding.

    - A JavaScript number is read as an exact rational ([Q]); rounding of
      IEEE doubles is outside the model.  Comparisons are the boolean tests
      of [Q]; [===] on numbers is numeric equality.
    - Instants ([Date] values) are integers: milliseconds since the epoch.
    - [Math.sin], [Math.cos] and [Math.atan2] have no rational counterpart, so
      the great-circle distance and the cosine of a latitude are taken as
      section variables, named after the functions that compute them.
    - The [Map] that stores flights iterates in insertion order and [set] on a
      present key keeps the position of the key; it is an association list.
    - Human-readable [message] fields of reports are not carried. *)

From Stdlib Require Import QArith Qabs Qround Qminmax ZArith List Bool String Lia Lqa.
Import ListNotations.

Local Open Scope Q_scope.

(** ** Numbers *)

(** [a < b] on numbers. *)
Definition Qltb (a b : Q) : bool := negb (Qle_bool b a).

(** [a > b] on numbers. *)
Definition Qgtb (a b : Q) : bool := Qltb b a.

(** [a >= b] on numbers. *)
Definition Qgeb (a b : Q) : bool := Qle_bool b a.

(** A point [{lat, lng}] in degrees.  A waypoint is used as such a point: its
    [altitude] and [order] are not read by the functions below. *)
Record LatLng : Type := mkLatLng { lat : Q; lng : Q }.

(** ** Client-side geometry (planner) *)

Record Airport : Type := mkAirport {
  airport_name : string;
  airport_position : LatLng;
  restrictedRadius : Q
}.

Record Zone : Type := mkZone {
  zone_name : string;
  zone_type : string;
  zone_position : LatLng;
  zone_radius : Q;
  zone_maxAltitude : Q
}.

(** The three shapes of object that [isPointInRestrictedArea] returns:
    [{restricted: true, type, name}], [{restricted: false, warning: true,
    type, name, maxAltitude}] and [{restricted: false}]. *)
Inductive AreaCheck : Type :=
| Restricted (type name : string)
| Warning (type name : string) (maxAltitude : Q)
| Unrestricted.

Definition restricted (r : AreaCheck) : bool :=
  match r with Restricted _ _ => true | _ => false end.

(** The fields of the planner's [state] that the geometry reads.  A vertex of
    [kosovoBorderCoords] is the pair [[lat, lng]]. *)
Record PlannerState : Type := mkPlannerState {
  airports : list Airport;
  restrictedZones : list Zone;
  kosovoBorderCoords : option (list (Q * Q))
}.

Section ClientGeometry.

(** [getDistanceMeters(lat1, lng1, lat2, lng2)]: the haversine distance in
    metres on a sphere of radius 6371000. *)
Variable getDistanceMeters : Q -> Q -> Q -> Q -> Q.

(** First loop of [isPointInRestrictedArea]. *)
Fixpoint checkAirports (l : list Airport) (lat0 lng0 : Q) : option AreaCheck :=
  match l with
  | [] => None
  | airport :: rest =>
      let distance :=
        getDistanceMeters lat0 lng0
          (lat (airport_position airport)) (lng (airport_position airport)) in
      if Qle_bool distance (restrictedRadius airport)
      then Some (Restricted "airport" (airport_name airport))
      else checkAirports rest lat0 lng0
  end.

(** Second loop of [isPointInRestrictedArea]. *)
Fixpoint checkZones (l : list Zone) (lat0 lng0 : Q) : option AreaCheck :=
  match l with
  | [] => None
  | zone :: rest =>
      let distance :=
        getDistanceMeters lat0 lng0
          (lat (zone_position zone)) (lng (zone_position zone)) in
      if Qle_bool distance (zone_radius zone)
      then
        if Qeq_bool (zone_maxAltitude zone) 0
        then Some (Restricted (zone_type zone) (zone_name zone))
        else Some (Warning (zone_type zone) (zone_name zone) (zone_maxAltitude zone))
      else checkZones rest lat0 lng0
  end.

Definition isPointInRestrictedArea (state : PlannerState) (lat0 lng0 : Q) : AreaCheck :=
  match checkAirports (airports state) lat0 lng0 with
  | Some r => r
  | None =>
      match checkZones (restrictedZones state) lat0 lng0 with
      | Some r => r
      | None => Unrestricted
      end
  end.

End ClientGeometry.

(** The edge test of the ray casting: vertex [ci] is [coords[i]], [cj] is
    [coords[j]]; [&&] evaluates the division only when [yi] and [yj] differ. *)
Definition crossesEdge (lat0 lng0 : Q) (ci cj : Q * Q) : bool :=
  let xi := snd ci in let yi := fst ci in
  let xj := snd cj in let yj := fst cj in
  negb (Bool.eqb (Qgtb yi lat0) (Qgtb yj lat0))
  && Qltb lng0 ((xj - xi) * (lat0 - yi) / (yj - yi) + xi).

(** The loop [for (i = 0, j = n - 1; i < n; j = i++)]: [cj] is the vertex
    visited before, [inside] the running flag. *)
Fixpoint rayLoop (lat0 lng0 : Q) (cj : Q * Q) (rest : list (Q * Q)) (inside : bool) : bool :=
  match rest with
  | [] => inside
  | ci :: rest' =>
      rayLoop lat0 lng0 ci rest'
        (if crossesEdge lat0 lng0 ci cj then negb inside else inside)
  end.

Definition boundingBoxFallback (lat0 lng0 : Q) : bool :=
  Qgeb lat0 (4185 # 100) && Qle_bool lat0 (4327 # 100)
  && Qgeb lng0 (1991 # 100) && Qle_bool lng0 (2180 # 100).

Definition isPointInKosovo (coords : option (list (Q * Q))) (lat0 lng0 : Q) : bool :=
  match coords with
  | None => boundingBoxFallback lat0 lng0
  | Some [] => boundingBoxFallback lat0 lng0
  | Some (c0 :: cs) => rayLoop lat0 lng0 (last cs c0) (c0 :: cs) false
  end.

(** The object [{lat, lng, t}] returned at a crossing. *)
Record Crossing : Type := mkCrossing { cross_lat : Q; cross_lng : Q; cross_t : Q }.

(** The sample of the trajectory at step [i] of [numSamples]. *)
Definition trajectorySample (numSamples : nat) (lat1 lng1 lat2 lng2 : Q) (i : nat) : Crossing :=
  let t := inject_Z (Z.of_nat i) / inject_Z (Z.of_nat numSamples) in
  mkCrossing (lat1 + t * (lat2 - lat1)) (lng1 + t * (lng2 - lng1)) t.

(** The loop of [doesTrajectoryCrossOutside] over the steps still to visit. *)
Fixpoint crossLoop (coords : option (list (Q * Q))) (numSamples : nat)
    (lat1 lng1 lat2 lng2 : Q) (steps : list nat) : option Crossing :=
  match steps with
  | [] => None
  | i :: rest =>
      let s := trajectorySample numSamples lat1 lng1 lat2 lng2 i in
      if negb (isPointInKosovo coords (cross_lat s) (cross_lng s))
      then Some s
      else crossLoop coords numSamples lat1 lng1 lat2 lng2 rest
  end.

(** [for (let i = 1; i < numSamples; i++)] with [numSamples = 20]. *)
Definition doesTrajectoryCrossOutside (coords : option (list (Q * Q)))
    (lat1 lng1 lat2 lng2 : Q) : option Crossing :=
  let numSamples := 20%nat in
  crossLoop coords numSamples lat1 lng1 lat2 lng2 (seq 1 (numSamples - 1)).

(** Rotation of a ring so that it starts from vertex [k]. *)
Definition rotate {A : Type} (k : nat) (l : list A) : list A := skipn k l ++ firstn k l.

(** A ring written with its first vertex repeated at the end, as GeoJSON
    writes it. *)
Definition closeRing {A : Type} (l : list A) : list A :=
  match l with
  | [] => []
  | v :: _ => l ++ [v]
  end.

(** ** Server: flight data *)

Record Bounds : Type := mkBounds { north : Q; south : Q; east : Q; west : Q }.

(** [operationArea.type], one of ['circle'] and ['rectangle'] in the schema. *)
Inductive AreaType : Type := circle | rectangle.

(** An operation area, by its [type].  Every spatial function reads
    [center.lat] of a circle, so a circle is given with its centre and its
    [radius].  For any other type the centre is read only under the guard
    [area.center &&] of the validation and may be absent, as may [bounds].
    The fields that no route reads for the type are not carried. *)
Inductive OperationArea : Type :=
| mkCircle (c : LatLng) (r : Q)
| mkRectangle (c : option LatLng) (b : option Bounds).

Definition area_type (area : OperationArea) : AreaType :=
  match area with
  | mkCircle _ _ => circle
  | mkRectangle _ _ => rectangle
  end.

(** [area.center], [None] when the field is absent. *)
Definition center (area : OperationArea) : option LatLng :=
  match area with
  | mkCircle c _ => Some c
  | mkRectangle c _ => c
  end.

(** [area.bounds] where the routes read it. *)
Definition bounds (area : OperationArea) : option Bounds :=
  match area with
  | mkCircle _ _ => None
  | mkRectangle _ b => b
  end.

(** The body of a submission, which the stored flight spreads into itself.
    [None] is an absent field. *)
Record FlightData : Type := mkFlightData {
  waypoints : option (list LatLng);
  operationArea : option OperationArea;
  scheduledStart : Z;
  scheduledEnd : Z;
  maxAltitude : option Q
}.

Inductive Severity : Type := info | warning | error.

Definition isError (s : Severity) : bool :=
  match s with error => true | _ => false end.

Definition isWarning (s : Severity) : bool :=
  match s with warning => true | _ => false end.

(** An element of the array returned by [checkRestrictedZone]. *)
Record Violation : Type := mkViolation { violation_severity : Severity }.

Inductive ConflictType : Type := area_overlap | path_enters_area | path_proximity.

(** The result [{hasConflict, minDistance, type}] of [checkSpatialConflict]. *)
Inductive SpatialConflict : Type :=
| NoConflict
| SomeConflict (minDistance : Q) (type : ConflictType).

Definition hasConflict (r : SpatialConflict) : bool :=
  match r with NoConflict => false | SomeConflict _ _ => true end.

(** An element of the array returned by [checkFlightConflicts]. *)
Record Conflict : Type := mkConflict {
  conflict_flightId : string;
  conflictType : ConflictType;
  conflict_minDistance : Z;
  conflict_scheduledStart : Z;
  conflict_scheduledEnd : Z
}.

Record Check : Type := mkCheck {
  name : string;
  passed : bool;
  severity : Severity;
  conflictingFlight : option Conflict
}.

Record Validation : Type := mkValidation {
  isValid : bool;
  checks : list Check;
  validatedAt : Z
}.

(** The fields of a stored flight that the routes read; [data] is the
    submitted body spread into the flight. *)
Record Flight : Type := mkFlight {
  id : string;
  userId : string;
  data : FlightData;
  status : string;
  validation : option Validation;
  currentWaypointIndex : nat
}.

(** [inMemoryFlights]. *)
Definition Store : Type := list (string * Flight).

Fixpoint map_get (m : Store) (k : string) : option Flight :=
  match m with
  | [] => None
  | (k', v) :: rest => if String.eqb k' k then Some v else map_get rest k
  end.

Fixpoint map_set (m : Store) (k : string) (v : Flight) : Store :=
  match m with
  | [] => [(k, v)]
  | (k', v') :: rest =>
      if String.eqb k' k then (k, v) :: rest else (k', v') :: map_set rest k v
  end.

Definition map_values (m : Store) : list Flight := map snd m.

(** Modelled from the spec: [KCAA_REGULATIONS.maxAltitudeAGL], declared in the
    data module that the routes import; the regulatory ceiling is 120 m AGL. *)
Definition maxAltitudeAGL : Q := 120.

(** [x || d] on an optional number: absent and [0] are both falsy. *)
Definition orDefault (x : option Q) (d : Q) : Q :=
  match x with
  | Some v => if Qeq_bool v 0 then d else v
  | None => d
  end.

(** [Math.round]. *)
Definition round (x : Q) : Z := Qfloor (x + (1 # 2)).

(** [getUTCHours] of an instant. *)
Definition getUTCHours (t : Z) : Z := ((t / 3600000) mod 24)%Z.

Definition PENDING : string := "pending".
Definition APPROVED : string := "approved".
Definition ACTIVE : string := "active".
Definition COMPLETED : string := "completed".
Definition CANCELLED : string := "cancelled".
Definition REJECTED : string := "rejected".

(** [list.includes(s)]. *)
Definition includes (l : list string) (s : string) : bool := existsb (String.eqb s) l.

(** ** Server: path sampling and spatial conflicts *)

Section Server.

(** [calculateDistance] of the data module: the haversine distance. *)
Variable calculateDistance : Q -> Q -> Q -> Q -> Q.

(** [Math.cos(lat * Math.PI / 180)]. *)
Variable cosDeg : Q -> Q.

(** [isWithinKosovo] of the data module. *)
Variable isWithinKosovo : Q -> Q -> bool.

(** [checkRestrictedZone(lat, lng, altitude)] of the data module. *)
Variable checkRestrictedZone : Q -> Q -> Q -> list Violation.

Definition getDistance (lat1 lng1 lat2 lng2 : Q) : Q :=
  calculateDistance lat1 lng1 lat2 lng2.

(** The points pushed by the inner loop [for (j = 1; j <= numSamples; j++)]
    for one segment. *)
Definition segmentSamples (wp1 wp2 : LatLng) (sampleDistance : Q) : list LatLng :=
  let segmentDistance := getDistance (lat wp1) (lng wp1) (lat wp2) (lng wp2) in
  let numSamples := Qfloor (segmentDistance / sampleDistance) in
  map (fun j : nat =>
         let t := inject_Z (Z.of_nat j) / inject_Z (numSamples + 1) in
         mkLatLng (lat wp1 + t * (lat wp2 - lat wp1))
                  (lng wp1 + t * (lng wp2 - lng wp1)))
      (seq 1 (Z.to_nat numSamples)).

(** The outer loop, with [wp1] the waypoint at index [i]. *)
Fixpoint sampleFrom (wp1 : LatLng) (rest : list LatLng) (sampleDistance : Q) : list LatLng :=
  match rest with
  | [] => []
  | wp2 :: rest' =>
      segmentSamples wp1 wp2 sampleDistance ++ wp2 :: sampleFrom wp2 rest' sampleDistance
  end.

Definition generatePathSamples (wps : list LatLng) (sampleDistance : Q) : list LatLng :=
  match wps with
  | [] => []
  | wp0 :: rest => wp0 :: sampleFrom wp0 rest sampleDistance
  end.

(** The default [sampleDistance = 50]. *)
Definition defaultSampleDistance : Q := 50.

Definition maxList (x : Q) (l : list Q) : Q := fold_left Qmax l x.
Definition minList (x : Q) (l : list Q) : Q := fold_left Qmin l x.

Definition waypointBounds (fd : FlightData) : option Bounds :=
  match waypoints fd with
  | Some (w :: ws) =>
      let lats := map lat ws in
      let lngs := map lng ws in
      Some (mkBounds (maxList (lat w) lats) (minList (lat w) lats)
                     (maxList (lng w) lngs) (minList (lng w) lngs))
  | _ => None
  end.

Definition getFlightBounds (fd : FlightData) : option Bounds :=
  match operationArea fd with
  | Some (mkCircle c r) =>
      let radiusDeg := r / 111320 in
      Some (mkBounds
              (lat c + radiusDeg)
              (lat c - radiusDeg)
              (lng c + radiusDeg / cosDeg (lat c))
              (lng c - radiusDeg / cosDeg (lat c)))
  | Some (mkRectangle _ (Some b)) => Some b
  | Some (mkRectangle _ None) => waypointBounds fd
  | None => waypointBounds fd
  end.

Definition defaultBuffer : Q := 5 # 1000.

Definition boundsOverlap (bounds1 bounds2 : option Bounds) (buffer : Q) : bool :=
  match bounds1, bounds2 with
  | Some b1, Some b2 =>
      negb (Qltb (east b1 + buffer) (west b2 - buffer)
            || Qgtb (west b1 - buffer) (east b2 + buffer)
            || Qltb (north b1 + buffer) (south b2 - buffer)
            || Qgtb (south b1 - buffer) (north b2 + buffer))
  | _, _ => false
  end.

Definition isPointInArea (lat0 lng0 : Q) (area : OperationArea) : bool :=
  match area with
  | mkCircle c r =>
      let dist := getDistance lat0 lng0 (lat c) (lng c) in
      Qle_bool dist r
  | mkRectangle _ (Some b) =>
      Qgeb lat0 (south b) && Qle_bool lat0 (north b)
      && Qgeb lng0 (west b) && Qle_bool lng0 (east b)
  | mkRectangle _ None => false
  end.

(** The running minimum [minDistance] of the path check; [None] is
    [Infinity]. *)
Definition updateMin (minDistance : option Q) (dist : Q) : option Q :=
  match minDistance with
  | None => Some dist
  | Some m => if Qltb dist m then Some dist else Some m
  end.

Definition minPairDistance (samples1 samples2 : list LatLng) : option Q :=
  fold_left
    (fun acc s1 =>
       fold_left
         (fun acc' s2 =>
            updateMin acc' (getDistance (lat s1) (lng s1) (lat s2) (lng s2)))
         samples2 acc)
    samples1 None.

(** [flight.waypoints ? generatePathSamples(flight.waypoints) : []]. *)
Definition pathSamples (fd : FlightData) : list LatLng :=
  match waypoints fd with
  | Some wps => generatePathSamples wps defaultSampleDistance
  | None => []
  end.

(** The block [if (flight1.operationArea && flight2.operationArea)]:
    [Some r] when it returns [r], [None] when control falls through. *)
Definition areaCheck (flight1 flight2 : FlightData) : option SpatialConflict :=
  match operationArea flight1, operationArea flight2 with
  | Some area1, Some area2 =>
      match area1, area2 with
      | mkCircle c1 r1, mkCircle c2 r2 =>
          let dist := getDistance (lat c1) (lng c1) (lat c2) (lng c2) in
          if Qltb dist (r1 + r2)
          then Some (SomeConflict dist area_overlap)
          else None
      | _, _ => Some (SomeConflict 0 area_overlap)
      end
  | _, _ => None
  end.

(** [for (const s of samples) if (isPointInArea(s.lat, s.lng, area))] under
    the guard [flight.operationArea && samples.length > 0]. *)
Definition pathEntersArea (area : option OperationArea) (samples : list LatLng) : bool :=
  match area with
  | Some a => existsb (fun s => isPointInArea (lat s) (lng s) a) samples
  | None => false
  end.

Definition minimumSeparation : Q := 200.

Definition checkSpatialConflict (flight1 flight2 : FlightData) : SpatialConflict :=
  let bounds1 := getFlightBounds flight1 in
  let bounds2 := getFlightBounds flight2 in
  if negb (boundsOverlap bounds1 bounds2 defaultBuffer) then NoConflict
  else
    match areaCheck flight1 flight2 with
    | Some r => r
    | None =>
        let samples1 := pathSamples flight1 in
        let samples2 := pathSamples flight2 in
        if pathEntersArea (operationArea flight1) samples2
        then SomeConflict 0 path_enters_area
        else if pathEntersArea (operationArea flight2) samples1
        then SomeConflict 0 path_enters_area
        else
          match minPairDistance samples1 samples2 with
          | Some minDistance =>
              if Qltb minDistance minimumSeparation
              then SomeConflict minDistance path_proximity
              else NoConflict
          | None => NoConflict
          end
    end.

(** ** Server: conflicts with stored flights *)

(** The Mongo query of [checkFlightConflicts], as a predicate on documents. *)
Definition mongoQuery (newStart newEnd : Z) (excludeId : option string) (f : Flight) : bool :=
  includes [PENDING; APPROVED; ACTIVE] (status f)
  && (scheduledStart (data f) <? newEnd)%Z
  && (scheduledEnd (data f) >? newStart)%Z
  && match excludeId with
     | Some x => negb (String.eqb (id f) x)
     | None => true
     end.

(** The callback of [filter] on the values of [inMemoryFlights]. *)
Definition memoryFilter (newStart newEnd : Z) (excludeId : option string) (f : Flight) : bool :=
  if includes [CANCELLED; COMPLETED; REJECTED] (status f) then false
  else if match excludeId with
          | Some x => String.eqb (id f) x
          | None => false
          end then false
  else
    let existingStart := scheduledStart (data f) in
    let existingEnd := scheduledEnd (data f) in
    (newStart <? existingEnd)%Z && (newEnd >? existingStart)%Z.

(** [existingFlights]: [mongo] holds the documents of the collection when
    [isMongoConnected()], and is [None] otherwise. *)
Definition existingFlights (mongo : option (list Flight)) (inMemoryFlights : Store)
    (newFlight : FlightData) (excludeId : option string) : list Flight :=
  let newStart := scheduledStart newFlight in
  let newEnd := scheduledEnd newFlight in
  match mongo with
  | Some collection => filter (mongoQuery newStart newEnd excludeId) collection
  | None => filter (memoryFilter newStart newEnd excludeId) (map_values inMemoryFlights)
  end.

(** [Math.abs((a || 100) - (b || 100)) < 30]. *)
Definition altitudeOverlap (a b : option Q) : bool :=
  Qltb (Qabs (orDefault a 100 - orDefault b 100)) 30.

(** One turn of the loop over [existingFlights]: the conflicts it pushes. *)
Definition conflictWith (newFlight : FlightData) (flight : Flight) : list Conflict :=
  if negb (altitudeOverlap (maxAltitude newFlight) (maxAltitude (data flight))) then []
  else
    match checkSpatialConflict newFlight (data flight) with
    | SomeConflict minDistance type =>
        [mkConflict (id flight) type (round minDistance)
                    (scheduledStart (data flight)) (scheduledEnd (data flight))]
    | NoConflict => []
    end.

Definition checkFlightConflicts (mongo : option (list Flight)) (inMemoryFlights : Store)
    (newFlight : FlightData) (excludeId : option string) : list Conflict :=
  flat_map (conflictWith newFlight)
           (existingFlights mongo inMemoryFlights newFlight excludeId).

(** ** Server: validation *)

(** The pair of the array [checks] and the flag [isValid] that
    [validateFlightRequest] updates as it goes. *)
Definition VState : Type := (list Check * bool)%type.

Definition push (c : Check) (st : VState) : VState := (fst st ++ [c], snd st).

Definition invalidate (st : VState) : VState := (fst st, false).

Definition pushAll (cs : list Check) (st : VState) : VState :=
  fold_left (fun s c => push c s) cs st.

Definition borderCheck (fd : FlightData) (st : VState) : VState :=
  match waypoints fd with
  | Some (w :: ws) =>
      let st1 :=
        fold_left
          (fun s wp =>
             if negb (isWithinKosovo (lat wp) (lng wp))
             then invalidate (push (mkCheck "border_check" false error None) s)
             else s)
          (w :: ws) st in
      if negb (existsb (fun c => String.eqb (name c) "border_check" && negb (passed c))
                       (fst st1))
      then push (mkCheck "border_check" true info None) st1
      else st1
  | _ => st
  end.

Definition areaBorderCheck (fd : FlightData) (st : VState) : VState :=
  match operationArea fd with
  | Some area =>
      match center area with
      | Some c =>
          if negb (isWithinKosovo (lat c) (lng c))
          then invalidate (push (mkCheck "area_border_check" false error None) st)
          else push (mkCheck "area_border_check" true info None) st
      | None => st
      end
  | None => st
  end.

(** [flightData.maxAltitude > limit]; the comparison is false when the field
    is absent. *)
Definition exceeds (x : option Q) (limit : Q) : bool :=
  match x with
  | Some v => Qgtb v limit
  | None => false
  end.

Definition altitudeCheck (fd : FlightData) (st : VState) : VState :=
  if exceeds (maxAltitude fd) maxAltitudeAGL
  then invalidate (push (mkCheck "altitude_check" false error None) st)
  else push (mkCheck "altitude_check" true info None) st.

(** [flightData.waypoints || (operationArea?.center ? [center] : [])]. *)
Definition zonePoints (fd : FlightData) : list LatLng :=
  match waypoints fd with
  | Some wps => wps
  | None =>
      match operationArea fd with
      | Some area =>
          match center area with
          | Some c => [c]
          | None => []
          end
      | None => []
      end
  end.

Definition zoneCheck (fd : FlightData) (st : VState) : VState :=
  let zoneViolations :=
    flat_map (fun point =>
                checkRestrictedZone (lat point) (lng point)
                                    (orDefault (maxAltitude fd) 100))
             (zonePoints fd) in
  match zoneViolations with
  | _ :: _ =>
      let errors := filter (fun v => isError (violation_severity v)) zoneViolations in
      let warnings := filter (fun v => isWarning (violation_severity v)) zoneViolations in
      let st1 :=
        match errors with
        | _ :: _ =>
            pushAll (map (fun _ => mkCheck "zone_check" false error None) errors)
                    (invalidate st)
        | [] => st
        end in
      pushAll (map (fun _ => mkCheck "zone_check" true warning None) warnings) st1
  | [] => push (mkCheck "zone_check" true info None) st
  end.

Definition timeCheck (now : Z) (fd : FlightData) (st : VState) : VState :=
  if (scheduledStart fd <? now)%Z
  then invalidate (push (mkCheck "time_check" false error None) st)
  else push (mkCheck "time_check" true info None) st.

Definition daylightCheck (fd : FlightData) (st : VState) : VState :=
  let startHour := (getUTCHours (scheduledStart fd) + 1)%Z in
  if ((startHour <? 6) || (startHour >? 20))%Z
  then push (mkCheck "daylight_check" false warning None) st
  else push (mkCheck "daylight_check" true info None) st.

Definition trafficCheck (mongo : option (list Flight)) (inMemoryFlights : Store)
    (fd : FlightData) (st : VState) : VState :=
  let conflicts := checkFlightConflicts mongo inMemoryFlights fd None in
  match conflicts with
  | _ :: _ =>
      pushAll (map (fun conflict => mkCheck "traffic_conflict" false error (Some conflict))
                   conflicts)
              (invalidate st)
  | [] => push (mkCheck "traffic_conflict" true info None) st
  end.

Definition validateFlightRequest (mongo : option (list Flight)) (inMemoryFlights : Store)
    (now : Z) (flightData : FlightData) : Validation :=
  let st0 : VState := ([], true) in
  let st1 := borderCheck flightData st0 in
  let st2 := areaBorderCheck flightData st1 in
  let st3 := altitudeCheck flightData st2 in
  let st4 := zoneCheck flightData st3 in
  let st5 := timeCheck now flightData st4 in
  let st6 := daylightCheck flightData st5 in
  let st7 := trafficCheck mongo inMemoryFlights flightData st6 in
  mkValidation (snd st7) (fst st7) now.

(** ** Server: handlers on the in-memory registry *)

(** POST [/], the branch taken when Mongo is not connected.  [newId] is the
    identifier under which the flight is stored (the one derived from the
    clock, or the [id] of the body when it carries one). *)
Definition postFlight (inMemoryFlights : Store) (now : Z) (newId user : string)
    (flightData : FlightData) : Store * Flight :=
  let validation := validateFlightRequest None inMemoryFlights now flightData in
  let flight :=
    mkFlight newId user flightData
             (if isValid validation then PENDING else REJECTED)
             (Some validation) 0 in
  (map_set inMemoryFlights (id flight) flight, flight).

Definition setStatus (f : Flight) (s : string) : Flight :=
  mkFlight (id f) (userId f) (data f) s (validation f) (currentWaypointIndex f).

(** PATCH [/:id/status], in-memory branch; [None] is the 404 answer. *)
Definition patchStatus (inMemoryFlights : Store) (key newStatus : string) : option Store :=
  match map_get inMemoryFlights key with
  | None => None
  | Some flight =>
      let flight' := setStatus flight newStatus in
      Some (map_set inMemoryFlights (id flight') flight')
  end.

(** DELETE [/:id], in-memory branch; [None] is the 404 answer. *)
Definition cancelFlight (inMemoryFlights : Store) (key user : string) : option Store :=
  match map_get inMemoryFlights key with
  | None => None
  | Some flight =>
      if negb (String.eqb (userId flight) user) then None
      else
        let flight' := setStatus flight CANCELLED in
        Some (map_set inMemoryFlights (id flight') flight')
  end.

(** The status part of one turn of the loop of POST [/tick].  The drone's
    movement is random; [reached] tells whether this turn brings it within
    50 m of its target waypoint.  The second component is [false] when the
    turn throws (an approved flight without a first waypoint), which ends
    the sweep after the status has been written. *)
Definition tickFlight (now : Z) (reached : bool) (f : Flight) : Flight * bool :=
  let nWaypoints :=
    match waypoints (data f) with Some wps => List.length wps | None => 0%nat end in
  let f1 :=
    if String.eqb (status f) ACTIVE && (0 <? nWaypoints)%nat then
      if reached then
        let idx := S (currentWaypointIndex f) in
        mkFlight (id f) (userId f) (data f)
                 (if (nWaypoints <=? idx)%nat then COMPLETED else status f)
                 (validation f) idx
      else f
    else f in
  let '(f2, ok) :=
    if String.eqb (status f1) APPROVED then
      if (scheduledStart (data f1) <=? now)%Z then
        let f' := setStatus f1 ACTIVE in
        if (0 <? nWaypoints)%nat
        then (mkFlight (id f') (userId f') (data f') (status f') (validation f') 0, true)
        else (f', false)
      else (f1, true)
    else (f1, true) in
  if ok then
    if String.eqb (status f2) ACTIVE then
      if (scheduledEnd (data f2) <=? now)%Z
      then (setStatus f2 COMPLETED, true)
      else (f2, true)
    else (f2, true)
  else (f2, false).

(** The sweep [for (const [id, flight] of flights)] of POST [/tick]. *)
Fixpoint tick (now : Z) (reached : string -> bool) (flights : Store) : Store :=
  match flights with
  | [] => []
  | (k, f) :: rest =>
      let '(f', ok) := tickFlight now (reached k) f in
      if ok then (k, f') :: tick now reached rest else (k, f') :: rest
  end.

End Server.

(** ** Notions used by the statements *)

(** A distance to run the model with: degrees of latitude and of longitude
    both counted at 111195 m.  On a meridian it agrees with the haversine
    distance to one part in a million. *)
Definition meridianDistance (lat1 lng1 lat2 lng2 : Q) : Q :=
  111195 * (Qabs (lat2 - lat1) + Qabs (lng2 - lng1)).

(** Whether an array of checks holds an entry of the given name. *)
Definition mentions (n : string) (cs : list Check) : bool :=
  existsb (fun c => String.eqb (name c) n) cs.

(** Whether a report holds an entry of the given name. *)
Definition hasCheck (n : string) (v : Validation) : bool := mentions n (checks v).

(** An entry of severity error. *)
Definition errorCheck (c : Check) : bool := isError (severity c).

(** No entry of severity error. *)
Definition errorFree (cs : list Check) : bool := forallb (fun c => negb (errorCheck c)) cs.

(** A step of the validation only appends entries, clears [isValid] exactly
    when it appends an entry of severity error, and marks such entries as not
    passed. *)
Definition extendsReport (stage : VState -> VState) : Prop :=
  forall st,
    exists added,
      stage st = (fst st ++ added, snd st && errorFree added)
      /\ (forall c, In c added -> errorCheck c = true -> passed c = false).

(** The report in the words of the design: what each of the seven checks
    contributes, told from the request alone.  The border check gives one
    failed entry for each waypoint outside the border, or one passed entry
    when there are waypoints and none is outside. *)
Definition borderEntries (isWithinKosovo : Q -> Q -> bool) (fd : FlightData) : list Check :=
  match waypoints fd with
  | Some (w :: ws) =>
      match filter (fun wp => negb (isWithinKosovo (lat wp) (lng wp))) (w :: ws) with
      | [] => [mkCheck "border_check" true info None]
      | outside => map (fun _ => mkCheck "border_check" false error None) outside
      end
  | _ => []
  end.

(** The area border check gives one entry when the area has a centre. *)
Definition areaBorderEntries (isWithinKosovo : Q -> Q -> bool) (fd : FlightData)
  : list Check :=
  match operationArea fd with
  | Some area =>
      match center area with
      | Some c =>
          if isWithinKosovo (lat c) (lng c)
          then [mkCheck "area_border_check" true info None]
          else [mkCheck "area_border_check" false error None]
      | None => []
      end
  | None => []
  end.

Definition altitudeEntry (fd : FlightData) : Check :=
  if exceeds (maxAltitude fd) maxAltitudeAGL
  then mkCheck "altitude_check" false error None
  else mkCheck "altitude_check" true info None.

(** The zone check gives one failed entry for each violation of severity
    error, then one passed entry of severity warning for each violation of
    severity warning, or one passed entry when there is no violation at all. *)
Definition zoneEntries (checkRestrictedZone : Q -> Q -> Q -> list Violation)
    (fd : FlightData) : list Check :=
  let violations :=
    flat_map (fun point =>
                checkRestrictedZone (lat point) (lng point) (orDefault (maxAltitude fd) 100))
             (zonePoints fd) in
  match violations with
  | [] => [mkCheck "zone_check" true info None]
  | _ :: _ =>
      map (fun _ => mkCheck "zone_check" false error None)
          (filter (fun v => isError (violation_severity v)) violations)
      ++ map (fun _ => mkCheck "zone_check" true warning None)
             (filter (fun v => isWarning (violation_severity v)) violations)
  end.

Definition timeEntry (now : Z) (fd : FlightData) : Check :=
  if (scheduledStart fd <? now)%Z
  then mkCheck "time_check" false error None
  else mkCheck "time_check" true info None.

(** The daylight check fails with severity warning outside 06:00 to 20:00. *)
Definition daylightEntry (fd : FlightData) : Check :=
  if ((getUTCHours (scheduledStart fd) + 1 <? 6)
      || (getUTCHours (scheduledStart fd) + 1 >? 20))%Z
  then mkCheck "daylight_check" false warning None
  else mkCheck "daylight_check" true info None.

(** The traffic check gives one failed entry for each conflict, carrying it,
    or one passed entry when there is none. *)
Definition trafficEntries (conflicts : list Conflict) : list Check :=
  match conflicts with
  | [] => [mkCheck "traffic_conflict" true info None]
  | _ :: _ =>
      map (fun conflict => mkCheck "traffic_conflict" false error (Some conflict)) conflicts
  end.

(** Statuses that reserve airspace. *)
Definition live (f : Flight) : bool := includes [PENDING; APPROVED; ACTIVE] (status f).

(** No two stored flights that reserve airspace have bodies in the given
    relation. *)
Definition separated (related : FlightData -> FlightData -> bool) (store : Store) : Prop :=
  forall k1 f1 k2 f2,
    In (k1, f1) store -> In (k2, f2) store -> k1 <> k2 ->
    live f1 = true -> live f2 = true ->
    related (data f1) (data f2) = false.

(** Statuses that the lifecycle calls terminal. *)
Definition terminal (f : Flight) : bool := includes [CANCELLED; COMPLETED; REJECTED] (status f).

(** Half-open intersection of the two time windows. *)
Definition timeOverlap (a b : FlightData) : bool :=
  (scheduledStart a <? scheduledEnd b)%Z && (scheduledEnd a >? scheduledStart b)%Z.

(** One call of the submission interface: the instant, the identifier given
    to the flight, the caller and the body. *)
Record Submission : Type := mkSubmission {
  sub_now : Z;
  sub_id : string;
  sub_user : string;
  sub_body : FlightData
}.

Section Registry.

Variable calculateDistance : Q -> Q -> Q -> Q -> Q.
Variable cosDeg : Q -> Q.
Variable isWithinKosovo : Q -> Q -> bool.
Variable checkRestrictedZone : Q -> Q -> Q -> list Violation.

(** The separation tests that [checkSpatialConflict] runs once the bounding
    boxes have passed: two areas one of which is a rectangle (whose boxes have
    then been found to overlap); two circles closer than the sum of their
    radii; a path sample inside the other flight's area; two path samples
    closer than 200 m. *)
Definition separationViolated (f g : FlightData) : bool :=
  match operationArea f, operationArea g with
  | Some a1, Some a2 =>
      match a1, a2 with
      | mkCircle c1 r1, mkCircle c2 r2 =>
          Qltb (calculateDistance (lat c1) (lng c1) (lat c2) (lng c2)) (r1 + r2)
      | _, _ => true
      end
  | _, _ => false
  end
  || pathEntersArea calculateDistance (operationArea f) (pathSamples calculateDistance g)
  || pathEntersArea calculateDistance (operationArea g) (pathSamples calculateDistance f)
  || existsb
       (fun s1 =>
          existsb
            (fun s2 =>
               Qltb (calculateDistance (lat s1) (lng s1) (lat s2) (lng s2))
                    minimumSeparation)
            (pathSamples calculateDistance g))
       (pathSamples calculateDistance f).

(** The conflict test as the code runs it: windows overlap, representative
    altitudes are less than 30 m apart, the bounding boxes of
    [getFlightBounds] lie within the buffer, and then one of the separation
    tests fails.  The bounding-box step comes first for every pair, also for
    the pairs that the path tests would catch. *)
Definition inConflict (f g : FlightData) : bool :=
  timeOverlap f g
  && altitudeOverlap (maxAltitude f) (maxAltitude g)
  && boundsOverlap (getFlightBounds cosDeg f) (getFlightBounds cosDeg g) defaultBuffer
  && separationViolated f g.

(** The geometric thresholds of the separation invariant, in the words of the
    design: two circles closer than the sum of their radii; two areas one of
    which is a rectangle whose bounding boxes overlap; a path sample inside
    the other flight's area; two path samples less than 200 m apart.  Only
    the rectangle case looks at bounding boxes. *)
Definition withinThresholds (f g : FlightData) : bool :=
  match operationArea f, operationArea g with
  | Some a1, Some a2 =>
      match a1, a2 with
      | mkCircle c1 r1, mkCircle c2 r2 =>
          Qltb (calculateDistance (lat c1) (lng c1) (lat c2) (lng c2)) (r1 + r2)
      | _, _ =>
          boundsOverlap (getFlightBounds cosDeg f) (getFlightBounds cosDeg g) defaultBuffer
      end
  | _, _ => false
  end
  || pathEntersArea calculateDistance (operationArea f) (pathSamples calculateDistance g)
  || pathEntersArea calculateDistance (operationArea g) (pathSamples calculateDistance f)
  || existsb
       (fun s1 =>
          existsb
            (fun s2 =>
               Qltb (calculateDistance (lat s1) (lng s1) (lat s2) (lng s2))
                    minimumSeparation)
            (pathSamples calculateDistance g))
       (pathSamples calculateDistance f).

(** A pair that the separation invariant forbids among the flights that
    reserve airspace: windows overlap, representative altitudes are less than
    30 m apart, and the geometries are within the thresholds. *)
Definition forbiddenPair (f g : FlightData) : bool :=
  timeOverlap f g
  && altitudeOverlap (maxAltitude f) (maxAltitude g)
  && withinThresholds f g.

(** No two stored flights that reserve airspace fail the code's conflict
    test. *)
Definition conflictFree (store : Store) : Prop :=
  forall k1 f1 k2 f2,
    In (k1, f1) store -> In (k2, f2) store -> k1 <> k2 ->
    live f1 = true -> live f2 = true ->
    inConflict (data f1) (data f2) = false.

(** A sequence of submissions, processed one after the other. *)
Definition submitAll (subs : list Submission) (store : Store) : Store :=
  fold_left
    (fun st s =>
       fst (postFlight calculateDistance cosDeg isWithinKosovo checkRestrictedZone
                       st (sub_now s) (sub_id s) (sub_user s) (sub_body s)))
    subs store.

End Registry.

(** ** The admission scenario *)

(** The instant [h:m] of the scenario's day. *)
Definition hm (h m : Z) : Z := ((h * 60 + m) * 60000)%Z.

Definition waypointA : LatLng := mkLatLng (4260 # 100) (2090 # 100).

(** Flight A: one waypoint, 100 m, window 10:00 to 10:30. *)
Definition flightA : FlightData :=
  mkFlightData (Some [waypointA]) None (hm 10 0) (hm 10 30) (Some 100).

(** A flight over A's waypoint, at A's altitude and in A's window, that also
    declares a circular operation area of radius 100 m some 22 km to the
    south. *)
Definition flightWithFarArea : FlightData :=
  mkFlightData (Some [waypointA])
               (Some (mkCircle (mkLatLng (4240 # 100) (2090 # 100)) 100))
               (hm 10 0) (hm 10 30) (Some 100).

(** Flight B: one waypoint, window 10:15 to 10:45, at the given altitude. *)
Definition flightB (wp : LatLng) (altitude : Q) : FlightData :=
  mkFlightData (Some [wp]) None (hm 10 15) (hm 10 45) (Some altitude).

(** A waypoint 150 m north of A's, on the same meridian. *)
Definition waypointB : LatLng := mkLatLng ((4260 # 100) + 150 / 111195) (2090 # 100).

(** An environment to run the scenario in: every point inside the border, no
    restricted zone. *)
Definition everywhereInside (lat0 lng0 : Q) : bool := true.
Definition noZones (lat0 lng0 altitude : Q) : list Violation := [].
Definition cosUnit (lat0 : Q) : Q := 1.

(** The triangle of the ray-casting example, as [[lat, lng]] pairs. *)
Definition triangle : list (Q * Q) := [(0, 0); (0, 10); (10, 0)].

(** Whether sample [i] of the 20-step trajectory passes the border test. *)
Definition sampleInside (coords : option (list (Q * Q))) (lat1 lng1 lat2 lng2 : Q)
    (i : nat) : bool :=
  let s := trajectorySample 20 lat1 lng1 lat2 lng2 i in
  isPointInKosovo coords (cross_lat s) (cross_lng s).

(** The point lies within the restricted radius of the airport. *)
Definition inAirport (getDistanceMeters : Q -> Q -> Q -> Q -> Q) (lat0 lng0 : Q)
    (a : Airport) : Prop :=
  getDistanceMeters lat0 lng0 (lat (airport_position a)) (lng (airport_position a))
  <= restrictedRadius a.

(** The point lies within the radius of the zone. *)
Definition inZone (getDistanceMeters : Q -> Q -> Q -> Q -> Q) (lat0 lng0 : Q)
    (z : Zone) : Prop :=
  getDistanceMeters lat0 lng0 (lat (zone_position z)) (lng (zone_position z))
  <= zone_radius z.

(** Concrete planner data to run the classification and the trajectory test
    on. *)
Definition demoAirport : Airport :=
  mkAirport "Prishtina International Airport" (mkLatLng (425728 # 10000) (210358 # 10000)) 5000.

Definition demoNoFlyZone : Zone :=
  mkZone "Camp Bondsteel" "military" (mkLatLng (4236 # 100) (2125 # 100)) 3000 0.

Definition demoCappedZone : Zone :=
  mkZone "Prishtina City Center" "urban" (mkLatLng (426629 # 10000) (211655 # 10000)) 2000 60.

Definition demoRing : list (Q * Q) :=
  [(4185 # 100, 1991 # 100); (4185 # 100, 2180 # 100);
   (4327 # 100, 2180 # 100); (4327 # 100, 1991 # 100)].

Definition demoState : PlannerState :=
  mkPlannerState [demoAirport] [demoNoFlyZone; demoCappedZone] (Some demoRing).

(** A waypoint about 111 m north of A's. *)
Definition waypointNorth : LatLng := mkLatLng (42601 # 1000) (2090 # 100).

(** Stored flights for the registry examples: flight A with a given status. *)
Definition storedA (s : string) : Flight :=
  mkFlight "flight_1" "pilot" flightA s None 0.

(** The status ['expired'] of the flight schema. *)
Definition EXPIRED : string := "expired".

(** A registry of three flights that all reserve airspace: A, approved at
    100 m; B, active 150 m north of A at 60 m in an overlapping window; and a
    pending flight over A's waypoint at 100 m an hour later. *)
Definition liveRegistry : Store :=
  [("flight_1"%string, storedA APPROVED);
   ("flight_2"%string, mkFlight "flight_2" "pilot" (flightB waypointB 60) ACTIVE None 0);
   ("flight_3"%string,
    mkFlight "flight_3" "pilot"
             (mkFlightData (Some [waypointA]) None (hm 11 0) (hm 11 30) (Some 100))
             PENDING None 0)].

(** A later request whose window, 10:10 to 10:20, lies inside A's. *)
Definition laterRequest : FlightData :=
  mkFlightData (Some [waypointNorth]) None (hm 10 10) (hm 10 20) (Some 100).

(** A zone function to run the validation with: an error north of latitude
    42.62, a warning north of 42.6005, nothing elsewhere. *)
Definition demoZoneCheck (lat0 lng0 altitude : Q) : list Violation :=
  if Qle_bool (4262 # 100) lat0 then [mkViolation error]
  else if Qle_bool (426005 # 10000) lat0 then [mkViolation warning]
  else [].

(** Whether the running minimum of the path check is under the separation
    minimum. *)
Definition underSeparation (minDistance : option Q) : bool :=
  match minDistance with
  | Some m => Qltb m minimumSeparation
  | None => false
  end.

(** ** Notions used by the further properties *)

(** The waypoints of a request, none when the field is absent. *)
Definition requestWaypoints (fd : FlightData) : list LatLng :=
  match waypoints fd with
  | Some wps => wps
  | None => []
  end.

(** Every zone violation found for a request, as [validateFlightRequest]
    collects them. *)
Definition zoneViolationsOf (checkRestrictedZone : Q -> Q -> Q -> list Violation)
    (fd : FlightData) : list Violation :=
  flat_map (fun point =>
              checkRestrictedZone (lat point) (lng point) (orDefault (maxAltitude fd) 100))
           (zonePoints fd).

(** The checks of a request that do not look at the registry: every waypoint
    and the area's centre inside the border, altitude within the ceiling, no
    zone violation of severity error, start not in the past. *)
Definition passesOwnChecks (isWithinKosovo : Q -> Q -> bool)
    (checkRestrictedZone : Q -> Q -> Q -> list Violation) (now : Z) (fd : FlightData) : bool :=
  forallb (fun wp => isWithinKosovo (lat wp) (lng wp)) (requestWaypoints fd)
  && match operationArea fd with
     | Some area =>
         match center area with
         | Some c => isWithinKosovo (lat c) (lng c)
         | None => true
         end
     | None => true
     end
  && negb (exceeds (maxAltitude fd) maxAltitudeAGL)
  && negb (existsb (fun v => isError (violation_severity v))
                   (zoneViolationsOf checkRestrictedZone fd))
  && negb (scheduledStart fd <? now)%Z.

(** What the sweep may do to one flight: identity, owner, body and report are
    kept, and the status stays or moves along approved, active, completed. *)
Definition tickStep (old new : string * Flight) : Prop :=
  fst new = fst old
  /\ id (snd new) = id (snd old)
  /\ userId (snd new) = userId (snd old)
  /\ data (snd new) = data (snd old)
  /\ validation (snd new) = validation (snd old)
  /\ (status (snd new) = status (snd old)
      \/ (status (snd old) = APPROVED
          /\ (status (snd new) = ACTIVE \/ status (snd new) = COMPLETED))
      \/ (status (snd old) = ACTIVE /\ status (snd new) = COMPLETED)).

(** A request without geometry. *)
Definition noGeometry : FlightData := mkFlightData None None (hm 10 0) (hm 10 30) None.

(** ** Client: flight areas and the editing state of the planner *)

(** [state.operationArea] as the drawing handler builds it:
    [{type: 'circle', center, radius}] or [{type: 'rectangle', center, bounds}]. *)
Inductive ClientArea : Type :=
| CircleArea (c : LatLng) (r : Q)
| RectangleArea (c : LatLng) (b : Bounds).

(** The layer of a [draw:created] event: a circle with its [getLatLng()] and
    [getRadius()], or a rectangle with its [getBounds()] and the
    [getCenter()] of those bounds. *)
Inductive Layer : Type :=
| CircleLayer (c : LatLng) (r : Q)
| RectangleLayer (c : LatLng) (b : Bounds).

(** An element of [state.waypoints]: [{lat, lng, altitude, order, marker}].
    Of the marker, [wp_index] is the [index] that its [dragend] handler
    captured when [addWaypoint] created it. *)
Record Waypoint : Type := mkWaypoint {
  wp_lat : Q;
  wp_lng : Q;
  wp_altitude : Q;
  wp_order : nat;
  wp_index : nat
}.

(** A waypoint of a route sent by the optimiser: [{lat, lng, altitude, order}]. *)
Record RouteWaypoint : Type := mkRouteWaypoint {
  rw_lat : Q;
  rw_lng : Q;
  rw_altitude : Q;
  rw_order : nat
}.

(** The fields of the planner's [state] that editing changes. *)
Record EditState : Type := mkEditState {
  st_waypoints : list Waypoint;
  st_operationArea : option ClientArea;
  st_flightType : string;
  st_currentTool : option string
}.

(** The [state] of a freshly loaded page. *)
Definition initialState : EditState := mkEditState [] None "waypoint" None.

(** What the user, Leaflet and the optimiser panel can make happen. *)
Inductive Event : Type :=
| MapClick (lat0 lng0 : Q)
| DragEnd (marker : nat) (lat0 lng0 : Q)
| RemoveClick (index : nat)
| ToolClick (tool : string)
| DrawCreated (layer : Layer)
| DrawStop
| ApplyOptimizedRoute (route : list RouteWaypoint).

(** A call that either returns or throws a [TypeError] on reading a field of
    [undefined]. *)
Inductive Completion (A : Type) : Type :=
| Returns (a : A)
| Throws.

Arguments Returns {A} a.
Arguments Throws {A}.

(** The messages of [checkTrajectoryValidity] and
    [checkNewWaypointTrajectory], by the numbers they print. *)
Inductive TrajectoryIssue : Type :=
| CrossesBetween (from to : nat)
| CrossesToNew.

(** [array.splice(index, 1)]. *)
Definition splice1 {A : Type} (index : nat) (l : list A) : list A :=
  firstn index l ++ skipn (S index) l.

(** [array[index] = f(array[index])] for an index within the array. *)
Fixpoint updateAt {A : Type} (index : nat) (f : A -> A) (l : list A) : list A :=
  match l, index with
  | [], _ => []
  | x :: rest, O => f x :: rest
  | x :: rest, S i => x :: updateAt i f rest
  end.

(** [waypoints.forEach((wp, i) => { wp.order = i })], counting from [i]. *)
Fixpoint renumber (i : nat) (l : list Waypoint) : list Waypoint :=
  match l with
  | [] => []
  | wp :: rest =>
      mkWaypoint (wp_lat wp) (wp_lng wp) (wp_altitude wp) i (wp_index wp)
      :: renumber (S i) rest
  end.

Definition inBounds (p : LatLng) (b : Bounds) : bool :=
  Qgeb (lat p) (south b) && Qle_bool (lat p) (north b)
  && Qgeb (lng p) (west b) && Qle_bool (lng p) (east b).

(** The nine points that [doesAreaOverlapRestricted] probes for a rectangle. *)
Definition rectanglePoints (c : LatLng) (b : Bounds) : list LatLng :=
  [ mkLatLng (lat c) (lng c);
    mkLatLng (north b) (west b);
    mkLatLng (north b) (east b);
    mkLatLng (south b) (east b);
    mkLatLng (south b) (west b);
    mkLatLng ((north b + south b) / 2) (west b);
    mkLatLng ((north b + south b) / 2) (east b);
    mkLatLng (north b) ((east b + west b) / 2);
    mkLatLng (south b) ((east b + west b) / 2) ].

(** The four corners that the drawing handler tests against the border. *)
Definition corners (b : Bounds) : list LatLng :=
  [ mkLatLng (north b) (west b);
    mkLatLng (north b) (east b);
    mkLatLng (south b) (east b);
    mkLatLng (south b) (west b) ].

Section ClientEditing.

Variable getDistanceMeters : Q -> Q -> Q -> Q -> Q.

(** [Math.cos((i / 8) * 2 * Math.PI)] and [Math.sin((i / 8) * 2 * Math.PI)]. *)
Variable cosEighth : nat -> Q.
Variable sinEighth : nat -> Q.

(** [Math.cos(lat * Math.PI / 180)]. *)
Variable cosDeg : Q -> Q.

(** The airports, zones and border that the page holds when a handler runs. *)
Variable geo : PlannerState.

(** Point [i] of the eight on the perimeter of a circle. *)
Definition perimeterPoint (c : LatLng) (r : Q) (i : nat) : LatLng :=
  let latOffset := (r / 111320) * cosEighth i in
  let lngOffset := (r / (111320 * cosDeg (lat c))) * sinEighth i in
  mkLatLng (lat c + latOffset) (lng c + lngOffset).

Definition perimeter (c : LatLng) (r : Q) : list LatLng :=
  map (perimeterPoint c r) (seq 0 8).

(** The loops [for (const point of ...) { check = isPointInRestrictedArea(...);
    if (check.restricted) return check; }]. *)
Fixpoint firstRestricted (points : list LatLng) : option AreaCheck :=
  match points with
  | [] => None
  | p :: rest =>
      let check := isPointInRestrictedArea getDistanceMeters geo (lat p) (lng p) in
      if restricted check then Some check else firstRestricted rest
  end.

(** The airport loop of the circle branch. *)
Fixpoint overlappingAirport (l : list Airport) (c : LatLng) (r : Q) : option AreaCheck :=
  match l with
  | [] => None
  | airport :: rest =>
      let distance :=
        getDistanceMeters (lat c) (lng c)
          (lat (airport_position airport)) (lng (airport_position airport)) in
      if Qle_bool distance (r + restrictedRadius airport) then
        if Qltb distance (r + restrictedRadius airport)
        then Some (Restricted "airport" (airport_name airport))
        else overlappingAirport rest c r
      else overlappingAirport rest c r
  end.

(** The zone loop of the circle branch. *)
Fixpoint overlappingZone (l : list Zone) (c : LatLng) (r : Q) : option AreaCheck :=
  match l with
  | [] => None
  | zone :: rest =>
      if Qeq_bool (zone_maxAltitude zone) 0 then
        let distance :=
          getDistanceMeters (lat c) (lng c)
            (lat (zone_position zone)) (lng (zone_position zone)) in
        if Qltb distance (r + zone_radius zone)
        then Some (Restricted (zone_type zone) (zone_name zone))
        else overlappingZone rest c r
      else overlappingZone rest c r
  end.

(** The airport loop of the rectangle branch. *)
Fixpoint containedAirport (l : list Airport) (b : Bounds) : option AreaCheck :=
  match l with
  | [] => None
  | airport :: rest =>
      if inBounds (airport_position airport) b
      then Some (Restricted "airport" (airport_name airport))
      else containedAirport rest b
  end.

(** The zone loop of the rectangle branch. *)
Fixpoint containedZone (l : list Zone) (b : Bounds) : option AreaCheck :=
  match l with
  | [] => None
  | zone :: rest =>
      if Qeq_bool (zone_maxAltitude zone) 0 then
        if inBounds (zone_position zone) b
        then Some (Restricted (zone_type zone) (zone_name zone))
        else containedZone rest b
      else containedZone rest b
  end.

(** The block [if (areaType === 'circle')]: [Some r] when it returns [r],
    [None] when control leaves it. *)
Definition circleOverlap (c : LatLng) (r : Q) : option AreaCheck :=
  let centerCheck := isPointInRestrictedArea getDistanceMeters geo (lat c) (lng c) in
  if restricted centerCheck then Some centerCheck
  else
    match firstRestricted (perimeter c r) with
    | Some perimeterCheck => Some perimeterCheck
    | None =>
        match overlappingAirport (airports geo) c r with
        | Some found => Some found
        | None => overlappingZone (restrictedZones geo) c r
        end
    end.

(** The block [if (areaType === 'rectangle' && bounds)]. *)
Definition rectangleOverlap (c : LatLng) (b : Bounds) : option AreaCheck :=
  match firstRestricted (rectanglePoints c b) with
  | Some check => Some check
  | None =>
      match containedAirport (airports geo) b with
      | Some found => Some found
      | None => containedZone (restrictedZones geo) b
      end
  end.

(** [doesAreaOverlapRestricted(areaType, center, radius, bounds)]; [radius]
    is read in the circle block only, [bounds] is [null] for a circle. *)
Definition doesAreaOverlapRestricted (areaType : string) (c : LatLng) (r : Q)
    (b : option Bounds) : AreaCheck :=
  match (if String.eqb areaType "circle" then circleOverlap c r else None) with
  | Some found => found
  | None =>
      match (if String.eqb areaType "rectangle"
             then match b with Some b' => rectangleOverlap c b' | None => None end
             else None) with
      | Some found => found
      | None => Unrestricted
      end
  end.

(** Whether the straight line between two points stays inside the border at
    the nineteen samples of [doesTrajectoryCrossOutside]. *)
Definition crosses (lat1 lng1 lat2 lng2 : Q) : bool :=
  match doesTrajectoryCrossOutside (kosovoBorderCoords geo) lat1 lng1 lat2 lng2 with
  | Some _ => true
  | None => false
  end.

(** [checkTrajectoryValidity(waypointIndex, newLat, newLng)] on the array
    [waypoints]. *)
Definition checkTrajectoryValidity (waypoints : list Waypoint) (waypointIndex : nat)
    (newLat newLng : Q) : Completion (option TrajectoryIssue) :=
  let fromThis :=
    if (waypointIndex <? List.length waypoints - 1)%nat then
      match nth_error waypoints (waypointIndex + 1) with
      | Some nextWp =>
          if crosses newLat newLng (wp_lat nextWp) (wp_lng nextWp)
          then Returns (Some (CrossesBetween (waypointIndex + 1) (waypointIndex + 2)))
          else Returns None
      | None => Throws
      end
    else Returns None in
  if (0 <? waypointIndex)%nat then
    match nth_error waypoints (waypointIndex - 1) with
    | Some prevWp =>
        if crosses (wp_lat prevWp) (wp_lng prevWp) newLat newLng
        then Returns (Some (CrossesBetween waypointIndex (waypointIndex + 1)))
        else fromThis
    | None => Throws
    end
  else fromThis.

(** [checkNewWaypointTrajectory(newLat, newLng)]. *)
Definition checkNewWaypointTrajectory (waypoints : list Waypoint) (newLat newLng : Q)
  : option TrajectoryIssue :=
  match waypoints with
  | [] => None
  | w :: ws =>
      let lastWp := last ws w in
      if crosses (wp_lat lastWp) (wp_lng lastWp) newLat newLng
      then Some CrossesToNew
      else None
  end.

(** [addWaypoint(lat, lng)]. *)
Definition addWaypoint (lat0 lng0 : Q) (st : EditState) : EditState :=
  let st1 :=
    match st_operationArea st with
    | Some _ => mkEditState (st_waypoints st) None "waypoint" (st_currentTool st)
    | None => st
    end in
  let index := List.length (st_waypoints st1) in
  mkEditState (st_waypoints st1 ++ [mkWaypoint lat0 lng0 100 index index])
              (st_operationArea st1) (st_flightType st1) (st_currentTool st1).

(** [onMapClick(e)] with [e.latlng = {lat, lng}]. *)
Definition onMapClick (lat0 lng0 : Q) (st : EditState) : EditState :=
  match st_currentTool st with
  | Some tool =>
      if negb (String.eqb tool "waypoint") then st
      else if negb (isPointInKosovo (kosovoBorderCoords geo) lat0 lng0) then st
      else if restricted (isPointInRestrictedArea getDistanceMeters geo lat0 lng0) then st
      else
        match checkNewWaypointTrajectory (st_waypoints st) lat0 lng0 with
        | Some _ => st
        | None => addWaypoint lat0 lng0 st
        end
  | None => st
  end.

(** The [dragend] handler of the marker that captured [index], dropped at
    [(lat0, lng0)].  Every exit before the last two assignments, a thrown
    [TypeError] included, leaves [state] as it was. *)
Definition dragEnd (index : nat) (lat0 lng0 : Q) (st : EditState) : EditState :=
  if negb (isPointInKosovo (kosovoBorderCoords geo) lat0 lng0) then st
  else if restricted (isPointInRestrictedArea getDistanceMeters geo lat0 lng0) then st
  else
    match checkTrajectoryValidity (st_waypoints st) index lat0 lng0 with
    | Returns None =>
        mkEditState
          (updateAt index
             (fun wp => mkWaypoint lat0 lng0 (wp_altitude wp) (wp_order wp) (wp_index wp))
             (st_waypoints st))
          (st_operationArea st) (st_flightType st) (st_currentTool st)
    | _ => st
    end.

(** [removeWaypoint(index)]; reading [wp.marker] of an absent waypoint
    throws. *)
Definition removeWaypoint (index : nat) (st : EditState) : EditState :=
  match nth_error (st_waypoints st) index with
  | Some _ =>
      mkEditState (renumber 0 (splice1 index (st_waypoints st)))
                  (st_operationArea st) (st_flightType st) (st_currentTool st)
  | None => st
  end.

(** [clearAll()]. *)
Definition clearAll (st : EditState) : EditState :=
  mkEditState [] None "waypoint" (st_currentTool st).

(** The click handler of a tool button with [data-tool = tool]. *)
Definition toolClick (tool : string) (st : EditState) : EditState :=
  if String.eqb tool "clear" then clearAll st
  else
    let same :=
      match st_currentTool st with
      | Some current => String.eqb current tool
      | None => false
      end in
    mkEditState (st_waypoints st) (st_operationArea st) (st_flightType st)
                (if same then None else Some tool).

(** The area that the [draw:created] handler accepts for a layer, [None]
    when it rejects the layer. *)
Definition acceptedArea (layer : Layer) : option ClientArea :=
  match layer with
  | CircleLayer c r =>
      let isValid :=
        if negb (isPointInKosovo (kosovoBorderCoords geo) (lat c) (lng c)) then false
        else forallb (fun p => isPointInKosovo (kosovoBorderCoords geo) (lat p) (lng p))
                     (perimeter c r) in
      if isValid then
        if restricted (doesAreaOverlapRestricted "circle" c r None) then None
        else Some (CircleArea c r)
      else None
  | RectangleLayer c b =>
      let isValid :=
        forallb (fun p => isPointInKosovo (kosovoBorderCoords geo) (lat p) (lng p))
                (corners b) in
      if isValid then
        if restricted (doesAreaOverlapRestricted "rectangle" c 0 (Some b)) then None
        else Some (RectangleArea c b)
      else None
  end.

(** The [draw:created] handler. *)
Definition drawCreated (layer : Layer) (st : EditState) : EditState :=
  match acceptedArea layer with
  | Some area0 => mkEditState [] (Some area0) "area" None
  | None =>
      mkEditState (st_waypoints st) (st_operationArea st) (st_flightType st) None
  end.

(** The [draw:drawstop] handler. *)
Definition drawStop (st : EditState) : EditState :=
  mkEditState (st_waypoints st) (st_operationArea st) (st_flightType st) None.

(** One turn of the [forEach] of [applyOptimizedRoute]. *)
Definition applyOne (st : EditState) (wp : RouteWaypoint) : EditState :=
  let st1 := addWaypoint (rw_lat wp) (rw_lng wp) st in
  let last_index := (List.length (st_waypoints st1) - 1)%nat in
  mkEditState
    (updateAt last_index
       (fun w => mkWaypoint (wp_lat w) (wp_lng w) (rw_altitude wp) (wp_order w) (wp_index w))
       (st_waypoints st1))
    (st_operationArea st1) (st_flightType st1) (st_currentTool st1).

(** [applyOptimizedRoute()] with [state.optimizedRoute = route]. *)
Definition applyOptimizedRoute (route : list RouteWaypoint) (st : EditState) : EditState :=
  match route with
  | [] => st
  | _ :: _ =>
      fold_left applyOne route
        (mkEditState [] (st_operationArea st) (st_flightType st) (st_currentTool st))
  end.

(** The effect of one event on the editing state.  A marker can be dragged
    only while its waypoint is in [state.waypoints]: [DragEnd marker] is the
    drag of the marker of the waypoint now at position [marker]. *)
Definition handle (st : EditState) (e : Event) : EditState :=
  match e with
  | MapClick lat0 lng0 => onMapClick lat0 lng0 st
  | DragEnd marker lat0 lng0 =>
      match nth_error (st_waypoints st) marker with
      | Some wp => dragEnd (wp_index wp) lat0 lng0 st
      | None => st
      end
  | RemoveClick index => removeWaypoint index st
  | ToolClick tool => toolClick tool st
  | DrawCreated layer => drawCreated layer st
  | DrawStop => drawStop st
  | ApplyOptimizedRoute route => applyOptimizedRoute route st
  end.

(** The two segment lists of [updateFlightPath]: valid segments and invalid
    ones, each as its two end points; nothing when there are fewer than two
    waypoints. *)
Fixpoint segmentsFrom (wp1 : Waypoint) (rest : list Waypoint)
  : list (LatLng * LatLng) * list (LatLng * LatLng) :=
  match rest with
  | [] => ([], [])
  | wp2 :: rest' =>
      let segment := (mkLatLng (wp_lat wp1) (wp_lng wp1), mkLatLng (wp_lat wp2) (wp_lng wp2)) in
      let '(validSegments, invalidSegments) := segmentsFrom wp2 rest' in
      if crosses (wp_lat wp1) (wp_lng wp1) (wp_lat wp2) (wp_lng wp2)
      then (validSegments, segment :: invalidSegments)
      else (segment :: validSegments, invalidSegments)
  end.

Definition updateFlightPath (waypoints : list Waypoint)
  : list (LatLng * LatLng) * list (LatLng * LatLng) :=
  match waypoints with
  | [] => ([], [])
  | wp1 :: rest => segmentsFrom wp1 rest
  end.

End ClientEditing.

(** The [data.data] of the answer to [apiCall('/zones')], as far as the page
    keeps it; an absent list is the empty one. *)
Record ZoneData : Type := mkZoneData {
  zd_border : list LatLng;
  zd_airports : list Airport;
  zd_restrictedZones : list Zone
}.

(** [loadZones()] from the arrival of the answer on: a border that is not
    empty replaces [state.kosovoBorderCoords], the airports and the zones are
    pushed onto [state.airports] and [state.restrictedZones]. *)
Definition loadZones (zoneData : ZoneData) (geo : PlannerState) : PlannerState :=
  mkPlannerState
    (airports geo ++ zd_airports zoneData)
    (restrictedZones geo ++ zd_restrictedZones zoneData)
    (match zd_border zoneData with
     | [] => kosovoBorderCoords geo
     | _ :: _ => Some (map (fun p => (lat p, lng p)) (zd_border zoneData))
     end).

(** [state.airports], [state.restrictedZones] and [state.kosovoBorderCoords]
    of a freshly loaded page: [initMap] calls [loadZones()] without awaiting
    it and registers the click handler right away. *)
Definition initialGeo : PlannerState := mkPlannerState [] [] None.

(** The page: the geodata that has arrived and the editing state. *)
Record Page : Type := mkPage {
  page_geo : PlannerState;
  page_state : EditState
}.

(** What can happen on the page: something the user, Leaflet or the optimiser
    panel does, or the arrival of the zone data. *)
Inductive PageEvent : Type :=
| User (e : Event)
| ZonesArrived (zoneData : ZoneData).

(** The effect of one event on the page: the handlers read the geodata that
    is there when they run. *)
Definition step (getDistanceMeters : Q -> Q -> Q -> Q -> Q) (cosEighth sinEighth : nat -> Q)
    (cosDeg : Q -> Q) (page : Page) (e : PageEvent) : Page :=
  match e with
  | User e' =>
      mkPage (page_geo page)
             (handle getDistanceMeters cosEighth sinEighth cosDeg (page_geo page)
                     (page_state page) e')
  | ZonesArrived zoneData => mkPage (loadZones zoneData (page_geo page)) (page_state page)
  end.

(** The page after a sequence of events, from the initial editing state and
    the geodata [geo0]; a freshly loaded page has [geo0 = initialGeo]. *)
Definition after (getDistanceMeters : Q -> Q -> Q -> Q -> Q) (cosEighth sinEighth : nat -> Q)
    (cosDeg : Q -> Q) (geo0 : PlannerState) (events : list PageEvent) : Page :=
  fold_left (step getDistanceMeters cosEighth sinEighth cosDeg) events
            (mkPage geo0 initialState).

(** Zone data whose border is the ring of [demoState] and whose airports
    and zones are those of [demoState]. *)
Definition demoZoneData : ZoneData :=
  mkZoneData
    [mkLatLng (4185 # 100) (1991 # 100); mkLatLng (4185 # 100) (2180 # 100);
     mkLatLng (4327 # 100) (2180 # 100); mkLatLng (4327 # 100) (1991 # 100)]
    [demoAirport] [demoNoFlyZone; demoCappedZone].

(** Zone data whose border is a square in the south-west, away from A. *)
Definition southWestZoneData : ZoneData :=
  mkZoneData
    [mkLatLng 42 20; mkLatLng 42 (205 # 10); mkLatLng (425 # 10) (205 # 10);
     mkLatLng (425 # 10) 20]
    [] [].

(** Every pair of consecutive waypoints satisfies [clear]. *)
Fixpoint consecutive (clear : Waypoint -> Waypoint -> Prop) (l : list Waypoint) : Prop :=
  match l with
  | [] => True
  | a :: rest =>
      match rest with
      | [] => True
      | b :: _ => clear a b /\ consecutive clear rest
      end
  end.

(** Events of the page other than applying an optimised route. *)
Definition isManual (e : Event) : bool :=
  match e with ApplyOptimizedRoute _ => false | _ => true end.

(** Events that neither remove a waypoint nor apply an optimised route. *)
Definition keepsMarkers (e : Event) : bool :=
  match e with ApplyOptimizedRoute _ | RemoveClick _ => false | _ => true end.

(** The straight line between two waypoints passes the border test of
    [doesTrajectoryCrossOutside]. *)
Definition clearBetween (geo : PlannerState) (a b : Waypoint) : Prop :=
  crosses geo (wp_lat a) (wp_lng a) (wp_lat b) (wp_lng b) = false.

(** The point passes [isPointInKosovo] and is not restricted. *)
Definition placeable (getDistanceMeters : Q -> Q -> Q -> Q -> Q) (geo : PlannerState)
    (lat0 lng0 : Q) : Prop :=
  isPointInKosovo (kosovoBorderCoords geo) lat0 lng0 = true
  /\ restricted (isPointInRestrictedArea getDistanceMeters geo lat0 lng0) = false.

(** The shape that editing keeps: [order] is the position in the array, the
    index captured by a marker is not below the position of its waypoint,
    waypoints and area exclude each other, and [flightType] tells which of the
    two there can be. *)
Definition wellFormed (st : EditState) : Prop :=
  map wp_order (st_waypoints st) = seq 0 (List.length (st_waypoints st))
  /\ (forall i wp, nth_error (st_waypoints st) i = Some wp -> (i <= wp_index wp)%nat)
  /\ (st_operationArea st <> None -> st_waypoints st = [])
  /\ (st_flightType st = "area"%string /\ st_operationArea st <> None
      \/ st_flightType st = "waypoint"%string /\ st_operationArea st = None).

(** ** Server: route optimisation *)

(** An element of [TERRAIN_DATA], of which the optimiser reads the position
    and the elevation. *)
Record Terrain : Type := mkTerrain {
  terrain_position : LatLng;
  elevation : Q
}.

(** [optimized.map((wp, idx) => ({ ...wp, order: idx }))], counting from
    [idx]. *)
Fixpoint reorder (idx : nat) (l : list RouteWaypoint) : list RouteWaypoint :=
  match l with
  | [] => []
  | wp :: rest =>
      mkRouteWaypoint (rw_lat wp) (rw_lng wp) (rw_altitude wp) idx :: reorder (S idx) rest
  end.

(** [{ ...wp, altitude }]. *)
Definition withAltitude (wp : RouteWaypoint) (altitude : Q) : RouteWaypoint :=
  mkRouteWaypoint (rw_lat wp) (rw_lng wp) altitude (rw_order wp).

(** The part of the answer of POST [/optimize-route] that depends on the
    route. *)
Record Optimization : Type := mkOptimization {
  optimizedRoute : list RouteWaypoint;
  method : string;
  distanceSaved : Z;
  originalDistance : Z;
  optimizedDistance : Z
}.

Section RouteOptimisation.

Variable calculateDistance : Q -> Q -> Q -> Q -> Q.
Variable TERRAIN_DATA : list Terrain.

(** The distance between two waypoints, as every loop below asks for it. *)
Definition legDistance (a b : RouteWaypoint) : Q :=
  calculateDistance (rw_lat a) (rw_lng a) (rw_lat b) (rw_lng b).

(** The inner loop of [optimizeShortestPath] from index [i] on, with the
    running [nearestIdx] and [nearestDist] ([None] is [Infinity]). *)
Fixpoint nearestLoop (current : RouteWaypoint) (remaining : list RouteWaypoint)
    (i nearestIdx : nat) (nearestDist : option Q) : nat :=
  match remaining with
  | [] => nearestIdx
  | wp :: rest =>
      let dist := legDistance current wp in
      if match nearestDist with
         | None => true
         | Some nearest => Qltb dist nearest
         end
      then nearestLoop current rest (S i) i (Some dist)
      else nearestLoop current rest (S i) nearestIdx nearestDist
  end.

(** The [while (remaining.length > 0)] loop; [first] is [waypoints[0]], with
    which [optimized] starts, and [fuel] bounds the number of turns. *)
Fixpoint visit (fuel : nat) (first : RouteWaypoint) (optimized remaining : list RouteWaypoint)
  : list RouteWaypoint :=
  match fuel with
  | O => optimized
  | S fuel' =>
      match remaining with
      | [] => optimized
      | r0 :: _ =>
          let current := last optimized first in
          let nearestIdx := nearestLoop current remaining 0 0 None in
          visit fuel' first (optimized ++ [nth nearestIdx remaining r0])
                (splice1 nearestIdx remaining)
      end
  end.

(** [optimizeShortestPath(waypoints)]; every turn of the loop takes one
    waypoint out of [remaining], so it makes [remaining.length] turns. *)
Definition optimizeShortestPath (waypoints : list RouteWaypoint) : list RouteWaypoint :=
  if (List.length waypoints <=? 2)%nat then waypoints
  else
    match waypoints with
    | [] => []
    | first :: rest => reorder 0 (visit (List.length rest) first [first] rest)
    end.

(** The [route] of [optimizeForWind(waypoints, drone)], for the wind speed
    that it drew. *)
Definition optimizeForWind (windSpeed : Q) (waypoints : list RouteWaypoint)
  : list RouteWaypoint :=
  map (fun wp =>
         if Qgtb windSpeed 20
         then withAltitude wp (Qmax 30 (rw_altitude wp - 20))
         else withAltitude wp (rw_altitude wp))
      waypoints.

(** The [route] of [optimizeForBattery(waypoints, drone)]. *)
Definition optimizeForBattery (waypoints : list RouteWaypoint) : list RouteWaypoint :=
  map (fun wp => withAltitude wp (Qmax 50 (rw_altitude wp - 15))) waypoints.

(** [optimizeAltitude(waypoints)]. *)
Definition optimizeAltitude (waypoints : list RouteWaypoint) : list RouteWaypoint :=
  map (fun wp =>
         if existsb
              (fun terrain =>
                 Qltb (calculateDistance (rw_lat wp) (rw_lng wp)
                         (lat (terrain_position terrain)) (lng (terrain_position terrain)))
                      5000
                 && Qgtb (elevation terrain) 1000)
              TERRAIN_DATA
         then withAltitude wp (Qmin 120 (rw_altitude wp + 20))
         else withAltitude wp (rw_altitude wp))
      waypoints.

(** The loop of [calculateTotalDistance] from [waypoints[i]] on, [prev] being
    [waypoints[i - 1]]. *)
Fixpoint totalFrom (prev : RouteWaypoint) (rest : list RouteWaypoint) (total : Q) : Q :=
  match rest with
  | [] => total
  | wp :: rest' => totalFrom wp rest' (total + legDistance prev wp)
  end.

Definition calculateTotalDistance (waypoints : list RouteWaypoint) : Q :=
  match waypoints with
  | [] => 0
  | wp0 :: rest => totalFrom wp0 rest 0
  end.

(** POST [/optimize-route] for the body [{waypoints, optimizationGoal}] and
    the wind speed drawn by [optimizeForWind]: [None] is the answer 400. *)
Definition optimizeRoute (optimizationGoal : string) (windSpeed : Q)
    (waypoints : list RouteWaypoint) : option Optimization :=
  if (List.length waypoints <? 2)%nat then None
  else
    let shortestPath := optimizeShortestPath waypoints in
    let windOptimized := optimizeForWind windSpeed waypoints in
    let batteryOptimized := optimizeForBattery waypoints in
    let original := calculateTotalDistance waypoints in
    let '(route, name) :=
      if String.eqb optimizationGoal "shortest" then (shortestPath, "Shortest Path"%string)
      else if String.eqb optimizationGoal "battery"
           then (batteryOptimized, "Battery Efficient"%string)
      else if String.eqb optimizationGoal "wind"
           then (windOptimized, "Wind Optimized"%string)
      else (shortestPath, "Balanced"%string) in
    let optimized := calculateTotalDistance route in
    Some (mkOptimization route name (round (original - optimized))
            (round original) (round optimized)).

End RouteOptimisation.

(** The coordinates and altitude of a route waypoint, without its [order]. *)
Definition placeOf (wp : RouteWaypoint) : Q * Q * Q :=
  (rw_lat wp, rw_lng wp, rw_altitude wp).

(** A route in which every waypoint is, among those that come after the one
    before it, the nearest to that one. *)
Fixpoint greedyFrom (calculateDistance : Q -> Q -> Q -> Q -> Q) (current : RouteWaypoint)
    (route : list RouteWaypoint) : Prop :=
  match route with
  | [] => True
  | next :: rest =>
      (forall other, In other route ->
         legDistance calculateDistance current next
         <= legDistance calculateDistance current other)
      /\ greedyFrom calculateDistance next rest
  end.

(** ** Server: path validation (POST [/validate-path]) *)

Inductive IssueType : Type :=
| border_violation
| zone_violation
| path_crosses_border
| path_crosses_restricted.

(** An element of [validation.issues]; [issue_index] is its [waypointIndex]
    or [segmentIndex], and a zone issue takes its severity from the
    violation. *)
Record Issue : Type := mkIssue {
  issue_type : IssueType;
  issue_index : nat;
  issue_severity : Severity
}.

(** An element of [validation.segments]. *)
Record SegmentReport : Type := mkSegmentReport {
  seg_from : nat;
  seg_to : nat;
  seg_distance : Z;
  seg_valid : bool
}.

(** The [data] of the answer. *)
Record PathValidation : Type := mkPathValidation {
  pv_isValid : bool;
  pv_issues : list Issue;
  pv_segments : list SegmentReport;
  pv_totalDistance : Z;
  pv_waypointCount : nat
}.

(** [validation.issues] and [validation.isValid] while the handler runs. *)
Definition PState : Type := (list Issue * bool)%type.

Section PathValidation.

Variable calculateDistance : Q -> Q -> Q -> Q -> Q.
Variable isWithinKosovo : Q -> Q -> bool.
Variable checkRestrictedZone : Q -> Q -> Q -> list Violation.

(** The body of the first loop for waypoint [i]. *)
Definition checkWaypoint (maxAltitude : option Q) (i : nat) (wp : LatLng) (st : PState)
  : PState :=
  let st1 :=
    if negb (isWithinKosovo (lat wp) (lng wp))
    then (fst st ++ [mkIssue border_violation i error], false)
    else st in
  fold_left
    (fun acc v =>
       (fst acc ++ [mkIssue zone_violation i (violation_severity v)],
        if isError (violation_severity v) then false else snd acc))
    (checkRestrictedZone (lat wp) (lng wp) (orDefault maxAltitude 120))
    st1.

(** The first loop, from waypoint [i] on. *)
Fixpoint checkWaypoints (maxAltitude : option Q) (i : nat) (wps : list LatLng) (st : PState)
  : PState :=
  match wps with
  | [] => st
  | wp :: rest => checkWaypoints maxAltitude (S i) rest (checkWaypoint maxAltitude i wp st)
  end.

(** Sample [j] of [numSamples] on the segment from [wp1] to [wp2]. *)
Definition samplePoint (wp1 wp2 : LatLng) (numSamples : Z) (j : nat) : LatLng :=
  let t := inject_Z (Z.of_nat j) / inject_Z numSamples in
  mkLatLng (lat wp1 + t * (lat wp2 - lat wp1)) (lng wp1 + t * (lng wp2 - lng wp1)).

(** The loop [for (let j = 1; j < numSamples; j++)] of segment [i] over the
    values of [j] still to visit, with the running [segmentValid]. *)
Fixpoint sampleLoop (maxAltitude : option Q) (i : nat) (wp1 wp2 : LatLng) (numSamples : Z)
    (js : list nat) (segmentValid : bool) (st : PState) : bool * PState :=
  match js with
  | [] => (segmentValid, st)
  | j :: rest =>
      let p := samplePoint wp1 wp2 numSamples j in
      if negb (isWithinKosovo (lat p) (lng p))
      then (false, (fst st ++ [mkIssue path_crosses_border i error], false))
      else
        let '(segmentValid', st') :=
          fold_left
            (fun acc v =>
               if isError (violation_severity v)
               then (false,
                     (fst (snd acc) ++ [mkIssue path_crosses_restricted i error], false))
               else acc)
            (checkRestrictedZone (lat p) (lng p) (orDefault maxAltitude 120))
            (segmentValid, st) in
        sampleLoop maxAltitude i wp1 wp2 numSamples rest segmentValid' st'
  end.

(** [Math.ceil(distance / 500)] for a segment. *)
Definition samplesOn (wp1 wp2 : LatLng) : Z :=
  Qceiling (calculateDistance (lat wp1) (lng wp1) (lat wp2) (lng wp2) / 500).

(** The values of [j] that the sample loop visits. *)
Definition sampleSteps (numSamples : Z) : list nat := seq 1 (Z.to_nat numSamples - 1).

(** The second loop, from segment [i] on, [wp1] being [waypoints[i]]. *)
Fixpoint checkSegments (maxAltitude : option Q) (i : nat) (wp1 : LatLng) (rest : list LatLng)
    (st : PState) (segments : list SegmentReport) : PState * list SegmentReport :=
  match rest with
  | [] => (st, segments)
  | wp2 :: rest' =>
      let distance := calculateDistance (lat wp1) (lng wp1) (lat wp2) (lng wp2) in
      let numSamples := samplesOn wp1 wp2 in
      let '(segmentValid, st') :=
        sampleLoop maxAltitude i wp1 wp2 numSamples (sampleSteps numSamples) true st in
      checkSegments maxAltitude (S i) wp2 rest' st'
        (segments ++ [mkSegmentReport i (S i) (round distance) segmentValid])
  end.

(** The handler of POST [/validate-path] for the body [{waypoints,
    maxAltitude}]: [None] is the answer 400. *)
Definition validatePath (waypoints : option (list LatLng)) (maxAltitude : option Q)
  : option PathValidation :=
  match waypoints with
  | None => None
  | Some wps =>
      if (List.length wps <? 2)%nat then None
      else
        let st := checkWaypoints maxAltitude 0 wps ([], true) in
        let '(st', segments) :=
          match wps with
          | [] => (st, [])
          | wp0 :: rest => checkSegments maxAltitude 0 wp0 rest st []
          end in
        Some (mkPathValidation (snd st') (fst st') segments
                (fold_left (fun sum seg => (sum + seg_distance seg)%Z) segments 0%Z)
                (List.length wps))
  end.

(** A point that the validation accepts: inside the border and without a
    zone violation of severity error at the requested altitude. *)
Definition pointPasses (maxAltitude : option Q) (p : LatLng) : bool :=
  isWithinKosovo (lat p) (lng p)
  && negb (existsb (fun v => isError (violation_severity v))
                   (checkRestrictedZone (lat p) (lng p) (orDefault maxAltitude 120))).

(** Every interior sample of the segment passes. *)
Definition segmentPasses (maxAltitude : option Q) (wp1 wp2 : LatLng) : bool :=
  forallb (fun j => pointPasses maxAltitude (samplePoint wp1 wp2 (samplesOn wp1 wp2) j))
          (sampleSteps (samplesOn wp1 wp2)).

(** Every segment between consecutive waypoints passes. *)
Fixpoint segmentsPass (maxAltitude : option Q) (wp1 : LatLng) (rest : list LatLng) : bool :=
  match rest with
  | [] => true
  | wp2 :: rest' => segmentPasses maxAltitude wp1 wp2 && segmentsPass maxAltitude wp2 rest'
  end.

End PathValidation.

(** An issue of severity error. *)
Definition isErrorIssue (issue : Issue) : bool := isError (issue_severity issue).

(** [isValid] is false exactly when an issue of severity error is recorded. *)
Definition coherent (st : PState) : Prop := snd st = negb (existsb isErrorIssue (fst st)).

(** * Properties *)

(** ** Comparisons *)

Lemma Qltb_lt (a b : Q) : Qltb a b = true <-> a < b.
Proof.
  unfold Qltb. rewrite negb_true_iff. split.
  - intros H. apply Qnot_le_lt. intros Hle.
    apply Qle_bool_iff in Hle. congruence.
  - intros H. destruct (Qle_bool b a) eqn:E; [|reflexivity].
    apply Qle_bool_iff in E. exfalso. apply (Qlt_not_le _ _ H E).
Qed.

Lemma Qltb_ge (a b : Q) : Qltb a b = false <-> b <= a.
Proof.
  unfold Qltb. rewrite negb_false_iff. apply Qle_bool_iff.
Qed.

(** ** Ray casting *)

Lemma rayLoop_flag (lat0 lng0 : Q) (l : list (Q * Q)) :
  forall cj inside,
    rayLoop lat0 lng0 cj l inside = xorb inside (rayLoop lat0 lng0 cj l false).
Proof.
  induction l as [|ci l IH]; intros cj inside; simpl.
  - now rewrite xorb_false_r.
  - destruct (crossesEdge lat0 lng0 ci cj).
    + rewrite (IH ci (negb inside)), (IH ci true).
      destruct inside, (rayLoop lat0 lng0 ci l false); reflexivity.
    + apply IH.
Qed.

Lemma last_cons_default {A : Type} (l : list A) :
  forall x d : A, last (x :: l) d = last l x.
Proof.
  induction l as [|y l IH]; intros x d.
  - reflexivity.
  - change (last (x :: y :: l) d) with (last (y :: l) d).
    change (last (y :: l) x) with (last (y :: l) x).
    rewrite (IH y d), (IH y x). reflexivity.
Qed.

Lemma rayLoop_app (lat0 lng0 : Q) (l1 l2 : list (Q * Q)) :
  forall cj inside,
    rayLoop lat0 lng0 cj (l1 ++ l2) inside
    = rayLoop lat0 lng0 (last l1 cj) l2 (rayLoop lat0 lng0 cj l1 inside).
Proof.
  induction l1 as [|c l1 IH]; intros cj inside.
  - reflexivity.
  - change ((c :: l1) ++ l2) with (c :: (l1 ++ l2)).
    cbn [rayLoop]. rewrite IH, last_cons_default. reflexivity.
Qed.

(** Moving the first vertex of a ring to its end keeps the membership. *)
Lemma isPointInKosovo_shift (lat0 lng0 : Q) (c : Q * Q) (cs : list (Q * Q)) :
  isPointInKosovo (Some (cs ++ [c])) lat0 lng0 = isPointInKosovo (Some (c :: cs)) lat0 lng0.
Proof.
  assert (Hshape : forall (l : list (Q * Q)) (x : Q * Q), exists y l', l ++ [x] = y :: l'
                    /\ last l' y = x).
  { intros l x. destruct l as [|y l'].
    - exists x, []. split; reflexivity.
    - exists y, (l' ++ [x]). split; [reflexivity|].
      rewrite last_last. reflexivity. }
  destruct (Hshape cs c) as (y & l' & Heq & Hlast).
  rewrite Heq. cbn [isPointInKosovo]. rewrite Hlast, <- Heq.
  rewrite rayLoop_app. cbn [rayLoop].
  destruct (crossesEdge lat0 lng0 c (last cs c)); [|reflexivity].
  rewrite (rayLoop_flag lat0 lng0 cs c (negb false)).
  destruct (rayLoop lat0 lng0 c cs false); reflexivity.
Qed.

Lemma isPointInKosovo_swap (lat0 lng0 : Q) (l1 : list (Q * Q)) :
  forall l2,
    isPointInKosovo (Some (l2 ++ l1)) lat0 lng0 = isPointInKosovo (Some (l1 ++ l2)) lat0 lng0.
Proof.
  induction l1 as [|c l1 IH]; intros l2.
  - now rewrite app_nil_r.
  - replace (l2 ++ c :: l1) with ((l2 ++ [c]) ++ l1)
      by (rewrite <- app_assoc; reflexivity).
    rewrite IH, app_assoc, isPointInKosovo_shift. reflexivity.
Qed.

Lemma crossesEdge_degenerate (lat0 lng0 : Q) (c : Q * Q) :
  crossesEdge lat0 lng0 c c = false.
Proof.
  unfold crossesEdge. cbn zeta. now rewrite Bool.eqb_reflx.
Qed.

(** Repeating the first vertex at the end of the ring adds one edge of
    length zero, which the ray never crosses. *)
Lemma isPointInKosovo_closeRing (lat0 lng0 : Q) (coords : list (Q * Q)) :
  isPointInKosovo (Some (closeRing coords)) lat0 lng0
  = isPointInKosovo (Some coords) lat0 lng0.
Proof.
  destruct coords as [|v vs]; [reflexivity|].
  cbn [closeRing app isPointInKosovo]. rewrite last_last.
  cbn [rayLoop]. rewrite crossesEdge_degenerate, rayLoop_app. cbn [rayLoop].
  destruct (crossesEdge lat0 lng0 v (last vs v)); [|reflexivity].
  rewrite (rayLoop_flag lat0 lng0 vs v (negb false)).
  destruct (rayLoop lat0 lng0 v vs false); reflexivity.
Qed.

(** C9. The ray-casting test gives the same answer, at every point, on a ring
    and on the ring rotated to start from any of its vertices, whether the
    ring is written open or with its first vertex repeated at the end; on the
    triangle (0,0), (0,10), (10,0) it answers true at (1,1) and false at
    (20,20). *)
Theorem isPointInKosovo_rotation_invariant :
  (forall (coords : list (Q * Q)) (k : nat) (lat0 lng0 : Q),
      isPointInKosovo (Some (rotate k coords)) lat0 lng0
      = isPointInKosovo (Some coords) lat0 lng0)
  /\ (forall (coords : list (Q * Q)) (k : nat) (lat0 lng0 : Q),
      isPointInKosovo (Some (closeRing (rotate k coords))) lat0 lng0
      = isPointInKosovo (Some (closeRing coords)) lat0 lng0)
  /\ isPointInKosovo (Some triangle) 1 1 = true
  /\ isPointInKosovo (Some triangle) 20 20 = false.
Proof.
  assert (Hopen : forall (coords : list (Q * Q)) (k : nat) (lat0 lng0 : Q),
             isPointInKosovo (Some (rotate k coords)) lat0 lng0
             = isPointInKosovo (Some coords) lat0 lng0).
  { intros coords k lat0 lng0. unfold rotate.
    rewrite isPointInKosovo_swap, firstn_skipn. reflexivity. }
  split; [exact Hopen|split; [|split; reflexivity]].
  intros coords k lat0 lng0.
  rewrite !isPointInKosovo_closeRing. apply Hopen.
Qed.

(** ** Trajectory sampling against the border *)

Section Trajectory.

Variable coords : option (list (Q * Q)).
Variables lat1 lng1 lat2 lng2 : Q.

Abbreviation sample := (trajectorySample 20 lat1 lng1 lat2 lng2).
Abbreviation insideAt := (sampleInside coords lat1 lng1 lat2 lng2).

Lemma crossLoop_all_inside (steps : list nat) :
  (forall i, In i steps -> insideAt i = true) ->
  crossLoop coords 20 lat1 lng1 lat2 lng2 steps = None.
Proof.
  induction steps as [|i steps IH]; intros Hall.
  - reflexivity.
  - cbn [crossLoop].
    assert (Hi : insideAt i = true) by (apply Hall; now left).
    unfold sampleInside in Hi. rewrite Hi. cbn [negb].
    apply IH. intros j Hj. apply Hall. now right.
Qed.

Lemma crossLoop_first_outside (n : nat) :
  forall a i,
    (a <= i < a + n)%nat -> insideAt i = false ->
    exists k,
      (a <= k <= i)%nat /\ insideAt k = false
      /\ (forall j, (a <= j < k)%nat -> insideAt j = true)
      /\ crossLoop coords 20 lat1 lng1 lat2 lng2 (seq a n) = Some (sample k).
Proof.
  induction n as [|n IH]; intros a i Hrange Hout.
  - lia.
  - cbn [seq crossLoop].
    destruct (insideAt a) eqn:Ha.
    + assert (Hne : a <> i) by (intros ->; congruence).
      destruct (IH (S a) i) as (k & Hk & Hko & Hbefore & Hres); [lia|assumption|].
      exists k. repeat split; try lia; try assumption.
      * intros j Hj. destruct (Nat.eq_dec j a) as [->|Hja]; [assumption|].
        apply Hbefore. lia.
      * unfold sampleInside in Ha. rewrite Ha. cbn [negb]. exact Hres.
    + exists a. repeat split; try lia; try assumption.
      unfold sampleInside in Ha. rewrite Ha. reflexivity.
Qed.

(** The point at the fraction [i/20] of the straight segment from
    [(lat1, lng1)] to [(lat2, lng2)]. *)
Abbreviation fraction i := (inject_Z (Z.of_nat i) / 20).
Abbreviation latAt i := (lat1 + fraction i * (lat2 - lat1)).
Abbreviation lngAt i := (lng1 + fraction i * (lng2 - lng1)).

Lemma sampleInside_fraction (i : nat) :
  insideAt i = isPointInKosovo coords (latAt i) (lngAt i).
Proof. reflexivity. Qed.

Lemma trajectorySample_fraction (i : nat) :
  sample i = mkCrossing (latAt i) (lngAt i) (fraction i).
Proof. reflexivity. Qed.

(** C7. [doesTrajectoryCrossOutside] answers [null] when the 19 points at
    the fractions i/20, i = 1..19, of the straight segment are all inside the
    border (the two endpoints are not examined); when some of these points
    is outside, it answers the first of them for which the border test is
    false, as [{lat, lng, t}] with [t] its fraction. *)
Theorem doesTrajectoryCrossOutside_first_sample :
  ((forall i, (1 <= i <= 19)%nat -> isPointInKosovo coords (latAt i) (lngAt i) = true) ->
   doesTrajectoryCrossOutside coords lat1 lng1 lat2 lng2 = None)
  /\ (forall i, (1 <= i <= 19)%nat ->
      isPointInKosovo coords (latAt i) (lngAt i) = false ->
      exists k,
        (1 <= k <= i)%nat
        /\ isPointInKosovo coords (latAt k) (lngAt k) = false
        /\ (forall j, (1 <= j < k)%nat ->
            isPointInKosovo coords (latAt j) (lngAt j) = true)
        /\ doesTrajectoryCrossOutside coords lat1 lng1 lat2 lng2
           = Some (mkCrossing (latAt k) (lngAt k) (fraction k))).
Proof.
  split.
  - intros Hall. unfold doesTrajectoryCrossOutside.
    apply crossLoop_all_inside. intros i Hi. apply in_seq in Hi.
    rewrite sampleInside_fraction. apply Hall. simpl in Hi. lia.
  - intros i Hi Hout. unfold doesTrajectoryCrossOutside.
    rewrite <- sampleInside_fraction in Hout.
    destruct (crossLoop_first_outside 19 1 i) as (k & Hk & Hko & Hbefore & Hres);
      [simpl; lia|assumption|].
    exists k. split; [assumption|]. split; [exact Hko|]. split.
    + intros j Hj. exact (Hbefore j Hj).
    + rewrite <- trajectorySample_fraction. exact Hres.
Qed.

End Trajectory.

(** ** Classification against restricted airspace *)

Section Classification.

Variable getDistanceMeters : Q -> Q -> Q -> Q -> Q.
Variable state : PlannerState.
Variables lat0 lng0 : Q.

Abbreviation inAirport := (inAirport getDistanceMeters lat0 lng0).
Abbreviation inZone := (inZone getDistanceMeters lat0 lng0).

Lemma checkAirports_first (pre : list Airport) (a : Airport) (post : list Airport) :
  (forall a', In a' pre -> ~ inAirport a') -> inAirport a ->
  checkAirports getDistanceMeters (pre ++ a :: post) lat0 lng0
  = Some (Restricted "airport" (airport_name a)).
Proof.
  induction pre as [|b pre IH]; intros Hpre Ha; cbn [app checkAirports].
  - apply Qle_bool_iff in Ha. now rewrite Ha.
  - destruct (Qle_bool _ (restrictedRadius b)) eqn:E.
    + apply Qle_bool_iff in E. exfalso. apply (Hpre b); [now left|exact E].
    + apply IH; [|assumption]. intros a' Ha'. apply Hpre. now right.
Qed.

Lemma checkAirports_none (l : list Airport) :
  (forall a, In a l -> ~ inAirport a) ->
  checkAirports getDistanceMeters l lat0 lng0 = None.
Proof.
  induction l as [|b l IH]; intros Hl; cbn [checkAirports].
  - reflexivity.
  - destruct (Qle_bool _ (restrictedRadius b)) eqn:E.
    + apply Qle_bool_iff in E. exfalso. apply (Hl b); [now left|exact E].
    + apply IH. intros a Ha. apply Hl. now right.
Qed.

Lemma checkZones_first (pre : list Zone) (z : Zone) (post : list Zone) :
  (forall z', In z' pre -> ~ inZone z') -> inZone z ->
  checkZones getDistanceMeters (pre ++ z :: post) lat0 lng0
  = Some (if Qeq_bool (zone_maxAltitude z) 0
          then Restricted (zone_type z) (zone_name z)
          else Warning (zone_type z) (zone_name z) (zone_maxAltitude z)).
Proof.
  induction pre as [|b pre IH]; intros Hpre Hz; cbn [app checkZones].
  - apply Qle_bool_iff in Hz. rewrite Hz.
    now destruct (Qeq_bool (zone_maxAltitude z) 0).
  - destruct (Qle_bool _ (zone_radius b)) eqn:E.
    + apply Qle_bool_iff in E. exfalso. apply (Hpre b); [now left|exact E].
    + apply IH; [|assumption]. intros z' Hz'. apply Hpre. now right.
Qed.

Lemma checkZones_none (l : list Zone) :
  (forall z, In z l -> ~ inZone z) ->
  checkZones getDistanceMeters l lat0 lng0 = None.
Proof.
  induction l as [|b l IH]; intros Hl; cbn [checkZones].
  - reflexivity.
  - destruct (Qle_bool _ (zone_radius b)) eqn:E.
    + apply Qle_bool_iff in E. exfalso. apply (Hl b); [now left|exact E].
    + apply IH. intros z Hz. apply Hl. now right.
Qed.

(** C6. Airports are examined first, in list order: the first airport with
    distance <= restrictedRadius gives the restricted (no-fly) answer.  With
    no such airport, zones are examined in list order and the first zone
    with distance <= radius decides: restricted when its maxAltitude is 0,
    a warning carrying the zone's maxAltitude when it is positive.  A point
    within no airport and no zone is unrestricted. *)
Theorem isPointInRestrictedArea_first_match :
  (forall pre a post,
      airports state = pre ++ a :: post ->
      (forall a', In a' pre -> ~ inAirport a') -> inAirport a ->
      isPointInRestrictedArea getDistanceMeters state lat0 lng0
      = Restricted "airport" (airport_name a))
  /\ (forall pre z post,
      (forall a, In a (airports state) -> ~ inAirport a) ->
      restrictedZones state = pre ++ z :: post ->
      (forall z', In z' pre -> ~ inZone z') -> inZone z ->
      (zone_maxAltitude z == 0 ->
       isPointInRestrictedArea getDistanceMeters state lat0 lng0
       = Restricted (zone_type z) (zone_name z))
      /\ (0 < zone_maxAltitude z ->
          isPointInRestrictedArea getDistanceMeters state lat0 lng0
          = Warning (zone_type z) (zone_name z) (zone_maxAltitude z)))
  /\ ((forall a, In a (airports state) -> ~ inAirport a) ->
      (forall z, In z (restrictedZones state) -> ~ inZone z) ->
      isPointInRestrictedArea getDistanceMeters state lat0 lng0 = Unrestricted).
Proof.
  unfold isPointInRestrictedArea. split; [|split].
  - intros pre a post Heq Hpre Ha.
    rewrite Heq, (checkAirports_first pre a post Hpre Ha). reflexivity.
  - intros pre z post Hair Heq Hpre Hz.
    rewrite (checkAirports_none _ Hair), Heq, (checkZones_first pre z post Hpre Hz).
    split.
    + intros Hzero. apply Qeq_bool_iff in Hzero. now rewrite Hzero.
    + intros Hpos.
      destruct (Qeq_bool (zone_maxAltitude z) 0) eqn:E; [|reflexivity].
      apply Qeq_bool_iff in E. rewrite E in Hpos. exfalso.
      apply (Qlt_irrefl 0 Hpos).
  - intros Ha Hz.
    rewrite (checkAirports_none _ Ha), (checkZones_none _ Hz). reflexivity.
Qed.

End Classification.


Lemma doesTrajectoryCrossOutside_first_sample_witness :
  doesTrajectoryCrossOutside (Some demoRing) 42 (41 # 2) 43 (43 # 2) = None
  /\ exists k,
       (1 <= k <= 12)%nat
       /\ isPointInKosovo (Some demoRing)
            (42 + inject_Z (Z.of_nat k) / 20 * (45 - 42))
            ((41 # 2) + inject_Z (Z.of_nat k) / 20 * ((41 # 2) - (41 # 2))) = false
       /\ (forall j, (1 <= j < k)%nat ->
           isPointInKosovo (Some demoRing)
             (42 + inject_Z (Z.of_nat j) / 20 * (45 - 42))
             ((41 # 2) + inject_Z (Z.of_nat j) / 20 * ((41 # 2) - (41 # 2))) = true)
       /\ doesTrajectoryCrossOutside (Some demoRing) 42 (41 # 2) 45 (41 # 2)
          = Some (mkCrossing
                    (42 + inject_Z (Z.of_nat k) / 20 * (45 - 42))
                    ((41 # 2) + inject_Z (Z.of_nat k) / 20 * ((41 # 2) - (41 # 2)))
                    (inject_Z (Z.of_nat k) / 20)).
Proof.
  split.
  - apply (proj1 (doesTrajectoryCrossOutside_first_sample
                    (Some demoRing) 42 (41 # 2) 43 (43 # 2))).
    intros i Hi.
    destruct i as [|i]; [exfalso; lia|].
    do 19 (destruct i as [|i]; [vm_compute; reflexivity|]).
    exfalso; lia.
  - apply (proj2 (doesTrajectoryCrossOutside_first_sample
                    (Some demoRing) 42 (41 # 2) 45 (41 # 2)) 12%nat).
    + lia.
    + vm_compute; reflexivity.
Defined.

Lemma isPointInRestrictedArea_first_match_witness :
  isPointInRestrictedArea meridianDistance demoState (425728 # 10000) (210358 # 10000)
  = Restricted "airport" "Prishtina International Airport"
  /\ isPointInRestrictedArea meridianDistance demoState (4236 # 100) (2125 # 100)
     = Restricted "military" "Camp Bondsteel"
  /\ isPointInRestrictedArea meridianDistance demoState (426629 # 10000) (211655 # 10000)
     = Warning "urban" "Prishtina City Center" 60
  /\ isPointInRestrictedArea meridianDistance demoState 42 20 = Unrestricted.
Proof.
  assert (Hno : forall (P : Prop), false = true -> P) by (intros P H; discriminate H).
  split; [|split; [|split]].
  - apply (proj1 (isPointInRestrictedArea_first_match meridianDistance demoState
                    (425728 # 10000) (210358 # 10000)) [] demoAirport []).
    + reflexivity.
    + intros a' [].
    + apply Qle_bool_iff. vm_compute; reflexivity.
  - apply (proj1 (proj2 (isPointInRestrictedArea_first_match meridianDistance demoState
                    (4236 # 100) (2125 # 100))) [] demoNoFlyZone [demoCappedZone]).
    + intros a [<-|[]] H. apply Qle_bool_iff in H. apply Hno. exact H.
    + reflexivity.
    + intros z' [].
    + apply Qle_bool_iff. vm_compute; reflexivity.
    + reflexivity.
  - apply (proj1 (proj2 (isPointInRestrictedArea_first_match meridianDistance demoState
                    (426629 # 10000) (211655 # 10000))) [demoNoFlyZone] demoCappedZone []).
    + intros a [<-|[]] H. apply Qle_bool_iff in H. apply Hno. exact H.
    + reflexivity.
    + intros z' [<-|[]] H. apply Qle_bool_iff in H. apply Hno. exact H.
    + apply Qle_bool_iff. vm_compute; reflexivity.
    + reflexivity.
  - apply (proj2 (proj2 (isPointInRestrictedArea_first_match meridianDistance demoState
                    42 20))).
    + intros a [<-|[]] H. apply Qle_bool_iff in H. apply Hno. exact H.
    + intros z [<-|[<-|[]]] H; apply Qle_bool_iff in H; apply Hno; exact H.
Defined.

(** ** Path sampling *)

Section PathSampling.

Variable calculateDistance : Q -> Q -> Q -> Q -> Q.

Abbreviation segment := (segmentSamples calculateDistance).
Abbreviation samplesOf := (generatePathSamples calculateDistance).

Lemma sampleFrom_app (sd : Q) (l1 l2 : list LatLng) :
  forall w,
    sampleFrom calculateDistance w (l1 ++ l2) sd
    = sampleFrom calculateDistance w l1 sd
      ++ sampleFrom calculateDistance (last l1 w) l2 sd.
Proof.
  induction l1 as [|p l1 IH]; intros w.
  - reflexivity.
  - change ((p :: l1) ++ l2) with (p :: (l1 ++ l2)).
    cbn [sampleFrom]. rewrite IH, last_cons_default, <- app_assoc. reflexivity.
Qed.

Lemma generatePathSamples_snoc (sd : Q) (pre : list LatLng) (p : LatLng) :
  exists before, samplesOf (pre ++ [p]) sd = before ++ [p].
Proof.
  destruct pre as [|w pre].
  - exists []. reflexivity.
  - cbn [app generatePathSamples]. rewrite sampleFrom_app. cbn [sampleFrom].
    exists (w :: sampleFrom calculateDistance w pre sd
              ++ segment (last pre w) p sd).
    cbn [app]. rewrite app_assoc. reflexivity.
Qed.

(** C5, as the code has it.  Along a path, the samples of two consecutive
    waypoints p1, p2 are p1, then the interior points of the segment, then p2;
    the interior points number floor(segmentLength / spacing) (not the
    ceiling), and the j-th of them is the linear interpolation of latitude and
    longitude at the fraction j / (floor(segmentLength / spacing) + 1). *)
Theorem generatePathSamples_segment (pre : list LatLng) (p1 p2 : LatLng)
    (post : list LatLng) (sd : Q) :
  let n := Qfloor (calculateDistance (lat p1) (lng p1) (lat p2) (lng p2) / sd) in
  samplesOf (pre ++ p1 :: p2 :: post) sd
  = samplesOf (pre ++ [p1]) sd ++ segment p1 p2 sd ++ samplesOf (p2 :: post) sd
  /\ last (samplesOf (pre ++ [p1]) sd) p2 = p1
  /\ hd p1 (samplesOf (p2 :: post) sd) = p2
  /\ List.length (segment p1 p2 sd) = Z.to_nat n
  /\ (forall j, (1 <= j <= Z.to_nat n)%nat ->
      nth (j - 1) (segment p1 p2 sd) p1
      = let t := inject_Z (Z.of_nat j) / inject_Z (n + 1) in
        mkLatLng (lat p1 + t * (lat p2 - lat p1)) (lng p1 + t * (lng p2 - lng p1))).
Proof.
  intros n. split; [|split; [|split; [|split]]].
  - destruct pre as [|w pre].
    + reflexivity.
    + cbn [app generatePathSamples].
      replace (pre ++ p1 :: p2 :: post) with ((pre ++ [p1]) ++ p2 :: post)
        by (rewrite <- app_assoc; reflexivity).
      rewrite sampleFrom_app, last_last. reflexivity.
  - destruct (generatePathSamples_snoc sd pre p1) as [before ->].
    apply last_last.
  - reflexivity.
  - unfold segmentSamples, getDistance. rewrite length_map, length_seq. reflexivity.
  - intros j Hj. unfold segmentSamples, getDistance. fold n.
    set (f := fun j0 : nat => _).
    rewrite (nth_indep _ p1 (f 0%nat)) by (rewrite length_map, length_seq; lia).
    rewrite map_nth, seq_nth by lia.
    replace (1 + (j - 1))%nat with j by lia. reflexivity.
Qed.

End PathSampling.

Lemma generatePathSamples_segment_witness :
  List.length (segmentSamples meridianDistance waypointA waypointNorth 50) = 2%nat
  /\ nth 0 (segmentSamples meridianDistance waypointA waypointNorth 50) waypointA
     = mkLatLng ((4260 # 100) + (1 / inject_Z 3) * ((42601 # 1000) - (4260 # 100)))
                ((2090 # 100) + (1 / inject_Z 3) * ((2090 # 100) - (2090 # 100))).
Proof.
  destruct (generatePathSamples_segment meridianDistance [] waypointA waypointNorth [] 50)
    as (_ & _ & _ & Hlen & Hnth).
  split.
  - exact Hlen.
  - exact (Hnth 1%nat (conj (le_n 1) (le_S 1 1 (le_n 1)))).
Defined.

(** C5, as the claim has it, fails: two waypoints about 111 m apart give
    floor(111.195 / 50) = 2 interior points, so 4 samples, where the ceiling
    would give 3 interior points. *)
Lemma generatePathSamples_not_ceiling :
  let segmentLength :=
    meridianDistance (lat waypointA) (lng waypointA) (lat waypointNorth) (lng waypointNorth) in
  Qceiling (segmentLength / 50) = 3%Z
  /\ List.length (generatePathSamples meridianDistance [waypointA; waypointNorth] 50)
     <> (2 + Z.to_nat (Qceiling (segmentLength / 50)))%nat.
Proof.
  split.
  - vm_compute; reflexivity.
  - vm_compute. intros H. discriminate H.
Qed.

(** ** Vertical separation *)

Lemma orDefault_nonzero (m d : Q) : ~ m == 0 -> orDefault (Some m) d = m.
Proof.
  intros Hm. unfold orDefault.
  destruct (Qeq_bool m 0) eqn:E; [|reflexivity].
  apply Qeq_bool_iff in E. contradiction.
Qed.

(** C10, as the code has it.  An absent maxAltitude counts as 100 m in the
    vertical test: two flights that both omit it overlap vertically, and a
    flight that omits it does not overlap with a flight whose maxAltitude is
    not 0 and differs from 100 by 30 m or more.  (A maxAltitude of 0 is
    itself replaced by 100.) *)
Theorem altitudeOverlap_default :
  altitudeOverlap None None = true
  /\ (forall x, altitudeOverlap None x = altitudeOverlap (Some 100) x
               /\ altitudeOverlap x None = altitudeOverlap x (Some 100))
  /\ (forall x, altitudeOverlap (Some 0) x = altitudeOverlap (Some 100) x
               /\ altitudeOverlap x (Some 0) = altitudeOverlap x (Some 100))
  /\ (forall m, ~ m == 0 -> 30 <= Qabs (m - 100) ->
      altitudeOverlap None (Some m) = false /\ altitudeOverlap (Some m) None = false).
Proof.
  split; [reflexivity|split; [|split]].
  - intros x. split; reflexivity.
  - intros x. split; reflexivity.
  - intros m Hm Hfar. unfold altitudeOverlap.
    rewrite (orDefault_nonzero m 100 Hm). cbn [orDefault].
    split; apply Qltb_ge.
    + rewrite Qabs_Qminus. exact Hfar.
    + exact Hfar.
Qed.

Lemma altitudeOverlap_default_witness :
  altitudeOverlap None (Some 140) = false /\ altitudeOverlap (Some 140) None = false.
Proof.
  apply (proj2 (proj2 (proj2 altitudeOverlap_default)) 140).
  - intros H. discriminate H.
  - apply Qle_bool_iff. vm_compute; reflexivity.
Defined.

(** C10, as the claim has it, fails at a stored maxAltitude of 0: it differs
    from 100 by 100 m, yet the flight is taken to fly at 100 m and overlaps
    with a flight that omits the field. *)
Lemma altitudeOverlap_zero_counterexample :
  ~ (forall m, 30 <= Qabs (m - 100) -> altitudeOverlap None (Some m) = false).
Proof.
  intros H. specialize (H 0).
  assert (Hfar : 30 <= Qabs (0 - 100)) by (apply Qle_bool_iff; vm_compute; reflexivity).
  specialize (H Hfar). vm_compute in H. discriminate H.
Qed.


(** ** Conflict candidates *)

Lemma includes_In (l : list string) (s : string) : includes l s = true <-> In s l.
Proof.
  unfold includes. rewrite existsb_exists. split.
  - intros (x & Hx & E). apply String.eqb_eq in E. now subst.
  - intros H. exists s. split; [assumption|apply String.eqb_refl].
Qed.

Lemma live_not_terminal (f : Flight) : live f = true -> terminal f = false.
Proof.
  unfold live, terminal. intros H. apply includes_In in H.
  destruct H as [<-|[<-|[<-|[]]]]; reflexivity.
Qed.

(** On the six statuses of the lifecycle, reserving airspace and not being
    terminal are the same. *)
Lemma lifecycle_status_live (f : Flight) :
  In (status f) [PENDING; APPROVED; ACTIVE; COMPLETED; CANCELLED; REJECTED] ->
  live f = negb (terminal f).
Proof.
  unfold live, terminal.
  intros [<-|[<-|[<-|[<-|[<-|[<-|[]]]]]]]; reflexivity.
Qed.

(** The in-memory branch keeps a stored flight exactly when its status is
    none of cancelled, completed, rejected, it is not the excluded flight, and
    the two windows intersect. *)
Lemma memoryFilter_spec (newStart newEnd : Z) (excludeId : option string) (f : Flight) :
  memoryFilter newStart newEnd excludeId f = true
  <-> terminal f = false
      /\ excludeId <> Some (id f)
      /\ (newStart < scheduledEnd (data f))%Z
      /\ (scheduledStart (data f) < newEnd)%Z.
Proof.
  unfold memoryFilter, terminal.
  destruct (includes [CANCELLED; COMPLETED; REJECTED] (status f)).
  - split; [discriminate|]. intros (H & _). discriminate H.
  - destruct excludeId as [x|].
    + destruct (String.eqb (id f) x) eqn:E.
      * apply String.eqb_eq in E. subst x. split; [discriminate|].
        intros (_ & H & _). now contradiction H.
      * apply String.eqb_neq in E.
        rewrite andb_true_iff, Z.ltb_lt, Z.gtb_ltb, Z.ltb_lt.
        split.
        -- intros (H1 & H2). repeat split; try assumption.
           intros H. injection H as ->. now apply E.
        -- intros (_ & _ & H1 & H2). now split.
    + rewrite andb_true_iff, Z.ltb_lt, Z.gtb_ltb, Z.ltb_lt.
      split.
      * intros (H1 & H2). repeat split; try assumption. discriminate.
      * intros (_ & _ & H1 & H2). now split.
Qed.

(** The Mongo branch keeps a document exactly when its status is one of
    pending, approved, active, it is not the excluded one, and the two windows
    intersect. *)
Lemma mongoQuery_spec (newStart newEnd : Z) (excludeId : option string) (f : Flight) :
  mongoQuery newStart newEnd excludeId f = true
  <-> live f = true
      /\ excludeId <> Some (id f)
      /\ (newStart < scheduledEnd (data f))%Z
      /\ (scheduledStart (data f) < newEnd)%Z.
Proof.
  unfold mongoQuery, live.
  rewrite !andb_true_iff, Z.ltb_lt, Z.gtb_ltb, Z.ltb_lt.
  destruct excludeId as [x|].
  - rewrite negb_true_iff. split.
    + intros (((H1 & H2) & H3) & H4). apply String.eqb_neq in H4.
      repeat split; try assumption. intros H. injection H as ->. now apply H4.
    + intros (H1 & H2 & H3 & H4). repeat split; try assumption.
      apply String.eqb_neq. intros E. apply H2. now rewrite E.
  - split.
    + intros (((H1 & H2) & H3) & _). repeat split; try assumption. discriminate.
    + intros (H1 & _ & H3 & H4). repeat split; assumption.
Qed.

Section Candidates.

Variable inMemoryFlights : Store.
Variable newFlight : FlightData.
Variable excludeId : option string.

Lemma existingFlights_memory (f : Flight) :
  In f (existingFlights None inMemoryFlights newFlight excludeId)
  <-> In f (map_values inMemoryFlights)
      /\ terminal f = false
      /\ excludeId <> Some (id f)
      /\ (scheduledStart newFlight < scheduledEnd (data f))%Z
      /\ (scheduledStart (data f) < scheduledEnd newFlight)%Z.
Proof.
  unfold existingFlights. rewrite filter_In, memoryFilter_spec. reflexivity.
Qed.

Lemma existingFlights_mongo (collection : list Flight) (f : Flight) :
  In f (existingFlights (Some collection) inMemoryFlights newFlight excludeId)
  <-> In f collection
      /\ live f = true
      /\ excludeId <> Some (id f)
      /\ (scheduledStart newFlight < scheduledEnd (data f))%Z
      /\ (scheduledStart (data f) < scheduledEnd newFlight)%Z.
Proof.
  unfold existingFlights. rewrite filter_In, mongoQuery_spec. reflexivity.
Qed.

(** Windows that only touch at an endpoint do not make a candidate. *)
Lemma existingFlights_touching (mongo : option (list Flight)) (f : Flight) :
  scheduledStart newFlight = scheduledEnd (data f)
  \/ scheduledEnd newFlight = scheduledStart (data f) ->
  ~ In f (existingFlights mongo inMemoryFlights newFlight excludeId).
Proof.
  intros Htouch Hin. destruct mongo as [collection|].
  - apply existingFlights_mongo in Hin. lia.
  - apply existingFlights_memory in Hin. lia.
Qed.

(** A flight in a terminal status is a candidate in neither branch. *)
Lemma existingFlights_not_terminal (mongo : option (list Flight)) (f : Flight) :
  In f (existingFlights mongo inMemoryFlights newFlight excludeId) ->
  terminal f = false.
Proof.
  intros Hin. destruct mongo as [collection|].
  - apply existingFlights_mongo in Hin. apply live_not_terminal, Hin.
  - apply existingFlights_memory in Hin. apply Hin.
Qed.

End Candidates.

(** C4.  The claim holds of the Mongo branch and fails on the in-memory
    branch: a stored flight whose status is ['expired'] (a status of the
    flight schema, outside pending / approved / active) and whose window
    intersects the candidate's is kept by the in-memory filter, which only
    drops cancelled, completed and rejected flights, while the Mongo query on
    the same flight drops it. *)
Theorem existingFlights_keeps_expired :
  live (storedA EXPIRED) = false
  /\ existingFlights None [("flight_1"%string, storedA EXPIRED)] laterRequest None
     = [storedA EXPIRED]
  /\ existingFlights (Some [storedA EXPIRED]) [] laterRequest None = [].
Proof.
  repeat split.
Qed.

(** ** Lifecycle: terminal statuses *)

Lemma map_get_map_set (m : Store) (k : string) (v : Flight) (k' : string) :
  map_get (map_set m k v) k' = if String.eqb k k' then Some v else map_get m k'.
Proof.
  induction m as [|[k0 v0] m IH]; cbn [map_set map_get].
  - reflexivity.
  - destruct (String.eqb k0 k) eqn:E0.
    + apply String.eqb_eq in E0. subst k0. cbn [map_get].
      destruct (String.eqb k k'); reflexivity.
    + cbn [map_get]. destruct (String.eqb k0 k') eqn:E1.
      * apply String.eqb_eq in E1. subst k0.
        rewrite String.eqb_sym in E0. now rewrite E0.
      * exact IH.
Qed.

Lemma terminal_status (f : Flight) :
  terminal f = true ->
  String.eqb (status f) ACTIVE = false /\ String.eqb (status f) APPROVED = false.
Proof.
  unfold terminal. intros H. apply includes_In in H.
  destruct H as [<-|[<-|[<-|[]]]]; split; reflexivity.
Qed.

Lemma tickFlight_terminal (now : Z) (reached : bool) (f : Flight) :
  terminal f = true -> tickFlight now reached f = (f, true).
Proof.
  intros H. destruct (terminal_status f H) as [Hact Happ].
  unfold tickFlight. rewrite Hact. cbn [andb]. rewrite Happ, Hact. reflexivity.
Qed.

Lemma tick_keeps_terminal (now : Z) (reached : string -> bool) (flights : Store) :
  forall k f,
    map_get flights k = Some f -> terminal f = true ->
    map_get (tick now reached flights) k = Some f.
Proof.
  induction flights as [|[k0 f0] rest IH]; intros k f Hget Hterm.
  - discriminate Hget.
  - cbn [tick]. cbn [map_get] in Hget.
    destruct (String.eqb k0 k) eqn:E.
    + injection Hget as ->. rewrite (tickFlight_terminal now (reached k0) f Hterm).
      cbn [map_get]. now rewrite E.
    + destruct (tickFlight now (reached k0) f0) as [f' ok].
      destruct ok; cbn [map_get]; rewrite E; [apply IH|]; assumption.
Qed.

(** The sweep on the lifecycle: an approved flight whose start has come
    becomes active, and completed once its end has come too; an approved
    flight whose start lies ahead is left alone. *)
Example tick_lifecycle :
  map (fun kv => status (snd kv))
      (tick (hm 10 10) (fun _ => false) [("flight_1"%string, storedA APPROVED)])
  = [ACTIVE]
  /\ map (fun kv => status (snd kv))
         (tick (hm 10 40) (fun _ => false) [("flight_1"%string, storedA APPROVED)])
     = [COMPLETED]
  /\ map (fun kv => status (snd kv))
         (tick (hm 9 0) (fun _ => false) [("flight_1"%string, storedA APPROVED)])
     = [APPROVED].
Proof. repeat split. Qed.

Lemma setStatus_cancelled_terminal (f : Flight) : terminal (setStatus f CANCELLED) = true.
Proof. reflexivity. Qed.

Lemma cancelFlight_keeps_terminal (flights : Store) (key user : string) (flights' : Store) :
  cancelFlight flights key user = Some flights' ->
  forall k f,
    map_get flights k = Some f -> terminal f = true ->
    exists f', map_get flights' k = Some f' /\ terminal f' = true.
Proof.
  unfold cancelFlight. intros Hcancel k f Hget Hterm.
  destruct (map_get flights key) as [flight|]; [|discriminate Hcancel].
  destruct (negb (String.eqb (userId flight) user)); [discriminate Hcancel|].
  injection Hcancel as <-. rewrite map_get_map_set.
  destruct (String.eqb _ k).
  - eexists. split; [reflexivity|apply setStatus_cancelled_terminal].
  - exists f. now split.
Qed.

(** C8, as the code has it.  A flight whose status is rejected, completed or
    cancelled is a conflict candidate in no query, on either branch;
    cancellation and the maintenance tick leave every such flight in a
    terminal status.  The status update writes whatever status it is given,
    whatever status the flight holds. *)
Theorem terminal_statuses :
  (forall mongo flights newFlight excludeId f,
      terminal f = true ->
      ~ In f (existingFlights mongo flights newFlight excludeId))
  /\ (forall flights key user flights' k f,
      cancelFlight flights key user = Some flights' ->
      map_get flights k = Some f -> terminal f = true ->
      exists f', map_get flights' k = Some f' /\ terminal f' = true)
  /\ (forall now reached flights k f,
      map_get flights k = Some f -> terminal f = true ->
      map_get (tick now reached flights) k = Some f)
  /\ (forall flights key newStatus flight,
      map_get flights key = Some flight -> id flight = key ->
      exists flights',
        patchStatus flights key newStatus = Some flights'
        /\ map_get flights' key = Some (setStatus flight newStatus)).
Proof.
  split; [|split; [|split]].
  - intros mongo flights newFlight excludeId f Hterm Hin.
    apply existingFlights_not_terminal in Hin. congruence.
  - intros flights key user flights' k f Hcancel Hget Hterm.
    exact (cancelFlight_keeps_terminal flights key user flights' Hcancel k f Hget Hterm).
  - intros now reached flights k f. apply tick_keeps_terminal.
  - intros flights key newStatus flight Hget Hid.
    unfold patchStatus. rewrite Hget. eexists. split; [reflexivity|].
    rewrite map_get_map_set. cbn [setStatus id]. rewrite Hid, String.eqb_refl.
    reflexivity.
Qed.

Lemma terminal_statuses_witness :
  ~ In (storedA REJECTED)
       (existingFlights None [("flight_1"%string, storedA REJECTED)] laterRequest None)
  /\ (exists f',
        map_get [("flight_1"%string, storedA CANCELLED)] "flight_1" = Some f'
        /\ terminal f' = true)
  /\ map_get (tick (hm 11 0) (fun _ => true) [("flight_1"%string, storedA COMPLETED)])
             "flight_1"
     = Some (storedA COMPLETED)
  /\ (exists flights',
        patchStatus [("flight_1"%string, storedA PENDING)] "flight_1" APPROVED
        = Some flights'
        /\ map_get flights' "flight_1" = Some (setStatus (storedA PENDING) APPROVED)).
Proof.
  destruct terminal_statuses as (Hcand & Hcancel & Htick & Hpatch).
  split; [|split; [|split]].
  - apply Hcand. reflexivity.
  - apply (Hcancel [("flight_1"%string, storedA COMPLETED)] "flight_1"%string
                   "pilot"%string _ "flight_1"%string (storedA COMPLETED));
      reflexivity.
  - apply Htick; reflexivity.
  - apply Hpatch; reflexivity.
Defined.

(** C8, as the claim has it, fails: the status update moves a rejected
    flight to approved, after which it is a conflict candidate again. *)
Lemma patchStatus_revives_terminal :
  terminal (storedA REJECTED) = true
  /\ patchStatus [("flight_1"%string, storedA REJECTED)] "flight_1" APPROVED
     = Some [("flight_1"%string, storedA APPROVED)]
  /\ terminal (storedA APPROVED) = false
  /\ live (storedA APPROVED) = true
  /\ existingFlights None [("flight_1"%string, storedA APPROVED)] laterRequest None
     = [storedA APPROVED].
Proof.
  repeat split.
Qed.

(** ** The validation report *)

Lemma pushAll_spec (cs : list Check) :
  forall st, pushAll cs st = (fst st ++ cs, snd st).
Proof.
  induction cs as [|c cs IH]; intros st.
  - cbn. rewrite app_nil_r. now destruct st.
  - cbn [pushAll fold_left]. fold (pushAll cs (push c st)). rewrite IH.
    unfold push; cbn [fst snd]. rewrite <- app_assoc. reflexivity.
Qed.

Lemma errorFree_app (l1 l2 : list Check) :
  errorFree (l1 ++ l2) = errorFree l1 && errorFree l2.
Proof. apply forallb_app. Qed.

Lemma mentions_app (n : string) (l1 l2 : list Check) :
  mentions n (l1 ++ l2) = mentions n l1 || mentions n l2.
Proof. apply existsb_app. Qed.

Lemma extendsReport_compose (s1 s2 : VState -> VState) :
  extendsReport s1 -> extendsReport s2 -> extendsReport (fun st => s2 (s1 st)).
Proof.
  intros H1 H2 st.
  destruct (H1 st) as (a1 & E1 & P1).
  destruct (H2 (s1 st)) as (a2 & E2 & P2).
  exists (a1 ++ a2). split.
  - rewrite E2, E1. cbn [fst snd].
    rewrite <- app_assoc, errorFree_app, andb_assoc. reflexivity.
  - intros c Hc. apply in_app_or in Hc. destruct Hc; [now apply P1|now apply P2].
Qed.

Lemma extendsReport_mentions (stage : VState -> VState) (n : string) (st : VState) :
  extendsReport stage ->
  mentions n (fst st) = true -> mentions n (fst (stage st)) = true.
Proof.
  intros H Hn. destruct (H st) as (added & E & _). rewrite E. cbn [fst].
  rewrite mentions_app, Hn. reflexivity.
Qed.

Section Report.

Variable calculateDistance : Q -> Q -> Q -> Q -> Q.
Variable cosDeg : Q -> Q.
Variable isWithinKosovo : Q -> Q -> bool.
Variable checkRestrictedZone : Q -> Q -> Q -> list Violation.

Abbreviation failedBorder := (mkCheck "border_check" false error None).

Lemma border_fold (wps : list LatLng) :
  forall st : VState,
    fold_left
      (fun s wp =>
         if negb (isWithinKosovo (lat wp) (lng wp))
         then invalidate (push failedBorder s)
         else s)
      wps st
    = (fst st
       ++ flat_map (fun wp => if isWithinKosovo (lat wp) (lng wp) then [] else [failedBorder])
                   wps,
       snd st && forallb (fun wp => isWithinKosovo (lat wp) (lng wp)) wps).
Proof.
  induction wps as [|wp wps IH]; intros st.
  - cbn. rewrite app_nil_r, andb_true_r. now destruct st.
  - cbn [fold_left flat_map forallb]. rewrite IH.
    destruct (isWithinKosovo (lat wp) (lng wp)); cbn [negb].
    + reflexivity.
    + unfold invalidate, push; cbn [fst snd app]. rewrite <- app_assoc, andb_false_r.
      reflexivity.
Qed.

Lemma border_failures (wps : list LatLng) :
  let fails :=
    flat_map (fun wp => if isWithinKosovo (lat wp) (lng wp) then [] else [failedBorder]) wps in
  errorFree fails = forallb (fun wp => isWithinKosovo (lat wp) (lng wp)) wps
  /\ (forall c, In c fails -> c = failedBorder).
Proof.
  induction wps as [|wp wps [IH1 IH2]]; cbn zeta.
  - split; [reflexivity|intros c []].
  - cbn [flat_map forallb]. destruct (isWithinKosovo (lat wp) (lng wp)).
    + split; assumption.
    + split; [reflexivity|]. intros c [<-|Hc]; [reflexivity|now apply IH2].
Qed.

Lemma borderCheck_extends (fd : FlightData) :
  extendsReport (borderCheck isWithinKosovo fd).
Proof.
  intros st. unfold borderCheck.
  destruct (waypoints fd) as [[|w ws]|].
  - exists []. rewrite app_nil_r, andb_true_r. split; [now destruct st|intros c []].
  - rewrite border_fold. cbn [fst].
    destruct (border_failures (w :: ws)) as [Hfree Hfails].
    cbn zeta in Hfree, Hfails. rewrite <- Hfree.
    set (fails := flat_map _ (w :: ws)) in *.
    destruct (existsb _ (fst st ++ fails)); cbn [negb].
    + exists fails. split; [reflexivity|].
      intros c Hc. rewrite (Hfails c Hc). reflexivity.
    + exists (fails ++ [mkCheck "border_check" true info None]). split.
      * unfold push; cbn [fst snd]. rewrite <- app_assoc, errorFree_app.
        cbn. rewrite andb_true_r. reflexivity.
      * intros c Hc. apply in_app_or in Hc. destruct Hc as [Hc|[<-|[]]].
        -- rewrite (Hfails c Hc). reflexivity.
        -- discriminate.
  - exists []. rewrite app_nil_r, andb_true_r. split; [now destruct st|intros c []].
Qed.

Lemma single_extends (c : Check) (st : VState) (valid : bool) :
  (errorCheck c = true -> passed c = false) ->
  valid = snd st && negb (errorCheck c) ->
  exists added,
    (fst st ++ [c], valid) = (fst st ++ added, snd st && errorFree added)
    /\ (forall c', In c' added -> errorCheck c' = true -> passed c' = false).
Proof.
  intros Hc ->. exists [c]. split.
  - cbn. rewrite andb_true_r. reflexivity.
  - intros c' [<-|[]]. exact Hc.
Qed.

Ltac one_check :=
  apply single_extends;
  [ first [discriminate | reflexivity]
  | cbn; now rewrite ?andb_true_r, ?andb_false_r ].

Lemma areaBorderCheck_extends (fd : FlightData) :
  extendsReport (areaBorderCheck isWithinKosovo fd).
Proof.
  intros st. unfold areaBorderCheck.
  destruct (operationArea fd) as [area|]; [destruct (center area) as [c|]|].
  - destruct (isWithinKosovo _ _); cbn [negb]; unfold invalidate, push; cbn [fst snd];
      one_check.
  - exists []. rewrite app_nil_r, andb_true_r. split; [now destruct st|intros c []].
  - exists []. rewrite app_nil_r, andb_true_r. split; [now destruct st|intros c []].
Qed.

Lemma altitudeCheck_extends (fd : FlightData) : extendsReport (altitudeCheck fd).
Proof.
  intros st. unfold altitudeCheck.
  destruct (exceeds _ _); unfold invalidate, push; cbn [fst snd]; one_check.
Qed.

Lemma timeCheck_extends (now : Z) (fd : FlightData) : extendsReport (timeCheck now fd).
Proof.
  intros st. unfold timeCheck.
  destruct (_ <? _)%Z; unfold invalidate, push; cbn [fst snd]; one_check.
Qed.

Lemma daylightCheck_extends (fd : FlightData) : extendsReport (daylightCheck fd).
Proof.
  intros st. unfold daylightCheck. cbn zeta.
  destruct (_ || _); unfold push; cbn [fst snd]; one_check.
Qed.

Lemma errorFree_map_const (A : Type) (c : Check) (l : list A) :
  errorFree (map (fun _ => c) l) = match l with [] => true | _ => negb (errorCheck c) end.
Proof.
  induction l as [|x l IH]; [reflexivity|].
  cbn [map]. unfold errorFree in *. cbn [forallb]. rewrite IH.
  destruct l; [apply andb_true_r|apply andb_diag].
Qed.

Lemma zoneCheck_extends (fd : FlightData) :
  extendsReport (zoneCheck checkRestrictedZone fd).
Proof.
  intros st. unfold zoneCheck. cbn zeta.
  set (zoneViolations := flat_map _ (zonePoints fd)).
  destruct zoneViolations as [|v vs] eqn:Ev.
  - unfold push; cbn [fst snd]. one_check.
  - set (errors := filter (fun v0 => isError (violation_severity v0)) (v :: vs)).
    set (warnings := filter (fun v0 => isWarning (violation_severity v0)) (v :: vs)).
    exists (map (fun _ => mkCheck "zone_check" false error None) errors
            ++ map (fun _ => mkCheck "zone_check" true warning None) warnings).
    split.
    + rewrite errorFree_app, !errorFree_map_const.
      destruct errors as [|e es].
      * rewrite pushAll_spec. cbn [map app].
        destruct warnings; cbn; rewrite andb_true_r; reflexivity.
      * rewrite !pushAll_spec. unfold invalidate; cbn [fst snd].
        rewrite <- app_assoc. cbn [errorCheck severity isError negb andb].
        rewrite andb_false_r. reflexivity.
    + intros c Hc. apply in_app_or in Hc.
      destruct Hc as [Hc|Hc]; apply in_map_iff in Hc; destruct Hc as (x & <- & _).
      * reflexivity.
      * discriminate.
Qed.

Lemma trafficCheck_extends (mongo : option (list Flight)) (flights : Store) (fd : FlightData) :
  extendsReport (trafficCheck calculateDistance cosDeg mongo flights fd).
Proof.
  intros st. unfold trafficCheck. cbn zeta.
  destruct (checkFlightConflicts _ _ _ _ _ _) as [|x xs].
  - unfold push; cbn [fst snd]. one_check.
  - rewrite pushAll_spec. unfold invalidate; cbn [fst snd].
    eexists. split.
    + f_equal. cbn [map errorFree forallb errorCheck severity isError negb andb].
      rewrite andb_false_r. reflexivity.
    + intros c Hc. apply in_map_iff in Hc. destruct Hc as (y & <- & _). reflexivity.
Qed.

(** The shape of every report: the entries appended by the seven steps in
    order, and [isValid] true exactly when none of them has severity error. *)
Lemma validateFlightRequest_shape (mongo : option (list Flight)) (flights : Store)
    (now : Z) (fd : FlightData) :
  let v := validateFlightRequest calculateDistance cosDeg isWithinKosovo
             checkRestrictedZone mongo flights now fd in
  isValid v = errorFree (checks v)
  /\ (forall c, In c (checks v) -> errorCheck c = true -> passed c = false).
Proof.
  cbn zeta. unfold validateFlightRequest. cbn zeta. cbn [isValid checks].
  pose proof (extendsReport_compose _ _
    (extendsReport_compose _ _
      (extendsReport_compose _ _
        (extendsReport_compose _ _
          (extendsReport_compose _ _
            (extendsReport_compose _ _
               (borderCheck_extends fd) (areaBorderCheck_extends fd))
            (altitudeCheck_extends fd))
          (zoneCheck_extends fd))
        (timeCheck_extends now fd))
      (daylightCheck_extends fd))
    (trafficCheck_extends mongo flights fd)) as H.
  destruct (H ([], true)) as (added & E & P).
  cbn beta in E. rewrite E. cbn [fst snd app andb]. split; [reflexivity|exact P].
Qed.

Lemma mentions_snoc (n : string) (cs : list Check) (c : Check) :
  name c = n -> mentions n (cs ++ [c]) = true.
Proof.
  intros <-. rewrite mentions_app. cbn. rewrite String.eqb_refl.
  now rewrite orb_true_r.
Qed.

Lemma mentions_map_const (A : Type) (n : string) (cs : list Check) (f : A -> Check)
    (x : A) (xs : list A) :
  name (f x) = n -> mentions n (cs ++ map f (x :: xs)) = true.
Proof.
  intros <-. rewrite mentions_app. cbn. rewrite String.eqb_refl.
  now rewrite orb_true_r.
Qed.

Lemma borderCheck_mentions (fd : FlightData) (st : VState) (w : LatLng) (ws : list LatLng) :
  waypoints fd = Some (w :: ws) ->
  mentions "border_check" (fst (borderCheck isWithinKosovo fd st)) = true.
Proof.
  intros Hw. unfold borderCheck. rewrite Hw.
  destruct (existsb _ _) eqn:E; cbn [negb].
  - apply existsb_exists in E. destruct E as (c & Hc & Hname).
    apply andb_true_iff in Hname. destruct Hname as [Hname _].
    apply existsb_exists. exists c. now split.
  - unfold push; cbn [fst]. now apply mentions_snoc.
Qed.

Lemma areaBorderCheck_mentions (fd : FlightData) (st : VState) (area : OperationArea)
    (c : LatLng) :
  operationArea fd = Some area -> center area = Some c ->
  mentions "area_border_check" (fst (areaBorderCheck isWithinKosovo fd st)) = true.
Proof.
  intros Ha Hc. unfold areaBorderCheck. rewrite Ha, Hc.
  destruct (negb _); unfold invalidate, push; cbn [fst]; now apply mentions_snoc.
Qed.

Lemma altitudeCheck_mentions (fd : FlightData) (st : VState) :
  mentions "altitude_check" (fst (altitudeCheck fd st)) = true.
Proof.
  unfold altitudeCheck.
  destruct (exceeds _ _); unfold invalidate, push; cbn [fst]; now apply mentions_snoc.
Qed.

Lemma timeCheck_mentions (now : Z) (fd : FlightData) (st : VState) :
  mentions "time_check" (fst (timeCheck now fd st)) = true.
Proof.
  unfold timeCheck.
  destruct (_ <? _)%Z; unfold invalidate, push; cbn [fst]; now apply mentions_snoc.
Qed.

Lemma daylightCheck_mentions (fd : FlightData) (st : VState) :
  mentions "daylight_check" (fst (daylightCheck fd st)) = true.
Proof.
  unfold daylightCheck. cbn zeta.
  destruct (_ || _); unfold push; cbn [fst]; now apply mentions_snoc.
Qed.

Lemma trafficCheck_mentions (mongo : option (list Flight)) (flights : Store)
    (fd : FlightData) (st : VState) :
  mentions "traffic_conflict"
           (fst (trafficCheck calculateDistance cosDeg mongo flights fd st)) = true.
Proof.
  unfold trafficCheck. cbn zeta.
  destruct (checkFlightConflicts _ _ _ _ _ _) as [|x xs].
  - unfold push; cbn [fst]. now apply mentions_snoc.
  - rewrite pushAll_spec. cbn [fst]. now apply mentions_map_const.
Qed.

Hypothesis checkRestrictedZone_severity :
  forall lat0 lng0 altitude v,
    In v (checkRestrictedZone lat0 lng0 altitude) ->
    violation_severity v = error \/ violation_severity v = warning.

Lemma zoneCheck_mentions (fd : FlightData) (st : VState) :
  mentions "zone_check" (fst (zoneCheck checkRestrictedZone fd st)) = true.
Proof.
  unfold zoneCheck. cbn zeta.
  set (zoneViolations := flat_map _ (zonePoints fd)).
  assert (Hsev : forall v, In v zoneViolations ->
                   violation_severity v = error \/ violation_severity v = warning).
  { intros v Hv. apply in_flat_map in Hv. destruct Hv as (p & _ & Hv).
    exact (checkRestrictedZone_severity _ _ _ v Hv). }
  destruct zoneViolations as [|v vs].
  - unfold push; cbn [fst]. now apply mentions_snoc.
  - destruct (Hsev v (or_introl eq_refl)) as [Hv|Hv].
    + cbn [filter]. rewrite Hv. cbn [isError isWarning].
      rewrite !pushAll_spec. cbn [fst].
      rewrite mentions_app, mentions_map_const by reflexivity. reflexivity.
    + cbn [filter]. rewrite Hv. cbn [isError isWarning].
      destruct (filter (fun v0 => isError (violation_severity v0)) vs);
        rewrite !pushAll_spec; cbn [fst]; now apply mentions_map_const.
Qed.

Lemma errorFree_implb (cs : list Check) :
  (forall c, In c cs -> errorCheck c = true -> passed c = false) ->
  forallb (fun c => implb (errorCheck c) (passed c)) cs = errorFree cs.
Proof.
  induction cs as [|c cs IH]; intros H; [reflexivity|].
  unfold errorFree in *. cbn [forallb]. rewrite IH.
  - f_equal. destruct (errorCheck c) eqn:E; [|reflexivity].
    rewrite (H c (or_introl eq_refl) E). reflexivity.
  - intros c' Hc'. apply H. now right.
Qed.

Lemma border_failures_filter (wps : list LatLng) :
  flat_map (fun wp => if isWithinKosovo (lat wp) (lng wp) then [] else [failedBorder]) wps
  = map (fun _ => failedBorder)
        (filter (fun wp => negb (isWithinKosovo (lat wp) (lng wp))) wps).
Proof.
  induction wps as [|wp wps IH]; [reflexivity|].
  cbn [flat_map filter]. destruct (isWithinKosovo (lat wp) (lng wp)); cbn [negb app map].
  - exact IH.
  - now rewrite IH.
Qed.

Lemma borderCheck_entries (fd : FlightData) :
  fst (borderCheck isWithinKosovo fd ([], true)) = borderEntries isWithinKosovo fd.
Proof.
  unfold borderCheck, borderEntries. destruct (waypoints fd) as [[|w ws]|]; try reflexivity.
  rewrite border_fold, border_failures_filter. cbn [fst app].
  destruct (filter _ (w :: ws)) as [|o os]; reflexivity.
Qed.

Lemma areaBorderCheck_entries (fd : FlightData) (st : VState) :
  fst (areaBorderCheck isWithinKosovo fd st) = fst st ++ areaBorderEntries isWithinKosovo fd.
Proof.
  unfold areaBorderCheck, areaBorderEntries.
  destruct (operationArea fd) as [area|]; [destruct (center area) as [c|]|];
    try now rewrite app_nil_r.
  now destruct (isWithinKosovo (lat c) (lng c)).
Qed.

Lemma altitudeCheck_entries (fd : FlightData) (st : VState) :
  fst (altitudeCheck fd st) = fst st ++ [altitudeEntry fd].
Proof. unfold altitudeCheck, altitudeEntry. now destruct (exceeds _ _). Qed.

Lemma zoneCheck_entries (fd : FlightData) (st : VState) :
  fst (zoneCheck checkRestrictedZone fd st) = fst st ++ zoneEntries checkRestrictedZone fd.
Proof.
  unfold zoneCheck, zoneEntries. cbn zeta.
  destruct (flat_map _ (zonePoints fd)) as [|v vs]; [reflexivity|].
  destruct (filter (fun v0 => isError (violation_severity v0)) (v :: vs)) as [|e es].
  - now rewrite pushAll_spec.
  - rewrite !pushAll_spec. unfold invalidate. cbn [fst snd]. now rewrite <- app_assoc.
Qed.

Lemma timeCheck_entries (now : Z) (fd : FlightData) (st : VState) :
  fst (timeCheck now fd st) = fst st ++ [timeEntry now fd].
Proof. unfold timeCheck, timeEntry. now destruct (_ <? _)%Z. Qed.

Lemma daylightCheck_entries (fd : FlightData) (st : VState) :
  fst (daylightCheck fd st) = fst st ++ [daylightEntry fd].
Proof. unfold daylightCheck, daylightEntry. cbn zeta. now destruct (_ || _). Qed.

Lemma trafficCheck_entries (mongo : option (list Flight)) (flights : Store)
    (fd : FlightData) (st : VState) :
  fst (trafficCheck calculateDistance cosDeg mongo flights fd st)
  = fst st ++ trafficEntries (checkFlightConflicts calculateDistance cosDeg mongo flights fd None).
Proof.
  unfold trafficCheck, trafficEntries. cbn zeta.
  destruct (checkFlightConflicts _ _ _ _ _ _); [reflexivity|].
  now rewrite pushAll_spec.
Qed.

Lemma mentions_named (m n : string) (cs : list Check) :
  (forall c, In c cs -> name c = m) ->
  mentions n cs = match cs with [] => false | _ :: _ => String.eqb m n end.
Proof.
  intros Hnames. destruct cs as [|c0 cs]; [reflexivity|].
  unfold mentions. destruct (String.eqb m n) eqn:E.
  - cbn [existsb]. rewrite (Hnames c0 (or_introl eq_refl)), E. reflexivity.
  - apply not_true_is_false. intros H. apply existsb_exists in H.
    destruct H as (c & Hc & Hn). rewrite (Hnames c Hc), E in Hn. discriminate.
Qed.

Lemma borderEntries_named (fd : FlightData) :
  forall c, In c (borderEntries isWithinKosovo fd) -> name c = "border_check"%string.
Proof.
  unfold borderEntries. destruct (waypoints fd) as [[|w ws]|]; try (intros c []).
  destruct (filter _ (w :: ws)) as [|o os].
  - now intros c [<-|[]].
  - intros c Hc. apply in_map_iff in Hc. now destruct Hc as (x & <- & _).
Qed.

Lemma areaBorderEntries_named (fd : FlightData) :
  forall c, In c (areaBorderEntries isWithinKosovo fd) ->
            name c = "area_border_check"%string.
Proof.
  unfold areaBorderEntries.
  destruct (operationArea fd) as [area|]; [destruct (center area) as [p|]|];
    try (intros c []).
  destruct (isWithinKosovo _ _); now intros c [<-|[]].
Qed.

Lemma zoneEntries_named (fd : FlightData) :
  forall c, In c (zoneEntries checkRestrictedZone fd) -> name c = "zone_check"%string.
Proof.
  unfold zoneEntries. cbn zeta. destruct (flat_map _ (zonePoints fd)) as [|v vs].
  - now intros c [<-|[]].
  - intros c Hc. apply in_app_or in Hc.
    destruct Hc as [Hc|Hc]; apply in_map_iff in Hc; now destruct Hc as (x & <- & _).
Qed.

Lemma trafficEntries_named (conflicts : list Conflict) :
  forall c, In c (trafficEntries conflicts) -> name c = "traffic_conflict"%string.
Proof.
  unfold trafficEntries. destruct conflicts as [|c0 cs].
  - now intros c [<-|[]].
  - intros c Hc. apply in_map_iff in Hc. now destruct Hc as (x & <- & _).
Qed.

Lemma validateFlightRequest_entries (mongo : option (list Flight)) (flights : Store)
    (now : Z) (fd : FlightData) :
  checks (validateFlightRequest calculateDistance cosDeg isWithinKosovo
            checkRestrictedZone mongo flights now fd)
  = borderEntries isWithinKosovo fd
    ++ areaBorderEntries isWithinKosovo fd
    ++ [altitudeEntry fd]
    ++ zoneEntries checkRestrictedZone fd
    ++ [timeEntry now fd]
    ++ [daylightEntry fd]
    ++ trafficEntries (checkFlightConflicts calculateDistance cosDeg mongo flights fd None).
Proof.
  unfold validateFlightRequest. cbn zeta. cbn [checks].
  rewrite trafficCheck_entries, daylightCheck_entries, timeCheck_entries,
    zoneCheck_entries, altitudeCheck_entries, areaBorderCheck_entries, borderCheck_entries.
  now rewrite <- !app_assoc.
Qed.

(** C3.  Every check of [validateFlightRequest] runs whatever the checks
    before it found: the report is, in this order, the entries of the border
    check (one failure for each waypoint outside, or one success), of the area
    border check, the altitude check, the zone check (one failure for each
    violation of severity error, one warning for each of severity warning, or
    one success), the time check, the daylight check and the traffic check
    (one failure for each conflict, or one success).  So the altitude, zone,
    time, daylight and traffic checks always have an entry, the border check
    has one exactly when there are waypoints, the area border check exactly
    when the area has a centre.  [isValid] is the conjunction of [passed] over
    the entries of severity error, which is to say that it is true exactly
    when no entry has severity error: entries of severity warning or info
    never make it false. *)
Theorem validateFlightRequest_report (mongo : option (list Flight)) (flights : Store)
    (now : Z) (fd : FlightData) :
  let v := validateFlightRequest calculateDistance cosDeg isWithinKosovo
             checkRestrictedZone mongo flights now fd in
  checks v
  = borderEntries isWithinKosovo fd
    ++ areaBorderEntries isWithinKosovo fd
    ++ [altitudeEntry fd]
    ++ zoneEntries checkRestrictedZone fd
    ++ [timeEntry now fd]
    ++ [daylightEntry fd]
    ++ trafficEntries (checkFlightConflicts calculateDistance cosDeg mongo flights fd None)
  /\ (hasCheck "border_check" v = true <-> exists w ws, waypoints fd = Some (w :: ws))
  /\ (hasCheck "area_border_check" v = true
      <-> exists area c, operationArea fd = Some area /\ center area = Some c)
  /\ hasCheck "altitude_check" v = true
  /\ hasCheck "zone_check" v = true
  /\ hasCheck "time_check" v = true
  /\ hasCheck "daylight_check" v = true
  /\ hasCheck "traffic_conflict" v = true
  /\ isValid v = forallb (fun c => implb (errorCheck c) (passed c)) (checks v)
  /\ isValid v = errorFree (checks v).
Proof.
  destruct (validateFlightRequest_shape mongo flights now fd) as [Hvalid Hpassed].
  pose proof (validateFlightRequest_entries mongo flights now fd) as Hentries.
  cbn zeta in *.
  assert (Hzone : mentions "zone_check" (zoneEntries checkRestrictedZone fd) = true).
  { pose proof (zoneCheck_mentions fd ([], true)) as H.
    now rewrite zoneCheck_entries in H. }
  assert (Hmentions : forall n,
             mentions n
               (checks (validateFlightRequest calculateDistance cosDeg isWithinKosovo
                          checkRestrictedZone mongo flights now fd))
             = match borderEntries isWithinKosovo fd with
               | [] => false
               | _ :: _ => String.eqb "border_check" n
               end
               || (match areaBorderEntries isWithinKosovo fd with
                   | [] => false
                   | _ :: _ => String.eqb "area_border_check" n
                   end
                   || (String.eqb (name (altitudeEntry fd)) n
                       || (mentions n (zoneEntries checkRestrictedZone fd)
                           || (String.eqb (name (timeEntry now fd)) n
                               || (String.eqb (name (daylightEntry fd)) n
                                   || String.eqb "traffic_conflict" n)))))).
  { intros n. rewrite Hentries, !mentions_app.
    rewrite (mentions_named "border_check" n _ (borderEntries_named fd)).
    rewrite (mentions_named "area_border_check" n _ (areaBorderEntries_named fd)).
    rewrite (mentions_named "traffic_conflict" n _ (trafficEntries_named _)).
    unfold trafficEntries. cbn [mentions existsb]. rewrite !orb_false_r.
    now destruct (checkFlightConflicts _ _ _ _ _ _). }
  assert (Hnames : name (altitudeEntry fd) = "altitude_check"%string
                   /\ name (timeEntry now fd) = "time_check"%string
                   /\ name (daylightEntry fd) = "daylight_check"%string).
  { unfold altitudeEntry, timeEntry, daylightEntry.
    destruct (exceeds _ _), (_ <? _)%Z, (_ || _); now repeat split. }
  destruct Hnames as (Halt & Htime & Hday).
  assert (Hz : forall n, String.eqb "zone_check" n = false ->
                 mentions n (zoneEntries checkRestrictedZone fd) = false).
  { intros n Hn. rewrite (mentions_named "zone_check" n _ (zoneEntries_named fd)), Hn.
    now destruct (zoneEntries checkRestrictedZone fd). }
  split; [exact Hentries|]. unfold hasCheck.
  split; [|split; [|split; [|split; [|split; [|split; [|split; [|split]]]]]]].
  - rewrite Hmentions, Halt, Htime, Hday, Hz by reflexivity.
    cbn [String.eqb Ascii.eqb Bool.eqb andb orb]. rewrite !orb_false_r.
    replace (match areaBorderEntries isWithinKosovo fd with [] => false | _ :: _ => false end)
      with false by now destruct (areaBorderEntries isWithinKosovo fd).
    rewrite orb_false_r.
    unfold borderEntries. destruct (waypoints fd) as [[|w ws]|].
    + split; [discriminate|]. intros (w & ws & H). discriminate H.
    + split; [intros _; now exists w, ws|intros _].
      now destruct (filter _ (w :: ws)).
    + split; [discriminate|]. intros (w & ws & H). discriminate H.
  - rewrite Hmentions, Halt, Htime, Hday, Hz by reflexivity.
    cbn [String.eqb Ascii.eqb Bool.eqb andb orb]. rewrite !orb_false_r.
    replace (match borderEntries isWithinKosovo fd with [] => false | _ :: _ => false end)
      with false by now destruct (borderEntries isWithinKosovo fd).
    cbn [orb]. unfold areaBorderEntries.
    destruct (operationArea fd) as [area|]; [destruct (center area) as [c|] eqn:Ec|].
    + split; [intros _; now exists area, c|intros _].
      now destruct (isWithinKosovo (lat c) (lng c)).
    + split; [discriminate|]. intros (a & c & [= <-] & H). congruence.
    + split; [discriminate|]. intros (a & c & H & _). discriminate H.
  - rewrite Hmentions, Halt. cbn [String.eqb Ascii.eqb Bool.eqb andb orb].
    now rewrite !orb_true_r.
  - rewrite Hmentions, Hzone. now rewrite !orb_true_r.
  - rewrite Hmentions, Htime. cbn [String.eqb Ascii.eqb Bool.eqb andb orb].
    now rewrite !orb_true_r.
  - rewrite Hmentions, Hday. cbn [String.eqb Ascii.eqb Bool.eqb andb orb].
    now rewrite !orb_true_r.
  - rewrite Hmentions. cbn [String.eqb Ascii.eqb Bool.eqb andb orb].
    now rewrite !orb_true_r.
  - rewrite (errorFree_implb _ Hpassed). exact Hvalid.
  - exact Hvalid.
Qed.

End Report.

Lemma validateFlightRequest_report_witness :
  checks (validateFlightRequest meridianDistance cosUnit everywhereInside demoZoneCheck
            None [("flight_1"%string, storedA PENDING)] 0 laterRequest)
  = [ mkCheck "border_check" true info None;
      mkCheck "altitude_check" true info None;
      mkCheck "zone_check" true warning None;
      mkCheck "time_check" true info None;
      mkCheck "daylight_check" true info None;
      mkCheck "traffic_conflict" false error
        (Some (mkConflict "flight_1" path_proximity 111 (hm 10 0) (hm 10 30))) ]
  /\ hasCheck "zone_check"
       (validateFlightRequest meridianDistance cosUnit everywhereInside demoZoneCheck
          None [("flight_1"%string, storedA PENDING)] 0 laterRequest) = true
  /\ isValid (validateFlightRequest meridianDistance cosUnit everywhereInside demoZoneCheck
                None [("flight_1"%string, storedA PENDING)] 0 laterRequest) = false.
Proof.
  assert (Hsev : forall lat0 lng0 altitude v,
             In v (demoZoneCheck lat0 lng0 altitude) ->
             violation_severity v = error \/ violation_severity v = warning).
  { intros lat0 lng0 altitude v. unfold demoZoneCheck.
    destruct (Qle_bool (4262 # 100) lat0).
    - intros [<-|[]]. now left.
    - destruct (Qle_bool (426005 # 10000) lat0).
      + intros [<-|[]]. now right.
      + intros []. }
  destruct (validateFlightRequest_report meridianDistance cosUnit everywhereInside
              demoZoneCheck Hsev None [("flight_1"%string, storedA PENDING)] 0 laterRequest)
    as (Hentries & _ & _ & _ & Hzone & _ & _ & _ & _ & Hvalid).
  split; [|split].
  - rewrite Hentries. vm_compute. reflexivity.
  - exact Hzone.
  - rewrite Hvalid, Hentries. vm_compute. reflexivity.
Defined.

(** ** The spatial test *)

Lemma Qltb_comp (a a' b b' : Q) : a == a' -> b == b' -> Qltb a b = Qltb a' b'.
Proof.
  intros Ha Hb. unfold Qltb. now rewrite Ha, Hb.
Qed.

Lemma updateMin_under (acc : option Q) (d : Q) :
  underSeparation (updateMin acc d) = underSeparation acc || Qltb d minimumSeparation.
Proof.
  destruct acc as [m|]; [|reflexivity].
  cbn [updateMin underSeparation].
  destruct (Qltb d m) eqn:Edm; cbn [underSeparation].
  - destruct (Qltb m minimumSeparation) eqn:Em; [|reflexivity].
    apply Qltb_lt in Edm, Em. apply Qltb_lt. now apply Qlt_trans with m.
  - destruct (Qltb d minimumSeparation) eqn:Ed; [|now rewrite orb_false_r].
    rewrite orb_true_r. apply Qltb_ge in Edm. apply Qltb_lt in Ed.
    apply Qltb_lt. now apply Qle_lt_trans with d.
Qed.

Lemma existsb_swap {A B : Type} (p : A -> B -> bool) (l1 : list A) (l2 : list B) :
  existsb (fun a => existsb (fun b => p a b) l2) l1
  = existsb (fun b => existsb (fun a => p a b) l1) l2.
Proof.
  apply Bool.eq_iff_eq_true. rewrite !existsb_exists. split.
  - intros (a & Ha & H). apply existsb_exists in H. destruct H as (b & Hb & H).
    exists b. split; [assumption|]. apply existsb_exists. now exists a.
  - intros (b & Hb & H). apply existsb_exists in H. destruct H as (a & Ha & H).
    exists a. split; [assumption|]. apply existsb_exists. now exists b.
Qed.

Lemma existsb_pointwise {A : Type} (p q : A -> bool) (l : list A) :
  (forall a, p a = q a) -> existsb p l = existsb q l.
Proof.
  intros H. induction l as [|a l IH]; [reflexivity|].
  cbn [existsb]. now rewrite H, IH.
Qed.

Section SpatialTest.

Variable calculateDistance : Q -> Q -> Q -> Q -> Q.
Variable cosDeg : Q -> Q.

Abbreviation near :=
  (fun s1 s2 : LatLng =>
     Qltb (calculateDistance (lat s1) (lng s1) (lat s2) (lng s2)) minimumSeparation).

Lemma minPairDistance_inner (s1 : LatLng) (samples2 : list LatLng) :
  forall acc,
    underSeparation
      (fold_left
         (fun acc' s2 =>
            updateMin acc' (getDistance calculateDistance (lat s1) (lng s1) (lat s2) (lng s2)))
         samples2 acc)
    = underSeparation acc || existsb (near s1) samples2.
Proof.
  induction samples2 as [|s2 samples2 IH]; intros acc; cbn [fold_left existsb].
  - now rewrite orb_false_r.
  - rewrite IH, updateMin_under, orb_assoc. reflexivity.
Qed.

Lemma minPairDistance_under (samples1 samples2 : list LatLng) :
  underSeparation (minPairDistance calculateDistance samples1 samples2)
  = existsb (fun s1 => existsb (near s1) samples2) samples1.
Proof.
  unfold minPairDistance.
  enough (H : forall acc,
             underSeparation
               (fold_left
                  (fun acc0 s1 =>
                     fold_left
                       (fun acc' s2 =>
                          updateMin acc'
                            (getDistance calculateDistance (lat s1) (lng s1) (lat s2) (lng s2)))
                       samples2 acc0)
                  samples1 acc)
             = underSeparation acc
               || existsb (fun s1 => existsb (near s1) samples2) samples1)
    by (rewrite H; reflexivity).
  induction samples1 as [|s1 samples1 IH]; intros acc; cbn [fold_left existsb].
  - now rewrite orb_false_r.
  - rewrite IH, minPairDistance_inner, orb_assoc. reflexivity.
Qed.

(** [checkSpatialConflict] reports a conflict exactly when the bounding boxes
    overlap within the buffer and one of the separation tests fails. *)
Lemma hasConflict_spec (f g : FlightData) :
  hasConflict (checkSpatialConflict calculateDistance cosDeg f g)
  = boundsOverlap (getFlightBounds cosDeg f) (getFlightBounds cosDeg g) defaultBuffer
    && separationViolated calculateDistance f g.
Proof.
  unfold checkSpatialConflict, separationViolated.
  destruct (boundsOverlap _ _ _); cbn [negb andb]; [|reflexivity].
  rewrite <- minPairDistance_under.
  assert (Htail : forall pe1 pe2 mpd,
             hasConflict
               (if pe1 : bool then SomeConflict 0 path_enters_area
                else if pe2 : bool then SomeConflict 0 path_enters_area
                else match mpd with
                     | Some minDistance =>
                         if Qltb minDistance minimumSeparation
                         then SomeConflict minDistance path_proximity
                         else NoConflict
                     | None => NoConflict
                     end)
             = pe1 || pe2 || underSeparation mpd).
  { intros [|] [|] [m|]; try reflexivity;
      cbn [underSeparation orb]; destruct (Qltb m minimumSeparation); reflexivity. }
  unfold areaCheck.
  destruct (operationArea f) as [a1|], (operationArea g) as [a2|];
    try (rewrite Htail; reflexivity).
  destruct a1 as [c1 r1|c1 b1], a2 as [c2 r2|c2 b2]; try reflexivity.
  unfold getDistance.
  destruct (Qltb _ (r1 + r2)); [reflexivity|].
  rewrite Htail. reflexivity.
Qed.

Lemma boundsOverlap_sym (b1 b2 : option Bounds) (buffer : Q) :
  boundsOverlap b1 b2 buffer = boundsOverlap b2 b1 buffer.
Proof.
  destruct b1 as [b1|], b2 as [b2|]; try reflexivity.
  unfold boundsOverlap, Qgtb.
  destruct (Qltb (east b1 + buffer) (west b2 - buffer)),
    (Qltb (east b2 + buffer) (west b1 - buffer)),
    (Qltb (north b1 + buffer) (south b2 - buffer)),
    (Qltb (north b2 + buffer) (south b1 - buffer)); reflexivity.
Qed.

Lemma timeOverlap_sym (f g : FlightData) : timeOverlap f g = timeOverlap g f.
Proof.
  unfold timeOverlap. rewrite !Z.gtb_ltb. apply andb_comm.
Qed.

Lemma altitudeOverlap_sym (a b : option Q) : altitudeOverlap a b = altitudeOverlap b a.
Proof.
  unfold altitudeOverlap. now rewrite Qabs_Qminus.
Qed.

Hypothesis calculateDistance_sym :
  forall lat1 lng1 lat2 lng2,
    calculateDistance lat1 lng1 lat2 lng2 == calculateDistance lat2 lng2 lat1 lng1.

Lemma separationViolated_sym (f g : FlightData) :
  separationViolated calculateDistance f g = separationViolated calculateDistance g f.
Proof.
  unfold separationViolated.
  rewrite (existsb_swap near (pathSamples calculateDistance f) (pathSamples calculateDistance g)).
  assert (Hnear : forall l1 l2 : list LatLng,
             existsb (fun b => existsb (fun a => near a b) l1) l2
             = existsb (fun s1 => existsb (fun s2 => near s1 s2) l1) l2).
  { intros l1 l2. apply existsb_pointwise. intros b. apply existsb_pointwise. intros a.
    apply Qltb_comp; [apply calculateDistance_sym|reflexivity]. }
  rewrite Hnear.
  assert (Hareas :
            match operationArea f, operationArea g with
            | Some a1, Some a2 =>
                match a1, a2 with
                | mkCircle c1 r1, mkCircle c2 r2 =>
                    Qltb (calculateDistance (lat c1) (lng c1) (lat c2) (lng c2)) (r1 + r2)
                | _, _ => true
                end
            | _, _ => false
            end
            = match operationArea g, operationArea f with
              | Some a1, Some a2 =>
                  match a1, a2 with
                  | mkCircle c1 r1, mkCircle c2 r2 =>
                      Qltb (calculateDistance (lat c1) (lng c1) (lat c2) (lng c2)) (r1 + r2)
                  | _, _ => true
                  end
              | _, _ => false
              end).
  { destruct (operationArea f) as [a1|], (operationArea g) as [a2|]; try reflexivity.
    destruct a1 as [c1 r1|c1 b1], a2 as [c2 r2|c2 b2]; try reflexivity.
    apply Qltb_comp; [apply calculateDistance_sym|apply Qplus_comm]. }
  rewrite Hareas.
  destruct (match operationArea g with Some _ => _ | None => _ end),
    (pathEntersArea calculateDistance (operationArea f) (pathSamples calculateDistance g)),
    (pathEntersArea calculateDistance (operationArea g) (pathSamples calculateDistance f));
    reflexivity.
Qed.

Lemma inConflict_sym (f g : FlightData) :
  inConflict calculateDistance cosDeg f g = inConflict calculateDistance cosDeg g f.
Proof.
  unfold inConflict.
  now rewrite timeOverlap_sym, altitudeOverlap_sym, boundsOverlap_sym,
    separationViolated_sym.
Qed.

End SpatialTest.

(** ** The registry under submissions *)

Lemma map_set_In (m : Store) (k : string) (v : Flight) (k' : string) (v' : Flight) :
  In (k', v') (map_set m k v) -> (k' = k /\ v' = v) \/ In (k', v') m.
Proof.
  induction m as [|[k0 v0] m IH]; cbn [map_set].
  - intros [H|[]]. injection H as <- <-. now left.
  - destruct (String.eqb k0 k).
    + intros [H|H].
      * injection H as <- <-. now left.
      * right. now right.
    + intros [H|H].
      * right. now left.
      * destruct (IH H) as [Hnew|Hold]; [now left|right; now right].
Qed.

Lemma map_set_NoDup (m : Store) (k : string) (v : Flight) :
  NoDup (map fst m) -> NoDup (map fst (map_set m k v)).
Proof.
  induction m as [|[k0 v0] m IH]; cbn [map_set map fst]; intros Hnd.
  - constructor; [intros []|constructor].
  - inversion Hnd as [|? ? Hnotin Hrest]; subst.
    destruct (String.eqb k0 k) eqn:E.
    + apply String.eqb_eq in E. subst k0. cbn [map fst]. now constructor.
    + apply String.eqb_neq in E. cbn [map fst]. constructor; [|now apply IH].
      intros Hin. apply in_map_iff in Hin. destruct Hin as ([k1 v1] & Hk & Hin).
      cbn [fst] in Hk. subst k1.
      destruct (map_set_In m k v k0 v1 Hin) as [[Hk _]|Hold].
      * now apply E.
      * apply Hnotin. apply in_map_iff. now exists (k0, v1).
Qed.

Lemma flat_map_empty {A B : Type} (f : A -> list B) (l : list A) :
  flat_map f l = [] -> forall x, In x l -> f x = [].
Proof.
  intros Hnil x Hx. destruct (f x) as [|y ys] eqn:E; [reflexivity|].
  assert (Hy : In y (flat_map f l)).
  { apply in_flat_map. exists x. split; [assumption|]. rewrite E. now left. }
  rewrite Hnil in Hy. destruct Hy.
Qed.

Section Admission.

Variable calculateDistance : Q -> Q -> Q -> Q -> Q.
Variable cosDeg : Q -> Q.
Variable isWithinKosovo : Q -> Q -> bool.
Variable checkRestrictedZone : Q -> Q -> Q -> list Violation.

Abbreviation validate :=
  (validateFlightRequest calculateDistance cosDeg isWithinKosovo checkRestrictedZone).
Abbreviation post :=
  (postFlight calculateDistance cosDeg isWithinKosovo checkRestrictedZone).

(** A request that passes validation conflicts with no stored flight. *)
Lemma valid_no_conflicts (mongo : option (list Flight)) (flights : Store) (now : Z)
    (fd : FlightData) :
  isValid (validate mongo flights now fd) = true ->
  checkFlightConflicts calculateDistance cosDeg mongo flights fd None = [].
Proof.
  unfold validateFlightRequest. cbn zeta. cbn [isValid]. unfold trafficCheck. cbn zeta.
  destruct (checkFlightConflicts _ _ _ _ _ _) as [|c cs]; [reflexivity|].
  rewrite pushAll_spec. cbn [snd invalidate]. discriminate.
Qed.

Lemma conflictWith_empty (fd : FlightData) (f : Flight) :
  conflictWith calculateDistance cosDeg fd f = [] ->
  altitudeOverlap (maxAltitude fd) (maxAltitude (data f))
  && hasConflict (checkSpatialConflict calculateDistance cosDeg fd (data f)) = false.
Proof.
  unfold conflictWith.
  destruct (altitudeOverlap _ _); cbn [negb andb]; [|reflexivity].
  destruct (checkSpatialConflict _ _ _ _); [reflexivity|discriminate].
Qed.

(** Without reported conflicts, the request conflicts with no stored flight
    that reserves airspace. *)
Lemma no_conflicts_pairwise (flights : Store) (fd : FlightData) :
  checkFlightConflicts calculateDistance cosDeg None flights fd None = [] ->
  forall k f,
    In (k, f) flights -> live f = true ->
    inConflict calculateDistance cosDeg fd (data f) = false.
Proof.
  intros Hnone k f Hin Hlive. unfold inConflict.
  destruct (timeOverlap fd (data f)) eqn:Etime; [|reflexivity].
  cbn [andb]. rewrite <- andb_assoc, <- hasConflict_spec.
  apply conflictWith_empty.
  apply (flat_map_empty _ _ Hnone).
  apply existingFlights_memory. unfold timeOverlap in Etime.
  apply andb_true_iff in Etime. destruct Etime as [E1 E2].
  apply Z.ltb_lt in E1. rewrite Z.gtb_ltb in E2. apply Z.ltb_lt in E2.
  repeat split; try assumption.
  - unfold map_values. apply in_map_iff. now exists (k, f).
  - now apply live_not_terminal.
  - discriminate.
Qed.

Hypothesis calculateDistance_sym :
  forall lat1 lng1 lat2 lng2,
    calculateDistance lat1 lng1 lat2 lng2 == calculateDistance lat2 lng2 lat1 lng1.

Lemma postFlight_conflictFree (flights : Store) (now : Z) (newId user : string)
    (fd : FlightData) :
  conflictFree calculateDistance cosDeg flights ->
  conflictFree calculateDistance cosDeg (fst (post flights now newId user fd)).
Proof.
  intros Hfree. unfold postFlight. cbn zeta. cbn [fst id].
  set (v := validate None flights now fd).
  set (flight := mkFlight newId user fd _ (Some v) 0).
  assert (Hnew : live flight = true ->
                 forall k f, In (k, f) flights -> live f = true ->
                   inConflict calculateDistance cosDeg fd (data f) = false).
  { intros Hlive. apply no_conflicts_pairwise, valid_no_conflicts with (now := now).
    fold v. subst flight. unfold live in Hlive. cbn [status] in Hlive.
    destruct (isValid v); [reflexivity|discriminate Hlive]. }
  intros k1 f1 k2 f2 H1 H2 Hne Hl1 Hl2.
  destruct (map_set_In _ _ _ _ _ H1) as [[-> ->]|Hold1];
    destruct (map_set_In _ _ _ _ _ H2) as [[-> ->]|Hold2].
  - now contradiction Hne.
  - exact (Hnew Hl1 k2 f2 Hold2 Hl2).
  - rewrite (inConflict_sym calculateDistance cosDeg calculateDistance_sym).
    exact (Hnew Hl2 k1 f1 Hold1 Hl1).
  - exact (Hfree k1 f1 k2 f2 Hold1 Hold2 Hne Hl1 Hl2).
Qed.

Lemma postFlight_statuses (flights : Store) (now : Z) (newId user : string)
    (fd : FlightData) :
  (forall k f, In (k, f) flights ->
     id f = k /\ (status f = PENDING \/ status f = REJECTED)) ->
  forall k f, In (k, f) (fst (post flights now newId user fd)) ->
    id f = k /\ (status f = PENDING \/ status f = REJECTED).
Proof.
  intros Hold k f Hin. unfold postFlight in Hin. cbn zeta in Hin. cbn [fst id] in Hin.
  destruct (map_set_In _ _ _ _ _ Hin) as [[-> ->]|Hin'].
  - cbn [id status]. split; [reflexivity|].
    destruct (isValid _); [now left|now right].
  - now apply Hold.
Qed.

Lemma submitAll_invariant (subs : list Submission) :
  forall flights,
    NoDup (map fst flights)
    /\ (forall k f, In (k, f) flights ->
          id f = k /\ (status f = PENDING \/ status f = REJECTED))
    /\ conflictFree calculateDistance cosDeg flights ->
    NoDup (map fst (submitAll calculateDistance cosDeg isWithinKosovo
                              checkRestrictedZone subs flights))
    /\ (forall k f,
          In (k, f) (submitAll calculateDistance cosDeg isWithinKosovo
                               checkRestrictedZone subs flights) ->
          id f = k /\ (status f = PENDING \/ status f = REJECTED))
    /\ conflictFree calculateDistance cosDeg
         (submitAll calculateDistance cosDeg isWithinKosovo checkRestrictedZone
                    subs flights).
Proof.
  induction subs as [|s subs IH]; intros flights (Hnd & Hst & Hfree).
  - split; [assumption|split; assumption].
  - cbn [submitAll fold_left]. apply IH. split; [|split].
    + unfold postFlight. cbn zeta. cbn [fst]. now apply map_set_NoDup.
    + now apply postFlight_statuses.
    + now apply postFlight_conflictFree.
Qed.

(** What admission does guarantee.  Starting from the empty registry, after
    any sequence of submissions processed one after the other, every stored
    flight sits under a key of its own, is pending (admitted) or rejected,
    and no two stored flights whose status is pending, approved or active
    fail the conflict test as the code runs it: overlapping windows,
    representative altitudes less than 30 m apart, bounding boxes of
    [getFlightBounds] within the buffer, and then one of the separation
    tests.  Pairs whose bounding boxes are apart are not covered. *)
Theorem submitAll_conflictFree (subs : list Submission) :
  let flights :=
    submitAll calculateDistance cosDeg isWithinKosovo checkRestrictedZone subs [] in
  NoDup (map fst flights)
  /\ (forall k f, In (k, f) flights ->
        id f = k /\ (status f = PENDING \/ status f = REJECTED))
  /\ conflictFree calculateDistance cosDeg flights.
Proof.
  cbn zeta. apply submitAll_invariant. split; [|split].
  - constructor.
  - intros k f [].
  - intros k1 f1 k2 f2 [].
Qed.

End Admission.

Lemma meridianDistance_sym (lat1 lng1 lat2 lng2 : Q) :
  meridianDistance lat1 lng1 lat2 lng2 == meridianDistance lat2 lng2 lat1 lng1.
Proof.
  unfold meridianDistance.
  rewrite (Qabs_Qminus lat2 lat1), (Qabs_Qminus lng2 lng1). reflexivity.
Qed.

Lemma submitAll_conflictFree_witness :
  conflictFree meridianDistance cosUnit
    (submitAll meridianDistance cosUnit everywhereInside noZones
       [mkSubmission 0 "flight_1" "pilot" flightA;
        mkSubmission 1 "flight_2" "pilot" (flightB waypointB 110);
        mkSubmission 2 "flight_3" "pilot" (flightB waypointB 70)]
       []).
Proof.
  apply (submitAll_conflictFree meridianDistance cosUnit everywhereInside noZones
           meridianDistance_sym
           [mkSubmission 0 "flight_1" "pilot" flightA;
            mkSubmission 1 "flight_2" "pilot" (flightB waypointB 110);
            mkSubmission 2 "flight_3" "pilot" (flightB waypointB 70)]).
Defined.

(** The run of the witness: A is admitted, B at 110 m is rejected, B at 70 m
    is admitted. *)
Example submitAll_run :
  map (fun kv => (fst kv, status (snd kv)))
      (submitAll meridianDistance cosUnit everywhereInside noZones
         [mkSubmission 0 "flight_1" "pilot" flightA;
          mkSubmission 1 "flight_2" "pilot" (flightB waypointB 110);
          mkSubmission 2 "flight_3" "pilot" (flightB waypointB 70)]
         [])
  = [("flight_1"%string, PENDING); ("flight_2"%string, REJECTED);
     ("flight_3"%string, PENDING)].
Proof. vm_compute. reflexivity. Qed.

(** The code's conflict test implies the forbidden pair of the invariant; the
    converse is what the bounding-box step breaks. *)
Lemma inConflict_forbiddenPair (calculateDistance : Q -> Q -> Q -> Q -> Q)
    (cosDeg : Q -> Q) (f g : FlightData) :
  inConflict calculateDistance cosDeg f g = true ->
  forbiddenPair calculateDistance cosDeg f g = true.
Proof.
  unfold inConflict, forbiddenPair, separationViolated, withinThresholds.
  destruct (timeOverlap f g); [|discriminate].
  destruct (altitudeOverlap _ _); [|discriminate]. cbn [andb].
  destruct (boundsOverlap _ _ _); [|discriminate]. cbn [andb].
  destruct (operationArea f) as [[c1 r1|c1 b1]|], (operationArea g) as [[c2 r2|c2 b2]|];
    intros H; exact H.
Qed.

(** C1.  The separation invariant does not hold of the registry: a flight
    that flies over a waypoint and also declares a circular operation area
    elsewhere, and a second flight over the same waypoint in the same window
    at the same altitude, submitted in either order, are both admitted as
    pending.  Their windows overlap, their altitudes are equal, and their
    paths share a sample (distance 0 m, below the 200 m threshold): a pair
    the invariant forbids.  The code reports no conflict because
    [checkSpatialConflict] first compares the bounding boxes of
    [getFlightBounds], which for the first flight is the box of its area
    alone, and returns before any path test is run. *)
Theorem submitAll_admits_forbidden_pair :
  let run subs :=
    map (fun kv => (fst kv, status (snd kv), data (snd kv)))
        (submitAll meridianDistance cosUnit everywhereInside noZones subs []) in
  run [mkSubmission 0 "flight_1" "pilot" flightWithFarArea;
       mkSubmission 1 "flight_2" "pilot" flightA]
  = [("flight_1"%string, PENDING, flightWithFarArea); ("flight_2"%string, PENDING, flightA)]
  /\ run [mkSubmission 0 "flight_1" "pilot" flightA;
          mkSubmission 1 "flight_2" "pilot" flightWithFarArea]
     = [("flight_1"%string, PENDING, flightA); ("flight_2"%string, PENDING, flightWithFarArea)]
  /\ timeOverlap flightWithFarArea flightA = true
  /\ altitudeOverlap (maxAltitude flightWithFarArea) (maxAltitude flightA) = true
  /\ In waypointA (pathSamples meridianDistance flightWithFarArea)
  /\ In waypointA (pathSamples meridianDistance flightA)
  /\ Qltb (meridianDistance (lat waypointA) (lng waypointA) (lat waypointA) (lng waypointA))
          minimumSeparation = true
  /\ forbiddenPair meridianDistance cosUnit flightWithFarArea flightA = true
  /\ forbiddenPair meridianDistance cosUnit flightA flightWithFarArea = true
  /\ boundsOverlap (getFlightBounds cosUnit flightWithFarArea)
                   (getFlightBounds cosUnit flightA) defaultBuffer = false
  /\ checkSpatialConflict meridianDistance cosUnit flightWithFarArea flightA = NoConflict
  /\ checkSpatialConflict meridianDistance cosUnit flightA flightWithFarArea = NoConflict.
Proof.
  cbn zeta. repeat split; try (vm_compute; reflexivity); vm_compute; now left.
Qed.

(** ** The admission scenario *)

Lemma extendsReport_In (stage : VState -> VState) (c : Check) (st : VState) :
  extendsReport stage -> In c (fst st) -> In c (fst (stage st)).
Proof.
  intros H Hc. destruct (H st) as (added & E & _). rewrite E. cbn [fst].
  apply in_or_app. now left.
Qed.

Section Scenario.

Variable calculateDistance : Q -> Q -> Q -> Q -> Q.
Variable cosDeg : Q -> Q.
Variable isWithinKosovo : Q -> Q -> bool.
Variable checkRestrictedZone : Q -> Q -> Q -> list Violation.

Variable fA : Flight.
Variable pB : LatLng.
Variable now : Z.
Variables idB user : string.

Hypothesis fA_data : data fA = flightA.
Hypothesis fA_live : live fA = true.
Hypothesis pB_lat : Qabs (lat pB - lat waypointA) <= 1 # 100.
Hypothesis pB_lng : Qabs (lng pB - lng waypointA) <= 1 # 100.
Hypothesis pB_distance :
  calculateDistance (lat pB) (lng pB) (lat waypointA) (lng waypointA) == 150.

Abbreviation validate :=
  (validateFlightRequest calculateDistance cosDeg isWithinKosovo checkRestrictedZone).
Abbreviation post :=
  (postFlight calculateDistance cosDeg isWithinKosovo checkRestrictedZone).

Lemma scenario_bounds (altitude : Q) :
  boundsOverlap (getFlightBounds cosDeg (flightB pB altitude))
                (getFlightBounds cosDeg flightA) defaultBuffer = true.
Proof.
  apply Qabs_Qle_condition in pB_lat, pB_lng.
  cbn [lat lng waypointA] in pB_lat, pB_lng.
  cbn. unfold Qgtb, defaultBuffer.
  apply negb_true_iff. rewrite !orb_false_iff.
  repeat split; apply Qltb_ge; lra.
Qed.

Lemma scenario_spatial (altitude : Q) :
  checkSpatialConflict calculateDistance cosDeg (flightB pB altitude) flightA
  = SomeConflict
      (calculateDistance (lat pB) (lng pB) (lat waypointA) (lng waypointA))
      path_proximity.
Proof.
  unfold checkSpatialConflict. rewrite scenario_bounds. cbn [negb].
  cbn [areaCheck flightB flightA operationArea pathSamples waypoints
       generatePathSamples sampleFrom pathEntersArea minPairDistance fold_left
       updateMin getDistance].
  assert (H : Qltb (calculateDistance (lat pB) (lng pB) (lat waypointA) (lng waypointA))
                   minimumSeparation = true).
  { apply Qltb_lt. rewrite pB_distance. reflexivity. }
  unfold getDistance. rewrite H. reflexivity.
Qed.

Lemma scenario_candidates (altitude : Q) :
  existingFlights None [(id fA, fA)] (flightB pB altitude) None = [fA].
Proof.
  unfold existingFlights, map_values. cbn [map snd filter].
  assert (H : memoryFilter (scheduledStart (flightB pB altitude))
                           (scheduledEnd (flightB pB altitude)) None fA = true).
  { apply memoryFilter_spec. rewrite fA_data. repeat split.
    - now apply live_not_terminal.
    - discriminate. }
  now rewrite H.
Qed.

Lemma scenario_conflicts_110 :
  checkFlightConflicts calculateDistance cosDeg None [(id fA, fA)] (flightB pB 110) None
  = [mkConflict (id fA) path_proximity 150 (hm 10 0) (hm 10 30)].
Proof.
  unfold checkFlightConflicts. rewrite scenario_candidates.
  cbn [flat_map app]. unfold conflictWith. rewrite fA_data.
  replace (altitudeOverlap (maxAltitude (flightB pB 110)) (maxAltitude flightA))
    with true by reflexivity.
  cbn [negb]. rewrite scenario_spatial. rewrite app_nil_r.
  unfold round. rewrite pB_distance. reflexivity.
Qed.

Lemma scenario_conflicts_140 :
  checkFlightConflicts calculateDistance cosDeg None [(id fA, fA)] (flightB pB 140) None
  = [].
Proof.
  unfold checkFlightConflicts. rewrite scenario_candidates.
  cbn [flat_map app]. unfold conflictWith. rewrite fA_data.
  replace (altitudeOverlap (maxAltitude (flightB pB 140)) (maxAltitude flightA))
    with false by reflexivity.
  reflexivity.
Qed.

(** C2, as the code has it.  With flight A (one waypoint, 100 m, 10:00 to
    10:30) stored in a status that reserves airspace, and B's one waypoint
    150 m from A's with window 10:15 to 10:45: at 110 m, B's report holds a
    traffic_conflict entry of severity error naming A, isValid is false, B is
    stored as rejected and is a conflict candidate in no later query; at
    140 m, no conflict is reported and the traffic_conflict entry passes, but
    140 m exceeds the ceiling of 120 m, so the altitude_check entry has
    severity error, isValid is false and B is stored as rejected. *)
Theorem scenario_B :
  let flights := [(id fA, fA)] in
  (let r := post flights now idB user (flightB pB 110) in
   let v := validate None flights now (flightB pB 110) in
   validation (snd r) = Some v
   /\ In (mkCheck "traffic_conflict" false error
                  (Some (mkConflict (id fA) path_proximity 150 (hm 10 0) (hm 10 30))))
         (checks v)
   /\ isValid v = false
   /\ status (snd r) = REJECTED
   /\ forall mongo newFlight excludeId,
        ~ In (snd r) (existingFlights mongo (fst r) newFlight excludeId))
  /\ (let r := post flights now idB user (flightB pB 140) in
      let v := validate None flights now (flightB pB 140) in
      validation (snd r) = Some v
      /\ checkFlightConflicts calculateDistance cosDeg None flights (flightB pB 140) None
         = []
      /\ In (mkCheck "traffic_conflict" true info None) (checks v)
      /\ In (mkCheck "altitude_check" false error None) (checks v)
      /\ isValid v = false
      /\ status (snd r) = REJECTED).
Proof.
  cbn zeta. split.
  - assert (Hchecks :
      In (mkCheck "traffic_conflict" false error
                  (Some (mkConflict (id fA) path_proximity 150 (hm 10 0) (hm 10 30))))
         (checks (validate None [(id fA, fA)] now (flightB pB 110)))
      /\ isValid (validate None [(id fA, fA)] now (flightB pB 110)) = false).
    { unfold validateFlightRequest. cbn zeta. cbn [checks isValid].
      unfold trafficCheck. cbn zeta. rewrite scenario_conflicts_110.
      rewrite pushAll_spec. cbn [fst snd invalidate map]. split; [|reflexivity].
      apply in_or_app. right. now left. }
    destruct Hchecks as [Hin Hinvalid].
    unfold postFlight. cbn zeta. cbn [snd fst validation status]. rewrite Hinvalid.
    repeat split; try assumption.
    intros mongo newFlight excludeId Hcand.
    apply existingFlights_not_terminal in Hcand. discriminate Hcand.
  - assert (Hreport :
      In (mkCheck "traffic_conflict" true info None)
         (checks (validate None [(id fA, fA)] now (flightB pB 140)))
      /\ In (mkCheck "altitude_check" false error None)
            (checks (validate None [(id fA, fA)] now (flightB pB 140)))).
    { unfold validateFlightRequest. cbn zeta. cbn [checks]. split.
      - unfold trafficCheck. cbn zeta. rewrite scenario_conflicts_140.
        unfold push. cbn [fst]. apply in_or_app. right. now left.
      - apply extendsReport_In; [apply trafficCheck_extends|].
        apply extendsReport_In; [apply daylightCheck_extends|].
        apply extendsReport_In; [apply timeCheck_extends|].
        apply extendsReport_In; [apply zoneCheck_extends|].
        unfold altitudeCheck.
        replace (exceeds (maxAltitude (flightB pB 140)) maxAltitudeAGL)
          with true by reflexivity.
        unfold invalidate, push. cbn [fst]. apply in_or_app. right. now left. }
    destruct Hreport as [Htraffic Haltitude].
    assert (Hinvalid : isValid (validate None [(id fA, fA)] now (flightB pB 140)) = false).
    { destruct (validateFlightRequest_shape calculateDistance cosDeg isWithinKosovo
                  checkRestrictedZone None [(id fA, fA)] now (flightB pB 140))
        as [Hvalid _].
      cbn zeta in Hvalid. rewrite Hvalid. unfold errorFree.
      apply not_true_is_false. intros Hall.
      rewrite forallb_forall in Hall. specialize (Hall _ Haltitude).
      discriminate Hall. }
    unfold postFlight. cbn zeta. cbn [snd fst validation status]. rewrite Hinvalid.
    repeat split; try assumption.
    apply scenario_conflicts_140.
Qed.

End Scenario.

Lemma scenario_B_witness :
  status (snd (postFlight meridianDistance cosUnit everywhereInside noZones
                 [("flight_1"%string, storedA PENDING)] 0 "flight_2" "pilot"
                 (flightB waypointB 110)))
  = REJECTED
  /\ status (snd (postFlight meridianDistance cosUnit everywhereInside noZones
                    [("flight_1"%string, storedA PENDING)] 0 "flight_2" "pilot"
                    (flightB waypointB 140)))
     = REJECTED.
Proof.
  assert (Hlat : Qabs (lat waypointB - lat waypointA) <= 1 # 100)
    by (apply Qle_bool_iff; vm_compute; reflexivity).
  assert (Hlng : Qabs (lng waypointB - lng waypointA) <= 1 # 100)
    by (apply Qle_bool_iff; vm_compute; reflexivity).
  assert (Hdist : meridianDistance (lat waypointB) (lng waypointB)
                                   (lat waypointA) (lng waypointA) == 150)
    by (apply Qeq_bool_iff; vm_compute; reflexivity).
  destruct (scenario_B meridianDistance cosUnit everywhereInside noZones
              (storedA PENDING) waypointB 0 "flight_2" "pilot"
              eq_refl eq_refl Hlat Hlng Hdist)
    as [(_ & _ & _ & H110 & _) (_ & _ & _ & _ & _ & H140)].
  split; [exact H110|exact H140].
Defined.

(** C2, as the claim has it, fails in its second half: at 140 m no conflict
    with A is found, yet B is not stored as pending. *)
Lemma scenario_B_140_not_pending :
  checkFlightConflicts meridianDistance cosUnit None
    [("flight_1"%string, storedA PENDING)] (flightB waypointB 140) None = []
  /\ status (snd (postFlight meridianDistance cosUnit everywhereInside noZones
                    [("flight_1"%string, storedA PENDING)] 0 "flight_2" "pilot"
                    (flightB waypointB 140)))
     <> PENDING.
Proof.
  split.
  - vm_compute. reflexivity.
  - vm_compute. intros H. discriminate H.
Qed.

(** * Further properties of the flight routes *)

(** ** The spatial test *)

Section SpatialFacts.

Variable calculateDistance : Q -> Q -> Q -> Q -> Q.
Variable cosDeg : Q -> Q.

(** X1.  With a symmetric distance, [checkSpatialConflict] finds a conflict
    between two flights whichever of the two is given first. *)
Theorem checkSpatialConflict_symmetric (f g : FlightData) :
  (forall lat1 lng1 lat2 lng2,
      calculateDistance lat1 lng1 lat2 lng2 == calculateDistance lat2 lng2 lat1 lng1) ->
  hasConflict (checkSpatialConflict calculateDistance cosDeg f g)
  = hasConflict (checkSpatialConflict calculateDistance cosDeg g f).
Proof.
  intros Hsym. rewrite !hasConflict_spec, boundsOverlap_sym.
  now rewrite (separationViolated_sym calculateDistance Hsym).
Qed.

Lemma getFlightBounds_no_geometry (f : FlightData) :
  operationArea f = None -> waypoints f = None \/ waypoints f = Some [] ->
  getFlightBounds cosDeg f = None.
Proof.
  intros Harea Hwps. unfold getFlightBounds, waypointBounds. rewrite Harea.
  destruct Hwps as [-> | ->]; reflexivity.
Qed.

(** X2.  A request with no operation area and no waypoint has no bounding
    box: the spatial test finds no conflict between it and any flight, in
    either order, and [checkFlightConflicts] reports nothing for it whatever
    the registry holds. *)
Theorem checkSpatialConflict_no_geometry (f : FlightData) :
  operationArea f = None -> waypoints f = None \/ waypoints f = Some [] ->
  (forall g,
      checkSpatialConflict calculateDistance cosDeg f g = NoConflict
      /\ checkSpatialConflict calculateDistance cosDeg g f = NoConflict)
  /\ (forall mongo flights excludeId,
      checkFlightConflicts calculateDistance cosDeg mongo flights f excludeId = []).
Proof.
  intros Harea Hwps.
  assert (Hleft : forall g, checkSpatialConflict calculateDistance cosDeg f g = NoConflict).
  { intros g. unfold checkSpatialConflict.
    now rewrite (getFlightBounds_no_geometry f Harea Hwps). }
  split.
  - intros g. split; [apply Hleft|].
    unfold checkSpatialConflict.
    rewrite (getFlightBounds_no_geometry f Harea Hwps).
    now destruct (getFlightBounds cosDeg g).
  - intros mongo flights excludeId. unfold checkFlightConflicts.
    induction (existingFlights mongo flights f excludeId) as [|e es IH]; [reflexivity|].
    cbn [flat_map]. rewrite IH, app_nil_r. unfold conflictWith.
    rewrite Hleft. now destruct (negb _).
Qed.

Lemma updateMin_fold (l : list Q) :
  forall acc,
    match fold_left updateMin l acc with
    | None => acc = None /\ l = []
    | Some m =>
        (acc = Some m \/ In m l)
        /\ (forall a, acc = Some a -> m <= a)
        /\ (forall x, In x l -> m <= x)
    end.
Proof.
  induction l as [|x l IH]; intros acc.
  - cbn. destruct acc as [a|]; [|now split].
    repeat split.
    + now left.
    + intros a' H. injection H as <-. apply Qle_refl.
    + intros y [].
  - cbn [fold_left]. specialize (IH (updateMin acc x)).
    destruct (fold_left updateMin l (updateMin acc x)) as [m|].
    + destruct IH as (Hin & Hacc & Hall).
      destruct acc as [a|]; cbn [updateMin] in *.
      * destruct (Qltb x a) eqn:E.
        -- apply Qltb_lt in E. pose proof (Hacc x eq_refl) as Hmx.
           repeat split.
           ++ destruct Hin as [H|H]; [injection H as <-|]; right; [now left|now right].
           ++ intros a' H. injection H as <-.
              apply Qle_trans with x; [assumption|now apply Qlt_le_weak].
           ++ intros y [<-|Hy]; [assumption|now apply Hall].
        -- apply Qltb_ge in E. pose proof (Hacc a eq_refl) as Hma.
           repeat split.
           ++ destruct Hin as [H|H]; [now left|right; now right].
           ++ intros a' H. injection H as <-. assumption.
           ++ intros y [<-|Hy]; [now apply Qle_trans with a|now apply Hall].
      * pose proof (Hacc x eq_refl) as Hmx. repeat split.
        -- destruct Hin as [H|H]; [injection H as <-|]; right; [now left|now right].
        -- intros a H. discriminate H.
        -- intros y [<-|Hy]; [assumption|now apply Hall].
    + destruct IH as [H _]. destruct acc as [a|]; cbn [updateMin] in H.
      * destruct (Qltb x a); discriminate H.
      * discriminate H.
Qed.

Lemma minPairDistance_flat (samples1 samples2 : list LatLng) :
  forall acc,
    fold_left
      (fun acc0 s1 =>
         fold_left
           (fun acc' s2 =>
              updateMin acc' (getDistance calculateDistance (lat s1) (lng s1) (lat s2) (lng s2)))
           samples2 acc0)
      samples1 acc
    = fold_left updateMin
        (flat_map
           (fun s1 =>
              map (fun s2 => calculateDistance (lat s1) (lng s1) (lat s2) (lng s2)) samples2)
           samples1)
        acc.
Proof.
  assert (Hinner : forall (s1 : LatLng) (l : list LatLng) acc,
             fold_left
               (fun acc' s2 =>
                  updateMin acc'
                    (getDistance calculateDistance (lat s1) (lng s1) (lat s2) (lng s2)))
               l acc
             = fold_left updateMin
                 (map (fun s2 => calculateDistance (lat s1) (lng s1) (lat s2) (lng s2)) l)
                 acc).
  { intros s1 l. induction l as [|s2 l IH]; intros acc; [reflexivity|].
    cbn [fold_left map]. apply IH. }
  induction samples1 as [|s1 samples1 IH]; intros acc; [reflexivity|].
  cbn [fold_left flat_map]. rewrite fold_left_app, IH, Hinner. reflexivity.
Qed.

(** X3.  [minDistance] of the path check is the least distance between a
    sample of the first path and a sample of the second: it is one of those
    distances and none is smaller; it stays [Infinity] only when one of the
    two paths has no sample. *)
Theorem minPairDistance_minimum (samples1 samples2 : list LatLng) :
  match minPairDistance calculateDistance samples1 samples2 with
  | None => samples1 = [] \/ samples2 = []
  | Some m =>
      (exists s1 s2,
          In s1 samples1 /\ In s2 samples2
          /\ m = calculateDistance (lat s1) (lng s1) (lat s2) (lng s2))
      /\ (forall s1 s2,
          In s1 samples1 -> In s2 samples2 ->
          m <= calculateDistance (lat s1) (lng s1) (lat s2) (lng s2))
  end.
Proof.
  unfold minPairDistance. rewrite minPairDistance_flat.
  pose proof (updateMin_fold
                (flat_map
                   (fun s1 =>
                      map (fun s2 => calculateDistance (lat s1) (lng s1) (lat s2) (lng s2))
                          samples2)
                   samples1) None) as H.
  destruct (fold_left updateMin _ None) as [m|].
  - destruct H as (Hin & _ & Hall). split.
    + destruct Hin as [H|H]; [discriminate H|].
      apply in_flat_map in H. destruct H as (s1 & Hs1 & H).
      apply in_map_iff in H. destruct H as (s2 & <- & Hs2).
      now exists s1, s2.
    + intros s1 s2 Hs1 Hs2. apply Hall. apply in_flat_map. exists s1.
      split; [assumption|]. apply in_map_iff. now exists s2.
  - destruct H as [_ H]. destruct samples1 as [|s1 l1]; [now left|].
    destruct samples2 as [|s2 l2]; [now right|]. discriminate H.
Qed.

End SpatialFacts.

Lemma checkSpatialConflict_symmetric_witness :
  hasConflict (checkSpatialConflict meridianDistance cosUnit (flightB waypointB 110) flightA)
  = hasConflict (checkSpatialConflict meridianDistance cosUnit flightA (flightB waypointB 110)).
Proof.
  apply (checkSpatialConflict_symmetric meridianDistance cosUnit
           (flightB waypointB 110) flightA meridianDistance_sym).
Defined.

Lemma checkSpatialConflict_no_geometry_witness :
  checkSpatialConflict meridianDistance cosUnit noGeometry flightA = NoConflict
  /\ checkFlightConflicts meridianDistance cosUnit None
       [("flight_1"%string, storedA PENDING)] noGeometry None = [].
Proof.
  destruct (checkSpatialConflict_no_geometry meridianDistance cosUnit noGeometry
              eq_refl (or_introl eq_refl)) as [Hpair Hnone].
  split; [apply Hpair|apply Hnone].
Defined.

Lemma minPairDistance_minimum_witness :
  exists m,
    minPairDistance meridianDistance [waypointB; waypointNorth] [waypointA] = Some m
    /\ m <= meridianDistance (lat waypointB) (lng waypointB) (lat waypointA) (lng waypointA).
Proof.
  pose proof (minPairDistance_minimum meridianDistance
                [waypointB; waypointNorth] [waypointA]) as H.
  destruct (minPairDistance meridianDistance [waypointB; waypointNorth] [waypointA])
    as [m|] eqn:E.
  - exists m. split; [reflexivity|].
    apply (proj2 H waypointB waypointA); [now left|now left].
  - destruct H as [H|H]; discriminate H.
Defined.

(** ** Conflicts and admission *)

Section AdmissionFacts.

Variable calculateDistance : Q -> Q -> Q -> Q -> Q.
Variable cosDeg : Q -> Q.
Variable isWithinKosovo : Q -> Q -> bool.
Variable checkRestrictedZone : Q -> Q -> Q -> list Violation.

(** X4.  [checkFlightConflicts] reports a conflict record exactly for the
    candidates whose altitude overlaps the request's and for which the
    spatial test finds a conflict; the record carries that flight's id and
    window, the conflict type and the rounded distance.  There is at most one
    record per candidate. *)
Theorem checkFlightConflicts_exact (mongo : option (list Flight)) (flights : Store)
    (newFlight : FlightData) (excludeId : option string) :
  (forall c,
      In c (checkFlightConflicts calculateDistance cosDeg mongo flights newFlight excludeId)
      <-> exists f minDistance type,
            In f (existingFlights mongo flights newFlight excludeId)
            /\ altitudeOverlap (maxAltitude newFlight) (maxAltitude (data f)) = true
            /\ checkSpatialConflict calculateDistance cosDeg newFlight (data f)
               = SomeConflict minDistance type
            /\ c = mkConflict (id f) type (round minDistance)
                              (scheduledStart (data f)) (scheduledEnd (data f)))
  /\ (List.length
        (checkFlightConflicts calculateDistance cosDeg mongo flights newFlight excludeId)
      <= List.length (existingFlights mongo flights newFlight excludeId))%nat.
Proof.
  unfold checkFlightConflicts. split.
  - intros c. rewrite in_flat_map. split.
    + intros (f & Hf & Hc). unfold conflictWith in Hc.
      destruct (altitudeOverlap _ _) eqn:Ealt; cbn [negb] in Hc; [|destruct Hc].
      destruct (checkSpatialConflict _ _ _ _) as [|d t] eqn:Esp; [destruct Hc|].
      destruct Hc as [<-|[]]. now exists f, d, t.
    + intros (f & d & t & Hf & Ealt & Esp & ->). exists f. split; [assumption|].
      unfold conflictWith. rewrite Ealt, Esp. now left.
  - induction (existingFlights mongo flights newFlight excludeId) as [|e es IH].
    + apply le_n.
    + cbn [flat_map]. rewrite length_app. cbn [List.length].
      assert (Hone : (List.length (conflictWith calculateDistance cosDeg newFlight e) <= 1)%nat).
      { unfold conflictWith. destruct (negb _); [apply le_0_n|].
        destruct (checkSpatialConflict _ _ _ _); [apply le_0_n|apply le_n]. }
      lia.
Qed.

Lemma borderCheck_valid (fd : FlightData) (st : VState) :
  snd (borderCheck isWithinKosovo fd st)
  = snd st && forallb (fun wp => isWithinKosovo (lat wp) (lng wp)) (requestWaypoints fd).
Proof.
  unfold borderCheck, requestWaypoints.
  destruct (waypoints fd) as [[|w ws]|]; try (cbn; now rewrite andb_true_r).
  rewrite border_fold. now destruct (negb _).
Qed.

Lemma zoneCheck_valid (fd : FlightData) (st : VState) :
  snd (zoneCheck checkRestrictedZone fd st)
  = snd st && negb (existsb (fun v => isError (violation_severity v))
                            (zoneViolationsOf checkRestrictedZone fd)).
Proof.
  unfold zoneCheck, zoneViolationsOf. cbn zeta.
  set (vs := flat_map _ (zonePoints fd)).
  assert (Hfilter : forall l : list Violation,
             match filter (fun v => isError (violation_severity v)) l with
             | [] => existsb (fun v => isError (violation_severity v)) l = false
             | _ :: _ => existsb (fun v => isError (violation_severity v)) l = true
             end).
  { induction l as [|v l IH]; [reflexivity|]. cbn [filter existsb].
    destruct (isError (violation_severity v)); [reflexivity|exact IH]. }
  specialize (Hfilter vs).
  destruct vs as [|v vs']; [cbn; now rewrite andb_true_r|].
  set (l := v :: vs') in *.
  destruct (filter (fun v0 => isError (violation_severity v0)) l);
    rewrite Hfilter, ?pushAll_spec; cbn [snd invalidate negb].
  - now rewrite andb_true_r.
  - now rewrite andb_false_r.
Qed.

(** X5.  A request is valid exactly when it passes its own checks (every
    waypoint and the area's centre inside the border, altitude within the
    ceiling, no zone violation of severity error, start not in the past) and
    [checkFlightConflicts] reports nothing; the daylight check plays no
    part. *)
Theorem validateFlightRequest_valid_iff (mongo : option (list Flight)) (flights : Store)
    (now : Z) (fd : FlightData) :
  isValid (validateFlightRequest calculateDistance cosDeg isWithinKosovo
             checkRestrictedZone mongo flights now fd)
  = passesOwnChecks isWithinKosovo checkRestrictedZone now fd
    && match checkFlightConflicts calculateDistance cosDeg mongo flights fd None with
       | [] => true
       | _ :: _ => false
       end.
Proof.
  unfold validateFlightRequest, passesOwnChecks. cbn zeta. cbn [isValid].
  assert (Htraffic : forall st,
             snd (trafficCheck calculateDistance cosDeg mongo flights fd st)
             = snd st
               && match checkFlightConflicts calculateDistance cosDeg mongo flights fd None
                  with [] => true | _ :: _ => false end).
  { intros st. unfold trafficCheck. cbn zeta.
    destruct (checkFlightConflicts _ _ _ _ _ _).
    - cbn. now rewrite andb_true_r.
    - rewrite pushAll_spec. cbn. now rewrite andb_false_r. }
  assert (Hday : forall st, snd (daylightCheck fd st) = snd st).
  { intros st. unfold daylightCheck. cbn zeta. now destruct (_ || _). }
  assert (Htime : forall st,
             snd (timeCheck now fd st) = snd st && negb (scheduledStart fd <? now)%Z).
  { intros st. unfold timeCheck. destruct (_ <? _)%Z; cbn.
    - now rewrite andb_false_r.
    - now rewrite andb_true_r. }
  assert (Halt : forall st,
             snd (altitudeCheck fd st)
             = snd st && negb (exceeds (maxAltitude fd) maxAltitudeAGL)).
  { intros st. unfold altitudeCheck. destruct (exceeds _ _); cbn.
    - now rewrite andb_false_r.
    - now rewrite andb_true_r. }
  assert (Harea : forall st,
             snd (areaBorderCheck isWithinKosovo fd st)
             = snd st
               && match operationArea fd with
                  | Some area =>
                      match center area with
                      | Some c => isWithinKosovo (lat c) (lng c)
                      | None => true
                      end
                  | None => true
                  end).
  { intros st. unfold areaBorderCheck.
    destruct (operationArea fd) as [area|]; [destruct (center area) as [c|]|].
    - destruct (isWithinKosovo _ _); cbn.
      + now rewrite andb_true_r.
      + now rewrite andb_false_r.
    - now rewrite andb_true_r.
    - now rewrite andb_true_r. }
  rewrite Htraffic, Hday, Htime, zoneCheck_valid, Halt, Harea, borderCheck_valid.
  reflexivity.
Qed.

(** X6.  POST then lookup: the flight that POST answers with is the one stored
    under its id, its body is the request, its status is pending when the
    report is valid and rejected otherwise; every other id is stored as
    before, and the registry grows by one entry unless the id was in use. *)
Theorem postFlight_lookup (flights : Store) (now : Z) (newId user : string)
    (fd : FlightData) :
  let r := postFlight calculateDistance cosDeg isWithinKosovo checkRestrictedZone
             flights now newId user fd in
  let v := validateFlightRequest calculateDistance cosDeg isWithinKosovo
             checkRestrictedZone None flights now fd in
  map_get (fst r) newId = Some (snd r)
  /\ snd r = mkFlight newId user fd (if isValid v then PENDING else REJECTED) (Some v) 0
  /\ (forall k, k <> newId -> map_get (fst r) k = map_get flights k)
  /\ List.length (fst r)
     = match map_get flights newId with
       | Some _ => List.length flights
       | None => S (List.length flights)
       end.
Proof.
  cbn zeta. unfold postFlight. cbn zeta. cbn [fst snd id].
  split; [|split; [reflexivity|split]].
  - rewrite map_get_map_set, String.eqb_refl. reflexivity.
  - intros k Hk. rewrite map_get_map_set.
    destruct (String.eqb newId k) eqn:E; [|reflexivity].
    apply String.eqb_eq in E. now contradiction Hk.
  - set (flight := mkFlight newId user fd _ _ 0). clearbody flight.
    induction flights as [|[k0 f0] rest IH]; [reflexivity|].
    cbn [map_set map_get]. destruct (String.eqb k0 newId); [reflexivity|].
    cbn [List.length]. rewrite IH. now destruct (map_get rest newId).
Qed.

End AdmissionFacts.

Lemma postFlight_lookup_witness :
  map_get (fst (postFlight meridianDistance cosUnit everywhereInside noZones
                  [("flight_1"%string, storedA PENDING)] 0 "flight_2" "pilot"
                  (flightB waypointB 70)))
          "flight_1"
  = Some (storedA PENDING).
Proof.
  destruct (postFlight_lookup meridianDistance cosUnit everywhereInside noZones
              [("flight_1"%string, storedA PENDING)] 0 "flight_2" "pilot"
              (flightB waypointB 70)) as (_ & _ & Hother & _).
  rewrite (Hother "flight_1"%string).
  - reflexivity.
  - intros H. discriminate H.
Defined.

(** ** Status update, cancellation and the sweep *)

Lemma map_set_keys (m : Store) (k : string) (v f : Flight) :
  map_get m k = Some f -> map fst (map_set m k v) = map fst m.
Proof.
  induction m as [|[k0 v0] m IH]; cbn [map_get map_set]; [discriminate|].
  destruct (String.eqb k0 k) eqn:E.
  - intros _. apply String.eqb_eq in E. now subst k0.
  - intros H. cbn [map fst]. now rewrite IH.
Qed.

Lemma map_set_twice (m : Store) (k : string) (v v' : Flight) :
  map_set (map_set m k v) k v' = map_set m k v'.
Proof.
  induction m as [|[k0 v0] m IH]; cbn [map_set].
  - now rewrite String.eqb_refl.
  - destruct (String.eqb k0 k) eqn:E; cbn [map_set].
    + now rewrite String.eqb_refl.
    + now rewrite E, IH.
Qed.

(** X7.  The status update answers 404 for an unknown id.  For a flight
    stored under its own id it writes the given status and nothing else: the
    flight keeps its id, owner, body and report, every other id is stored as
    before, and the order of the registry is kept.  Repeating the update
    changes nothing, and of two updates the later one wins. *)
Theorem patchStatus_update (flights : Store) (key newStatus : string) :
  (map_get flights key = None -> patchStatus flights key newStatus = None)
  /\ (forall flight,
      map_get flights key = Some flight -> id flight = key ->
      exists flights',
        patchStatus flights key newStatus = Some flights'
        /\ map_get flights' key
           = Some (mkFlight (id flight) (userId flight) (data flight) newStatus
                            (validation flight) (currentWaypointIndex flight))
        /\ (forall k, k <> key -> map_get flights' k = map_get flights k)
        /\ map fst flights' = map fst flights
        /\ patchStatus flights' key newStatus = Some flights'
        /\ (forall later,
            patchStatus flights' key later = patchStatus flights key later)).
Proof.
  split.
  - intros Hnone. unfold patchStatus. now rewrite Hnone.
  - intros flight Hget Hid. unfold patchStatus at 1. rewrite Hget.
    cbn [setStatus id]. rewrite Hid.
    eexists. split; [reflexivity|].
    assert (Hlook : map_get (map_set flights key (setStatus flight newStatus)) key
                    = Some (setStatus flight newStatus))
      by (rewrite map_get_map_set, String.eqb_refl; reflexivity).
    unfold setStatus in *. rewrite Hid in *.
    split; [exact Hlook|]. split; [|split; [|split]].
    + intros k Hk. rewrite map_get_map_set.
      destruct (String.eqb key k) eqn:E; [|reflexivity].
      apply String.eqb_eq in E. now contradiction Hk.
    + exact (map_set_keys flights key _ flight Hget).
    + unfold patchStatus. rewrite Hlook. unfold setStatus.
      cbn [id userId data validation currentWaypointIndex].
      now rewrite map_set_twice.
    + intros later. unfold patchStatus. rewrite Hlook, Hget. unfold setStatus.
      cbn [id userId data validation currentWaypointIndex].
      now rewrite map_set_twice, Hid.
Qed.

Lemma patchStatus_update_witness :
  patchStatus [("flight_1"%string, storedA PENDING)] "flight_9" APPROVED = None
  /\ exists flights',
       patchStatus [("flight_1"%string, storedA PENDING)] "flight_1" APPROVED = Some flights'
       /\ patchStatus flights' "flight_1" APPROVED = Some flights'.
Proof.
  destruct (patchStatus_update [("flight_1"%string, storedA PENDING)] "flight_9" APPROVED)
    as [Hmissing _].
  destruct (patchStatus_update [("flight_1"%string, storedA PENDING)] "flight_1" APPROVED)
    as [_ Hfound].
  split.
  - apply Hmissing. reflexivity.
  - destruct (Hfound (storedA PENDING) eq_refl eq_refl)
      as (flights' & Hpatch & _ & _ & _ & Hagain & _).
    exists flights'. now split.
Defined.

(** X8.  Cancellation answers 404 for an unknown id and for a caller who is
    not the flight's owner.  For the owner of a flight stored under its own
    id, it stores the flight with status cancelled and everything else
    unchanged, leaves every other id as before, and from then on the flight
    is a candidate in no conflict query. *)
Theorem cancelFlight_owner (flights : Store) (key user : string) :
  (map_get flights key = None -> cancelFlight flights key user = None)
  /\ (forall flight,
      map_get flights key = Some flight -> userId flight <> user ->
      cancelFlight flights key user = None)
  /\ (forall flight,
      map_get flights key = Some flight -> userId flight = user -> id flight = key ->
      exists flights',
        cancelFlight flights key user = Some flights'
        /\ map_get flights' key
           = Some (mkFlight (id flight) (userId flight) (data flight) CANCELLED
                            (validation flight) (currentWaypointIndex flight))
        /\ (forall k, k <> key -> map_get flights' k = map_get flights k)
        /\ map fst flights' = map fst flights
        /\ (forall mongo newFlight excludeId f,
            In f (existingFlights mongo flights' newFlight excludeId) ->
            status f <> CANCELLED)).
Proof.
  split; [|split].
  - intros Hnone. unfold cancelFlight. now rewrite Hnone.
  - intros flight Hget Huser. unfold cancelFlight. rewrite Hget.
    apply String.eqb_neq in Huser. now rewrite Huser.
  - intros flight Hget Huser Hid. unfold cancelFlight. rewrite Hget.
    apply String.eqb_eq in Huser. rewrite Huser. unfold setStatus. cbn [negb id].
    rewrite Hid.
    eexists. split; [reflexivity|]. split; [|split; [|split]].
    + rewrite map_get_map_set, String.eqb_refl. reflexivity.
    + intros k Hk. rewrite map_get_map_set.
      destruct (String.eqb key k) eqn:E; [|reflexivity].
      apply String.eqb_eq in E. now contradiction Hk.
    + exact (map_set_keys flights key _ flight Hget).
    + intros mongo newFlight excludeId f Hin Hst.
      apply existingFlights_not_terminal in Hin.
      unfold terminal in Hin. rewrite Hst in Hin. discriminate Hin.
Qed.

Lemma cancelFlight_owner_witness :
  cancelFlight [("flight_1"%string, storedA PENDING)] "flight_9" "pilot" = None
  /\ cancelFlight [("flight_1"%string, storedA PENDING)] "flight_1" "intruder" = None
  /\ exists flights',
       cancelFlight [("flight_1"%string, storedA PENDING)] "flight_1" "pilot" = Some flights'
       /\ map fst flights' = ["flight_1"%string].
Proof.
  destruct (cancelFlight_owner [("flight_1"%string, storedA PENDING)] "flight_9" "pilot")
    as [Hmissing _].
  destruct (cancelFlight_owner [("flight_1"%string, storedA PENDING)] "flight_1" "intruder")
    as (_ & Hother & _).
  destruct (cancelFlight_owner [("flight_1"%string, storedA PENDING)] "flight_1" "pilot")
    as (_ & _ & Howner).
  split; [|split].
  - apply Hmissing. reflexivity.
  - apply (Hother (storedA PENDING)); [reflexivity|]. intros H. discriminate H.
  - destruct (Howner (storedA PENDING) eq_refl eq_refl eq_refl)
      as (flights' & Hcancel & _ & _ & Hkeys & _).
    exists flights'. now split.
Defined.

Ltac tick_case :=
  repeat (cbn; match goal with
               | |- context [if ?b then _ else _] => destruct b
               end);
  cbn; repeat split;
  first [ now left
        | right; left; split; [reflexivity|first [now left|now right]]
        | right; right; now split ].

Lemma tickFlight_step (now : Z) (reached : bool) (k : string) (f : Flight) :
  tickStep (k, f) (k, fst (tickFlight now reached f)).
Proof.
  destruct f as [i u d s v c].
  unfold tickStep, tickFlight, setStatus.
  cbn [fst snd id userId data status validation currentWaypointIndex].
  split; [reflexivity|]. cbn zeta.
  set (n := match waypoints d with Some wps => List.length wps | None => 0%nat end).
  clearbody n.
  destruct (String.eqb_spec s ACTIVE) as [->|Hact].
  - tick_case.
  - cbn [andb]. destruct (String.eqb_spec s APPROVED) as [->|Happ].
    + tick_case.
    + apply String.eqb_neq in Hact, Happ. cbn. rewrite ?Hact, ?Happ. cbn.
      rewrite ?Hact. tick_case.
Qed.

Lemma tickFlight_untouched (now : Z) (reached : bool) (f : Flight) :
  status f <> ACTIVE ->
  (status f = APPROVED -> (now < scheduledStart (data f))%Z) ->
  tickFlight now reached f = (f, true).
Proof.
  intros Hact Happ. unfold tickFlight.
  apply String.eqb_neq in Hact. rewrite Hact. cbn [andb].
  destruct (String.eqb_spec (status f) APPROVED) as [E|E].
  - specialize (Happ E). apply Z.leb_gt in Happ. rewrite Happ, Hact. reflexivity.
  - rewrite Hact. reflexivity.
Qed.

Lemma tick_steps (now : Z) (reached : string -> bool) (flights : Store) :
  Forall2 tickStep flights (tick now reached flights).
Proof.
  induction flights as [|[k f] rest IH]; [constructor|].
  cbn [tick]. pose proof (tickFlight_step now (reached k) k f) as Hstep.
  destruct (tickFlight now (reached k) f) as [f' ok]. cbn [fst] in Hstep.
  destruct ok.
  - now constructor.
  - constructor; [assumption|].
    clear. induction rest as [|[k0 f0] rest IH]; constructor; [|assumption].
    unfold tickStep. repeat split; try reflexivity. now left.
Qed.

(** X9.  The sweep neither adds nor removes nor reorders flights; each flight
    keeps its id, owner, body and report, and its status either stays or
    moves forward along approved, active, completed.  A flight that is
    neither active nor an approved flight whose start has come (a pending
    one, for instance) is stored after the sweep exactly as before. *)
Theorem tick_moves_forward (now : Z) (reached : string -> bool) (flights : Store) :
  Forall2 tickStep flights (tick now reached flights)
  /\ (forall k f,
      map_get flights k = Some f ->
      status f <> ACTIVE ->
      (status f = APPROVED -> (now < scheduledStart (data f))%Z) ->
      map_get (tick now reached flights) k = Some f).
Proof.
  split; [apply tick_steps|].
  - induction flights as [|[k0 f0] rest IH]; intros k f Hget Hact Happ.
    + discriminate Hget.
    + cbn [tick]. cbn [map_get] in Hget.
      destruct (String.eqb k0 k) eqn:E.
      * injection Hget as ->.
        rewrite (tickFlight_untouched now (reached k0) f Hact Happ).
        cbn [map_get]. now rewrite E.
      * destruct (tickFlight now (reached k0) f0) as [f' ok].
        destruct ok; cbn [map_get]; rewrite E; [now apply IH|assumption].
Qed.

Lemma tick_moves_forward_witness :
  map_get (tick (hm 10 40) (fun _ => true) [("flight_1"%string, storedA PENDING)])
          "flight_1"
  = Some (storedA PENDING).
Proof.
  apply (proj2 (tick_moves_forward (hm 10 40) (fun _ => true)
                  [("flight_1"%string, storedA PENDING)])).
  - reflexivity.
  - intros H. discriminate H.
  - intros H. discriminate H.
Defined.

Lemma Forall2_In_right {A B : Type} (R : A -> B -> Prop) (l : list A) (l' : list B) :
  Forall2 R l l' -> forall y, In y l' -> exists x, In x l /\ R x y.
Proof.
  induction 1 as [|x y l l' Hxy _ IH]; intros z Hz; [destruct Hz|].
  destruct Hz as [<-|Hz].
  - exists x. split; [now left|assumption].
  - destruct (IH z Hz) as (x' & Hx' & HR). exists x'. split; [now right|assumption].
Qed.

Lemma tickStep_live (old new : string * Flight) :
  tickStep old new -> live (snd new) = true -> live (snd old) = true.
Proof.
  intros (_ & _ & _ & _ & _ & Hst) Hlive. unfold live in *.
  destruct Hst as [E|[[E _]|[E _]]]; rewrite E in *; [assumption|reflexivity|reflexivity].
Qed.

(** X10.  Whatever relation on flight bodies is to be kept apart, a registry
    in which no two flights that reserve airspace are related stays so under
    the sweep and under a successful cancellation: both only move flights out
    of the statuses that reserve airspace, never into them, and leave the
    keys and the flights' bodies alone.  This holds in particular of the
    conflict test the code runs and of the forbidden pairs of the separation
    invariant. *)
Theorem lifecycle_keeps_separated (related : FlightData -> FlightData -> bool)
    (flights : Store) :
  separated related flights ->
  (forall now reached, separated related (tick now reached flights))
  /\ (forall key user flights',
      cancelFlight flights key user = Some flights' ->
      separated related flights').
Proof.
  intros Hfree. split.
  - intros now reached k1 f1 k2 f2 H1 H2 Hne Hl1 Hl2.
    pose proof (tick_steps now reached flights) as Hall.
    destruct (Forall2_In_right _ _ _ Hall _ H1) as ([k1' g1] & Hg1 & Hs1).
    destruct (Forall2_In_right _ _ _ Hall _ H2) as ([k2' g2] & Hg2 & Hs2).
    pose proof (tickStep_live _ _ Hs1 Hl1) as Hlg1.
    pose proof (tickStep_live _ _ Hs2 Hl2) as Hlg2.
    destruct Hs1 as (Hk1 & _ & _ & Hd1 & _). destruct Hs2 as (Hk2 & _ & _ & Hd2 & _).
    cbn [fst snd] in *. subst k1' k2'. rewrite Hd1, Hd2.
    exact (Hfree k1 g1 k2 g2 Hg1 Hg2 Hne Hlg1 Hlg2).
  - intros key user flights' Hcancel k1 f1 k2 f2 H1 H2 Hne Hl1 Hl2.
    unfold cancelFlight in Hcancel.
    destruct (map_get flights key) as [flight|]; [|discriminate Hcancel].
    destruct (negb _); [discriminate Hcancel|]. injection Hcancel as <-.
    destruct (map_set_In _ _ _ _ _ H1) as [[_ ->]|Hold1]; [discriminate Hl1|].
    destruct (map_set_In _ _ _ _ _ H2) as [[_ ->]|Hold2]; [discriminate Hl2|].
    exact (Hfree k1 f1 k2 f2 Hold1 Hold2 Hne Hl1 Hl2).
Qed.

(** The three flights of [liveRegistry] all reserve airspace and no two of
    them form a forbidden pair; after the sweep at 10:20 all three still
    reserve airspace, after the cancellation of the third the first two do. *)
Lemma lifecycle_keeps_separated_witness :
  map (fun kv => live (snd kv)) liveRegistry = [true; true; true]
  /\ separated (forbiddenPair meridianDistance cosUnit) liveRegistry
  /\ map (fun kv => (fst kv, status (snd kv)))
         (tick (hm 10 20) (fun _ => false) liveRegistry)
     = [("flight_1"%string, ACTIVE); ("flight_2"%string, ACTIVE);
        ("flight_3"%string, PENDING)]
  /\ separated (forbiddenPair meridianDistance cosUnit)
       (tick (hm 10 20) (fun _ => false) liveRegistry)
  /\ exists flights',
       cancelFlight liveRegistry "flight_3" "pilot" = Some flights'
       /\ map (fun kv => (fst kv, status (snd kv))) flights'
          = [("flight_1"%string, APPROVED); ("flight_2"%string, ACTIVE);
             ("flight_3"%string, CANCELLED)]
       /\ separated (forbiddenPair meridianDistance cosUnit) flights'.
Proof.
  assert (Hsep : separated (forbiddenPair meridianDistance cosUnit) liveRegistry).
  { intros k1 f1 k2 f2 [H1|[H1|[H1|[]]]] [H2|[H2|[H2|[]]]] Hne _ _;
      injection H1 as <- <-; injection H2 as <- <-;
      try (now contradiction Hne); vm_compute; reflexivity. }
  destruct (lifecycle_keeps_separated (forbiddenPair meridianDistance cosUnit)
              liveRegistry Hsep) as [Htick Hcancel].
  split; [reflexivity|]. split; [exact Hsep|].
  split; [vm_compute; reflexivity|]. split; [apply Htick|].
  eexists. split; [reflexivity|]. split; [vm_compute; reflexivity|].
  apply (Hcancel "flight_3"%string "pilot"%string). reflexivity.
Defined.

Lemma boundsOverlap_true_iff (b1 b2 : Bounds) (buffer : Q) :
  boundsOverlap (Some b1) (Some b2) buffer = true
  <-> west b2 - east b1 <= 2 * buffer
      /\ west b1 - east b2 <= 2 * buffer
      /\ south b2 - north b1 <= 2 * buffer
      /\ south b1 - north b2 <= 2 * buffer.
Proof.
  unfold boundsOverlap, Qgtb.
  rewrite negb_true_iff, !orb_false_iff, !Qltb_ge. split.
  - intros (((H1 & H2) & H3) & H4). repeat split; lra.
  - intros (H1 & H2 & H3 & H4). repeat split; lra.
Qed.

(** X11.  Two bounding boxes pass [boundsOverlap] exactly when, in each of
    the four directions, the gap between them is at most twice the buffer
    (the buffer is added to one box and subtracted from the other); a missing
    box overlaps nothing.  Hence a box with south <= north and west <= east
    overlaps itself for any buffer that is not negative, and an overlap is
    kept when the buffer grows. *)
Theorem boundsOverlap_gap :
  (forall b1 b2 buffer,
      boundsOverlap (Some b1) (Some b2) buffer = true
      <-> west b2 - east b1 <= 2 * buffer
          /\ west b1 - east b2 <= 2 * buffer
          /\ south b2 - north b1 <= 2 * buffer
          /\ south b1 - north b2 <= 2 * buffer)
  /\ (forall b buffer,
      boundsOverlap None b buffer = false /\ boundsOverlap b None buffer = false)
  /\ (forall b buffer,
      0 <= buffer -> south b <= north b -> west b <= east b ->
      boundsOverlap (Some b) (Some b) buffer = true)
  /\ (forall b1 b2 buffer buffer',
      buffer <= buffer' ->
      boundsOverlap (Some b1) (Some b2) buffer = true ->
      boundsOverlap (Some b1) (Some b2) buffer' = true).
Proof.
  pose proof boundsOverlap_true_iff as Hgap.
  split; [exact Hgap|split; [|split]].
  - intros b buffer. split; [reflexivity|now destruct b].
  - intros b buffer Hbuf Hns Hwe. apply Hgap. repeat split; lra.
  - intros b1 b2 buffer buffer' Hle H. apply Hgap in H. apply Hgap.
    destruct H as (H1 & H2 & H3 & H4). repeat split; lra.
Qed.

(** ** Samples and bounding boxes *)

Lemma maxList_bounds (l : list Q) :
  forall x, x <= maxList x l /\ (forall y, In y l -> y <= maxList x l).
Proof.
  unfold maxList. induction l as [|z l IH]; intros x.
  - split; [apply Qle_refl|intros y []].
  - cbn [fold_left]. destruct (IH (Qmax x z)) as [Hseed Hrest]. split.
    + apply Qle_trans with (Qmax x z); [apply Q.le_max_l|assumption].
    + intros y [<-|Hy]; [|now apply Hrest].
      apply Qle_trans with (Qmax x z); [apply Q.le_max_r|assumption].
Qed.

Lemma minList_bounds (l : list Q) :
  forall x, minList x l <= x /\ (forall y, In y l -> minList x l <= y).
Proof.
  unfold minList. induction l as [|z l IH]; intros x.
  - split; [apply Qle_refl|intros y []].
  - cbn [fold_left]. destruct (IH (Qmin x z)) as [Hseed Hrest]. split.
    + apply Qle_trans with (Qmin x z); [assumption|apply Q.le_min_l].
    + intros y [<-|Hy]; [|now apply Hrest].
      apply Qle_trans with (Qmin x z); [assumption|apply Q.le_min_r].
Qed.

(** The box of a path holds each of its waypoints. *)
Lemma waypointBounds_holds (fd : FlightData) (b : Bounds) (p : LatLng) :
  waypointBounds fd = Some b -> In p (requestWaypoints fd) ->
  south b <= lat p /\ lat p <= north b /\ west b <= lng p /\ lng p <= east b.
Proof.
  unfold waypointBounds, requestWaypoints.
  destruct (waypoints fd) as [[|w ws]|]; try discriminate.
  intros H Hp. injection H as <-. cbn [north south east west].
  destruct (maxList_bounds (map lat ws) (lat w)) as [Hn1 Hn2].
  destruct (minList_bounds (map lat ws) (lat w)) as [Hs1 Hs2].
  destruct (maxList_bounds (map lng ws) (lng w)) as [He1 He2].
  destruct (minList_bounds (map lng ws) (lng w)) as [Hw1 Hw2].
  destruct Hp as [<-|Hp].
  - now repeat split.
  - repeat split;
      [apply Hs2|apply Hn2|apply Hw2|apply He2]; apply in_map; assumption.
Qed.

Section Sampling.

Variable calculateDistance : Q -> Q -> Q -> Q -> Q.

(** An interior point of a segment lies at a fraction between 0 and 1. *)
Lemma segmentSamples_fraction (p1 p2 : LatLng) (sd : Q) (s : LatLng) :
  In s (segmentSamples calculateDistance p1 p2 sd) ->
  exists t,
    0 <= t /\ t <= 1
    /\ s = mkLatLng (lat p1 + t * (lat p2 - lat p1)) (lng p1 + t * (lng p2 - lng p1)).
Proof.
  unfold segmentSamples. cbn zeta. intros Hs.
  apply in_map_iff in Hs. destruct Hs as (j & <- & Hj).
  apply in_seq in Hj.
  set (n := Qfloor _) in *.
  assert (Hn : (Z.of_nat j <= n)%Z) by lia.
  assert (Hpos : 0 < inject_Z (n + 1)).
  { change 0 with (inject_Z 0). rewrite <- Zlt_Qlt. lia. }
  exists (inject_Z (Z.of_nat j) / inject_Z (n + 1)). split; [|split; [|reflexivity]].
  - apply Qle_shift_div_l; [assumption|].
    rewrite Qmult_0_l. change 0 with (inject_Z 0). rewrite <- Zle_Qle. lia.
  - apply Qle_shift_div_r; [assumption|].
    rewrite Qmult_1_l. rewrite <- Zle_Qle. lia.
Qed.

Lemma sampleFrom_shape (sd : Q) (rest : list LatLng) :
  forall p s,
    In s (sampleFrom calculateDistance p rest sd) ->
    In s rest
    \/ exists p1 p2 t,
         In p1 (p :: rest) /\ In p2 rest /\ 0 <= t /\ t <= 1
         /\ s = mkLatLng (lat p1 + t * (lat p2 - lat p1)) (lng p1 + t * (lng p2 - lng p1)).
Proof.
  induction rest as [|q rest IH]; intros p s Hs; [destruct Hs|].
  cbn [sampleFrom] in Hs. apply in_app_or in Hs. destruct Hs as [Hs|[<-|Hs]].
  - right. destruct (segmentSamples_fraction p q sd s Hs) as (t & H0 & H1 & ->).
    exists p, q, t. repeat split; try assumption; now left.
  - left. now left.
  - destruct (IH q s Hs) as [Hin|(p1 & p2 & t & Hp1 & Hp2 & H0 & H1 & ->)].
    + left. now right.
    + right. exists p1, p2, t. repeat split; try assumption; now right.
Qed.

(** Every sample of a path is a waypoint or lies between two waypoints. *)
Lemma generatePathSamples_shape (wps : list LatLng) (sd : Q) (s : LatLng) :
  In s (generatePathSamples calculateDistance wps sd) ->
  In s wps
  \/ exists p1 p2 t,
       In p1 wps /\ In p2 wps /\ 0 <= t /\ t <= 1
       /\ s = mkLatLng (lat p1 + t * (lat p2 - lat p1)) (lng p1 + t * (lng p2 - lng p1)).
Proof.
  destruct wps as [|w rest]; [intros []|].
  cbn [generatePathSamples]. intros [<-|Hs]; [left; now left|].
  destruct (sampleFrom_shape sd rest w s Hs) as [Hin|(p1 & p2 & t & Hp1 & Hp2 & H0 & H1 & ->)].
  - left. now right.
  - right. exists p1, p2, t. repeat split; try assumption. now right.
Qed.

Lemma between_bounds (a b t lo hi : Q) :
  lo <= a -> a <= hi -> lo <= b -> b <= hi -> 0 <= t -> t <= 1 ->
  lo <= a + t * (b - a) /\ a + t * (b - a) <= hi.
Proof. intros. split; nra. Qed.

Lemma pathSamples_in_box (fd : FlightData) (b : Bounds) (s : LatLng) :
  waypointBounds fd = Some b -> In s (pathSamples calculateDistance fd) ->
  south b <= lat s /\ lat s <= north b /\ west b <= lng s /\ lng s <= east b.
Proof.
  intros Hb Hs. unfold pathSamples in Hs.
  assert (Hreq : requestWaypoints fd = match waypoints fd with Some l => l | None => [] end)
    by reflexivity.
  destruct (waypoints fd) as [wps|] eqn:Ew; [|destruct Hs].
  destruct (generatePathSamples_shape wps _ s Hs)
    as [Hin|(p1 & p2 & t & Hp1 & Hp2 & H0 & H1 & ->)].
  - apply (waypointBounds_holds fd b s Hb). now rewrite Hreq.
  - rewrite <- Hreq in Hp1, Hp2.
    destruct (waypointBounds_holds fd b p1 Hb Hp1) as (A1 & A2 & A3 & A4).
    destruct (waypointBounds_holds fd b p2 Hb Hp2) as (B1 & B2 & B3 & B4).
    cbn [lat lng].
    destruct (between_bounds (lat p1) (lat p2) t (south b) (north b)); try assumption.
    destruct (between_bounds (lng p1) (lng p2) t (west b) (east b)); try assumption.
    now repeat split.
Qed.

(** X12.  The bounding box of a flight without an operation area holds every
    sample of its path, the interpolated ones included: the prefilter on
    boxes loses no sample of a path. *)
Theorem pathSamples_within_bounds (cosDeg : Q -> Q) (fd : FlightData) (b : Bounds) :
  operationArea fd = None -> getFlightBounds cosDeg fd = Some b ->
  forall s,
    In s (pathSamples calculateDistance fd) ->
    south b <= lat s /\ lat s <= north b /\ west b <= lng s /\ lng s <= east b.
Proof.
  intros Harea Hb s Hs. unfold getFlightBounds in Hb. rewrite Harea in Hb.
  exact (pathSamples_in_box fd b s Hb Hs).
Qed.

(** X13.  A flight that has no operation area of its own and has a path
    sample inside another flight's rectangular operation area is always found
    in conflict with that flight, in either order: the box of its waypoints
    then overlaps the rectangle, so the prefilter lets the pair through to
    the containment test. *)
Theorem path_in_rectangle_conflict (cosDeg : Q -> Q) (f g : FlightData)
    (area : OperationArea) (b : Bounds) (s : LatLng) :
  operationArea f = Some area -> area_type area = rectangle -> bounds area = Some b ->
  operationArea g = None ->
  In s (pathSamples calculateDistance g) ->
  isPointInArea calculateDistance (lat s) (lng s) area = true ->
  hasConflict (checkSpatialConflict calculateDistance cosDeg f g) = true
  /\ hasConflict (checkSpatialConflict calculateDistance cosDeg g f) = true.
Proof.
  intros Hf Htype Hbounds Hg Hs Hin.
  destruct area as [c r|c ob]; [discriminate Htype|].
  cbn [bounds] in Hbounds. subst ob.
  assert (Hbf : getFlightBounds cosDeg f = Some b).
  { unfold getFlightBounds. now rewrite Hf. }
  assert (Hbg : exists bg, waypointBounds g = Some bg).
  { unfold waypointBounds. unfold pathSamples in Hs.
    destruct (waypoints g) as [[|w ws]|]; try (now destruct Hs). eexists. reflexivity. }
  destruct Hbg as [bg Hbg].
  assert (Hgb : getFlightBounds cosDeg g = Some bg).
  { unfold getFlightBounds. now rewrite Hg. }
  destruct (pathSamples_in_box g bg s Hbg Hs) as (S1 & S2 & S3 & S4).
  unfold isPointInArea in Hin.
  unfold Qgeb in Hin. rewrite !andb_true_iff in Hin.
  destruct Hin as (((R1 & R2) & R3) & R4).
  apply Qle_bool_iff in R1, R2, R3, R4.
  assert (Hover : boundsOverlap (Some b) (Some bg) defaultBuffer = true).
  { apply boundsOverlap_true_iff. unfold defaultBuffer. repeat split; lra. }
  assert (He : pathEntersArea calculateDistance (Some (mkRectangle c (Some b)))
                 (pathSamples calculateDistance g) = true).
  { cbn [pathEntersArea]. apply existsb_exists. exists s. split; [assumption|].
    unfold isPointInArea. unfold Qgeb.
    rewrite !andb_true_iff. repeat split; now apply Qle_bool_iff. }
  rewrite !hasConflict_spec, Hbf, Hgb, (boundsOverlap_sym (Some bg)), Hover.
  cbn [andb]. unfold separationViolated. rewrite Hf, Hg, He.
  cbn [pathEntersArea orb]. split; reflexivity.
Qed.

Lemma sampleFrom_keeps (sd : Q) (rest : list LatLng) :
  forall p,
    (forall w, In w rest -> In w (sampleFrom calculateDistance p rest sd))
    /\ (List.length rest <= List.length (sampleFrom calculateDistance p rest sd))%nat.
Proof.
  induction rest as [|q rest IH]; intros p.
  - split; [intros w []|apply le_n].
  - destruct (IH q) as [Hin Hlen]. cbn [sampleFrom]. split.
    + intros w [<-|Hw]; apply in_or_app; right; [now left|right; now apply Hin].
    + rewrite length_app. cbn [List.length]. lia.
Qed.

(** X14.  The samples of a path begin with its first waypoint, end with its
    last, and hold every waypoint, so they are at least as many as the
    waypoints; a path of no waypoint has no sample and a path of one waypoint
    has that one sample, whatever the spacing. *)
Theorem generatePathSamples_waypoints (wps : list LatLng) (sd : Q) :
  (forall w, In w wps -> In w (generatePathSamples calculateDistance wps sd))
  /\ (List.length wps <= List.length (generatePathSamples calculateDistance wps sd))%nat
  /\ (forall d, hd d (generatePathSamples calculateDistance wps sd) = hd d wps)
  /\ (forall d, last (generatePathSamples calculateDistance wps sd) d = last wps d)
  /\ generatePathSamples calculateDistance [] sd = []
  /\ (forall w, generatePathSamples calculateDistance [w] sd = [w]).
Proof.
  split; [|split; [|split; [|split; [|split]]]]; try reflexivity.
  - destruct wps as [|w0 rest]; [intros w []|].
    intros w [<-|Hw]; [now left|]. right. now apply sampleFrom_keeps.
  - destruct wps as [|w0 rest]; [apply le_n|].
    cbn [generatePathSamples List.length].
    destruct (sampleFrom_keeps sd rest w0) as [_ Hlen]. lia.
  - intros d. now destruct wps.
  - intros d. induction wps as [|w0 pre _] using rev_ind; [reflexivity|].
    destruct (generatePathSamples_snoc calculateDistance sd pre w0) as [before ->].
    now rewrite !last_last.
Qed.

End Sampling.

Lemma pathSamples_within_bounds_witness :
  (4260 # 100) <= lat waypointNorth /\ lat waypointNorth <= (42601 # 1000)
  /\ (2090 # 100) <= lng waypointNorth /\ lng waypointNorth <= (2090 # 100).
Proof.
  apply (pathSamples_within_bounds meridianDistance cosUnit
           (mkFlightData (Some [waypointA; waypointNorth]) None 0 1 None)
           (mkBounds (42601 # 1000) (4260 # 100) (2090 # 100) (2090 # 100))
           eq_refl eq_refl waypointNorth).
  unfold pathSamples. cbn [waypoints generatePathSamples sampleFrom].
  right. apply in_or_app. right. left. reflexivity.
Defined.

Lemma path_in_rectangle_conflict_witness :
  hasConflict
    (checkSpatialConflict meridianDistance cosUnit
       (mkFlightData None
          (Some (mkRectangle (Some waypointA) (Some (mkBounds 43 42 21 20))))
          (hm 10 0) (hm 10 30) None)
       flightA) = true
  /\ hasConflict
       (checkSpatialConflict meridianDistance cosUnit flightA
          (mkFlightData None
             (Some (mkRectangle (Some waypointA) (Some (mkBounds 43 42 21 20))))
             (hm 10 0) (hm 10 30) None)) = true.
Proof.
  apply (path_in_rectangle_conflict meridianDistance cosUnit _ flightA
           (mkRectangle (Some waypointA) (Some (mkBounds 43 42 21 20)))
           (mkBounds 43 42 21 20) waypointA); try reflexivity.
  now left.
Defined.

(** * Further properties of the planner *)

(** ** Areas against airports and zones *)

Section AreaFacts.

Variable getDistanceMeters : Q -> Q -> Q -> Q -> Q.
Variable cosEighth : nat -> Q.
Variable sinEighth : nat -> Q.
Variable cosDeg : Q -> Q.
Variable geo : PlannerState.

Abbreviation pointCheck p :=
  (isPointInRestrictedArea getDistanceMeters geo (lat p) (lng p)).
Abbreviation areaOverlap :=
  (doesAreaOverlapRestricted getDistanceMeters cosEighth sinEighth cosDeg geo).

Lemma firstRestricted_none (points : list LatLng) :
  firstRestricted getDistanceMeters geo points = None
  <-> forall p, In p points -> restricted (pointCheck p) = false.
Proof.
  induction points as [|q points IH]; cbn [firstRestricted].
  - split; [intros _ p []|reflexivity].
  - destruct (restricted (pointCheck q)) eqn:E.
    + split; [discriminate|]. intros H. rewrite (H q) in E; [discriminate|now left].
    + rewrite IH. split.
      * intros H p [<-|Hp]; [assumption|now apply H].
      * intros H p Hp. apply H. now right.
Qed.

Lemma firstRestricted_some (points : list LatLng) (found : AreaCheck) :
  firstRestricted getDistanceMeters geo points = Some found -> restricted found = true.
Proof.
  induction points as [|q points IH]; cbn [firstRestricted]; [discriminate|].
  destruct (restricted (pointCheck q)) eqn:E; [|assumption].
  now intros [= <-].
Qed.

Lemma overlappingAirport_none (l : list Airport) (c : LatLng) (r : Q) :
  overlappingAirport getDistanceMeters l c r = None
  <-> forall a, In a l ->
        r + restrictedRadius a
        <= getDistanceMeters (lat c) (lng c) (lat (airport_position a)) (lng (airport_position a)).
Proof.
  induction l as [|a l IH]; cbn [overlappingAirport].
  - split; [intros _ a []|reflexivity].
  - destruct (Qle_bool _ _) eqn:Ele.
    + destruct (Qltb _ _) eqn:Elt.
      * split; [discriminate|]. intros H. apply Qltb_lt in Elt.
        specialize (H a (or_introl eq_refl)). lra.
      * rewrite IH. apply Qltb_ge in Elt. split.
        -- intros H x [<-|Hx]; [assumption|now apply H].
        -- intros H x Hx. apply H. now right.
    + rewrite IH. split.
      * intros H x [<-|Hx]; [|now apply H].
        destruct (Qlt_le_dec
                    (getDistanceMeters (lat c) (lng c) (lat (airport_position a))
                       (lng (airport_position a)))
                    (r + restrictedRadius a)) as [Hlt|Hge]; [|assumption].
        assert (Hle : Qle_bool
                        (getDistanceMeters (lat c) (lng c) (lat (airport_position a))
                           (lng (airport_position a)))
                        (r + restrictedRadius a) = true)
          by (apply Qle_bool_iff; lra).
        rewrite Hle in Ele. discriminate.
      * intros H x Hx. apply H. now right.
Qed.

Lemma overlappingAirport_some (l : list Airport) (c : LatLng) (r : Q) (found : AreaCheck) :
  overlappingAirport getDistanceMeters l c r = Some found -> restricted found = true.
Proof.
  induction l as [|a l IH]; cbn [overlappingAirport]; [discriminate|].
  destruct (Qle_bool _ _); [destruct (Qltb _ _)|]; try assumption.
  now intros [= <-].
Qed.

Lemma overlappingZone_none (l : list Zone) (c : LatLng) (r : Q) :
  overlappingZone getDistanceMeters l c r = None
  <-> forall z, In z l -> zone_maxAltitude z == 0 ->
        r + zone_radius z
        <= getDistanceMeters (lat c) (lng c) (lat (zone_position z)) (lng (zone_position z)).
Proof.
  induction l as [|z l IH]; cbn [overlappingZone].
  - split; [intros _ z []|reflexivity].
  - destruct (Qeq_bool (zone_maxAltitude z) 0) eqn:Ez.
    + apply Qeq_bool_iff in Ez. destruct (Qltb _ _) eqn:Elt.
      * split; [discriminate|]. intros H. apply Qltb_lt in Elt.
        specialize (H z (or_introl eq_refl) Ez). lra.
      * rewrite IH. apply Qltb_ge in Elt. split.
        -- intros H x [<-|Hx] Hx0; [assumption|now apply H].
        -- intros H x Hx. apply H. now right.
    + rewrite IH. split.
      * intros H x [<-|Hx] Hx0; [|now apply H].
        apply Qeq_bool_iff in Hx0. rewrite Hx0 in Ez. discriminate.
      * intros H x Hx. apply H. now right.
Qed.

Lemma overlappingZone_some (l : list Zone) (c : LatLng) (r : Q) (found : AreaCheck) :
  overlappingZone getDistanceMeters l c r = Some found -> restricted found = true.
Proof.
  induction l as [|z l IH]; cbn [overlappingZone]; [discriminate|].
  destruct (Qeq_bool _ _); [destruct (Qltb _ _)|]; try assumption.
  now intros [= <-].
Qed.

Lemma containedAirport_none (l : list Airport) (b : Bounds) :
  containedAirport l b = None
  <-> forall a, In a l -> inBounds (airport_position a) b = false.
Proof.
  induction l as [|a l IH]; cbn [containedAirport].
  - split; [intros _ a []|reflexivity].
  - destruct (inBounds (airport_position a) b) eqn:E.
    + split; [discriminate|]. intros H. rewrite (H a) in E; [discriminate|now left].
    + rewrite IH. split.
      * intros H x [<-|Hx]; [assumption|now apply H].
      * intros H x Hx. apply H. now right.
Qed.

Lemma containedAirport_some (l : list Airport) (b : Bounds) (found : AreaCheck) :
  containedAirport l b = Some found -> restricted found = true.
Proof.
  induction l as [|a l IH]; cbn [containedAirport]; [discriminate|].
  destruct (inBounds _ _); [|assumption]. now intros [= <-].
Qed.

Lemma containedZone_none (l : list Zone) (b : Bounds) :
  containedZone l b = None
  <-> forall z, In z l -> zone_maxAltitude z == 0 -> inBounds (zone_position z) b = false.
Proof.
  induction l as [|z l IH]; cbn [containedZone].
  - split; [intros _ z []|reflexivity].
  - destruct (Qeq_bool (zone_maxAltitude z) 0) eqn:Ez.
    + apply Qeq_bool_iff in Ez. destruct (inBounds (zone_position z) b) eqn:E.
      * split; [discriminate|]. intros H. rewrite (H z) in E; [discriminate|now left|assumption].
      * rewrite IH. split.
        -- intros H x [<-|Hx] Hx0; [assumption|now apply H].
        -- intros H x Hx. apply H. now right.
    + rewrite IH. split.
      * intros H x [<-|Hx] Hx0; [|now apply H].
        apply Qeq_bool_iff in Hx0. rewrite Hx0 in Ez. discriminate.
      * intros H x Hx. apply H. now right.
Qed.

Lemma containedZone_some (l : list Zone) (b : Bounds) (found : AreaCheck) :
  containedZone l b = Some found -> restricted found = true.
Proof.
  induction l as [|z l IH]; cbn [containedZone]; [discriminate|].
  destruct (Qeq_bool _ _); [destruct (inBounds _ _)|]; try assumption.
  now intros [= <-].
Qed.

Lemma circleOverlap_some (c : LatLng) (r : Q) (found : AreaCheck) :
  circleOverlap getDistanceMeters cosEighth sinEighth cosDeg geo c r = Some found ->
  restricted found = true.
Proof.
  unfold circleOverlap. cbn zeta.
  destruct (restricted (pointCheck c)) eqn:E; [now intros [= <-]|].
  destruct (firstRestricted _ _ _) eqn:F.
  - intros [= <-]. exact (firstRestricted_some _ _ F).
  - destruct (overlappingAirport _ _ _ _) eqn:A.
    + intros [= <-]. exact (overlappingAirport_some _ _ _ _ A).
    + apply overlappingZone_some.
Qed.

Lemma rectangleOverlap_some (c : LatLng) (b : Bounds) (found : AreaCheck) :
  rectangleOverlap getDistanceMeters geo c b = Some found -> restricted found = true.
Proof.
  unfold rectangleOverlap.
  destruct (firstRestricted _ _ _) eqn:F.
  - intros [= <-]. exact (firstRestricted_some _ _ F).
  - destruct (containedAirport _ _) eqn:A.
    + intros [= <-]. exact (containedAirport_some _ _ _ A).
    + apply containedZone_some.
Qed.

Lemma areaOverlap_verdict (areaType : string) (c : LatLng) (r : Q) (b : option Bounds) :
  restricted (areaOverlap areaType c r b) = false ->
  areaOverlap areaType c r b = Unrestricted.
Proof.
  unfold doesAreaOverlapRestricted.
  destruct (if String.eqb areaType "circle" then _ else None) as [found|] eqn:C.
  - destruct (String.eqb areaType "circle"); [|discriminate].
    rewrite (circleOverlap_some _ _ _ C). discriminate.
  - destruct (if String.eqb areaType "rectangle" then _ else None) as [found|] eqn:R;
      [|reflexivity].
    destruct (String.eqb areaType "rectangle"); [|discriminate].
    destruct b as [b'|]; [|discriminate].
    rewrite (rectangleOverlap_some _ _ _ R). discriminate.
Qed.

(** X15.  The area test never answers with a warning: its answer is a
    restriction or plain [{restricted: false}], so a zone with a positive
    altitude cap never shows in it.  For an area type other than circle and
    rectangle, and for a rectangle without bounds, nothing is tested. *)
Theorem doesAreaOverlapRestricted_never_warns (areaType : string) (c : LatLng) (r : Q)
    (b : option Bounds) :
  (areaOverlap areaType c r b = Unrestricted
   \/ exists type name, areaOverlap areaType c r b = Restricted type name)
  /\ (areaType <> "circle"%string -> areaType <> "rectangle"%string \/ b = None ->
      areaOverlap areaType c r b = Unrestricted).
Proof.
  split.
  - pose proof (areaOverlap_verdict areaType c r b) as H.
    destruct (areaOverlap areaType c r b) as [type name|type name cap|] eqn:E.
    + right. now exists type, name.
    + left. now apply H.
    + now left.
  - intros Hc Hr. unfold doesAreaOverlapRestricted.
    apply String.eqb_neq in Hc. rewrite Hc.
    destruct Hr as [Hr| ->].
    + apply String.eqb_neq in Hr. now rewrite Hr.
    + now destruct (String.eqb areaType "rectangle").
Qed.

(** X16.  A rectangle is let through exactly when none of its nine probe
    points (centre, corners, middles of the sides) is restricted, no airport
    has its position inside the bounds, and no zone closed to all flight has
    its position inside the bounds. *)
Theorem doesAreaOverlapRestricted_rectangle (c : LatLng) (r : Q) (b : Bounds) :
  areaOverlap "rectangle" c r (Some b) = Unrestricted
  <-> (forall p, In p (rectanglePoints c b) -> restricted (pointCheck p) = false)
      /\ (forall a, In a (airports geo) -> inBounds (airport_position a) b = false)
      /\ (forall z, In z (restrictedZones geo) -> zone_maxAltitude z == 0 ->
          inBounds (zone_position z) b = false).
Proof.
  rewrite <- firstRestricted_none, <- containedAirport_none, <- containedZone_none.
  unfold doesAreaOverlapRestricted. cbn [String.eqb Ascii.eqb Bool.eqb andb].
  unfold rectangleOverlap.
  destruct (firstRestricted _ _ _) as [found|] eqn:F.
  - pose proof (firstRestricted_some _ _ F) as Hf. split.
    + intros H. rewrite H in Hf. discriminate.
    + intros (H & _). discriminate.
  - destruct (containedAirport _ _) as [found|] eqn:A.
    + pose proof (containedAirport_some _ _ _ A) as Hf. split.
      * intros H. rewrite H in Hf. discriminate.
      * intros (_ & H & _). discriminate.
    + destruct (containedZone _ _) as [found|] eqn:Z.
      * pose proof (containedZone_some _ _ _ Z) as Hf. split.
        -- intros H. rewrite H in Hf. discriminate.
        -- intros (_ & _ & H). discriminate.
      * now split.
Qed.

(** X17.  A circle is let through exactly when neither its centre nor any of
    the eight perimeter points is restricted, every airport is at least the
    circle's radius plus its own restricted radius away from the centre, and
    so is every zone closed to all flight with its radius: circles that only
    touch are let through. *)
Theorem doesAreaOverlapRestricted_circle (c : LatLng) (r : Q) (b : option Bounds) :
  areaOverlap "circle" c r b = Unrestricted
  <-> restricted (pointCheck c) = false
      /\ (forall p, In p (perimeter cosEighth sinEighth cosDeg c r) ->
          restricted (pointCheck p) = false)
      /\ (forall a, In a (airports geo) ->
          r + restrictedRadius a
          <= getDistanceMeters (lat c) (lng c)
               (lat (airport_position a)) (lng (airport_position a)))
      /\ (forall z, In z (restrictedZones geo) -> zone_maxAltitude z == 0 ->
          r + zone_radius z
          <= getDistanceMeters (lat c) (lng c)
               (lat (zone_position z)) (lng (zone_position z))).
Proof.
  rewrite <- firstRestricted_none, <- overlappingAirport_none, <- overlappingZone_none.
  unfold doesAreaOverlapRestricted. cbn [String.eqb Ascii.eqb Bool.eqb andb].
  unfold circleOverlap. cbn zeta.
  destruct (restricted (pointCheck c)) eqn:E.
  - split; [|intros (H & _); discriminate].
    intros H. rewrite H in E. discriminate.
  - destruct (firstRestricted _ _ _) as [found|] eqn:F.
    + pose proof (firstRestricted_some _ _ F) as Hf. split.
      * intros H. rewrite H in Hf. discriminate.
      * intros (_ & H & _). discriminate.
    + destruct (overlappingAirport _ _ _ _) as [found|] eqn:A.
      * pose proof (overlappingAirport_some _ _ _ _ A) as Hf. split.
        -- intros H. rewrite H in Hf. discriminate.
        -- intros (_ & _ & H & _). discriminate.
      * destruct (overlappingZone _ _ _ _) as [found|] eqn:Z.
        -- pose proof (overlappingZone_some _ _ _ _ Z) as Hf. split.
           ++ intros H. rewrite H in Hf. discriminate.
           ++ intros (_ & _ & _ & H). discriminate.
        -- now split.
Qed.

End AreaFacts.

(** ** The editing state *)

Lemma updateAt_length {A : Type} (f : A -> A) (l : list A) :
  forall i, List.length (updateAt i f l) = List.length l.
Proof.
  induction l as [|x l IH]; intros [|i]; cbn [updateAt List.length]; auto.
Qed.

Lemma updateAt_map {A B : Type} (g : A -> B) (f : A -> A) (l : list A) :
  (forall x, g (f x) = g x) ->
  forall i, map g (updateAt i f l) = map g l.
Proof.
  intros Hf. induction l as [|x l IH]; intros [|i]; cbn [updateAt map]; auto.
  - now rewrite Hf.
  - now rewrite IH.
Qed.

Lemma updateAt_nth_error {A : Type} (f : A -> A) (l : list A) :
  forall i j,
    nth_error (updateAt i f l) j
    = if Nat.eqb i j then option_map f (nth_error l j) else nth_error l j.
Proof.
  induction l as [|x l IH]; intros [|i] [|j]; cbn [updateAt nth_error Nat.eqb option_map];
    try reflexivity.
  - now destruct (Nat.eqb _ _).
  - apply IH.
Qed.

Lemma updateAt_In {A : Type} (f : A -> A) (l : list A) :
  forall i y, In y (updateAt i f l) -> In y l \/ exists x, In x l /\ y = f x.
Proof.
  induction l as [|x l IH]; intros [|i] y; cbn [updateAt]; intros Hy.
  - destruct Hy.
  - destruct Hy.
  - destruct Hy as [<-|Hy]; [right; exists x; split; [now left|reflexivity]|].
    left. now right.
  - destruct Hy as [<-|Hy]; [left; now left|].
    destruct (IH i y Hy) as [H|(z & Hz & ->)].
    + left. now right.
    + right. exists z. split; [now right|reflexivity].
Qed.

Lemma renumber_order (l : list Waypoint) :
  forall i, map wp_order (renumber i l) = seq i (List.length l).
Proof.
  induction l as [|wp l IH]; intros i; cbn [renumber map List.length seq]; [reflexivity|].
  now rewrite IH.
Qed.

Lemma renumber_length (l : list Waypoint) :
  forall i, List.length (renumber i l) = List.length l.
Proof.
  induction l as [|wp l IH]; intros i; cbn [renumber List.length]; [reflexivity|].
  now rewrite IH.
Qed.

Lemma renumber_nth_error (l : list Waypoint) :
  forall i j wp,
    nth_error (renumber i l) j = Some wp ->
    exists old,
      nth_error l j = Some old
      /\ wp = mkWaypoint (wp_lat old) (wp_lng old) (wp_altitude old) (i + j) (wp_index old).
Proof.
  induction l as [|x l IH]; intros i [|j] wp; cbn [renumber nth_error]; try discriminate.
  - intros [= <-]. exists x. now rewrite Nat.add_0_r.
  - intros H. destruct (IH (S i) j wp H) as (old & Hold & ->).
    exists old. split; [assumption|]. now rewrite Nat.add_succ_r.
Qed.

Lemma renumber_In (l : list Waypoint) :
  forall i wp,
    In wp (renumber i l) ->
    exists old, In old l /\ wp_lat wp = wp_lat old /\ wp_lng wp = wp_lng old.
Proof.
  induction l as [|x l IH]; intros i wp; cbn [renumber]; [intros []|].
  intros [<-|H].
  - exists x. now repeat split; [left|..].
  - destruct (IH _ _ H) as (old & Hold & Hlat & Hlng). exists old.
    now repeat split; [right|..].
Qed.

Lemma splice1_nth_error {A : Type} (l : list A) :
  forall index j x,
    nth_error (splice1 index l) j = Some x ->
    nth_error l j = Some x \/ nth_error l (S j) = Some x.
Proof.
  unfold splice1. induction l as [|y l IH]; intros [|index] j x.
  - cbn. now destruct j.
  - cbn. now destruct j.
  - cbn [firstn skipn app]. intros H. now right.
  - cbn [firstn skipn app]. destruct j as [|j]; cbn [nth_error].
    + intros H. now left.
    + intros H. destruct l as [|z l']; [now destruct index, j|].
      exact (IH index j x H).
Qed.

Lemma splice1_In {A : Type} (index : nat) (l : list A) (x : A) :
  In x (splice1 index l) -> In x l.
Proof.
  unfold splice1. intros H. apply in_app_or in H. destruct H as [H|H].
  - rewrite <- (firstn_skipn index l). apply in_or_app. now left.
  - rewrite <- (firstn_skipn (S index) l). apply in_or_app. now right.
Qed.

Section EditingFacts.

Variable getDistanceMeters : Q -> Q -> Q -> Q -> Q.
Variable cosEighth : nat -> Q.
Variable sinEighth : nat -> Q.
Variable cosDeg : Q -> Q.
Variable geo : PlannerState.

Abbreviation handleEvent := (handle getDistanceMeters cosEighth sinEighth cosDeg geo).
Abbreviation edited st0 edits := (fold_left handleEvent edits st0).
Abbreviation inside lat0 lng0 := (isPointInKosovo (kosovoBorderCoords geo) lat0 lng0).

Lemma edits_invariant (P : EditState -> Prop) (allowed : Event -> bool) (st0 : EditState) :
  P st0 ->
  (forall st e, allowed e = true -> P st -> P (handleEvent st e)) ->
  forall edits, forallb allowed edits = true -> P (edited st0 edits).
Proof.
  intros Hinit Hstep edits.
  induction edits as [|e edits IH] using rev_ind; intros Hall; [exact Hinit|].
  rewrite forallb_app in Hall. apply andb_true_iff in Hall. destruct Hall as [Hall He].
  cbn [forallb] in He. rewrite andb_true_r in He.
  rewrite fold_left_app. cbn [fold_left]. apply Hstep; [assumption|now apply IH].
Qed.

Lemma wellFormed_tool (st : EditState) (tool : option string) :
  wellFormed st ->
  wellFormed (mkEditState (st_waypoints st) (st_operationArea st) (st_flightType st) tool).
Proof. intros H. exact H. Qed.

Lemma wellFormed_empty (area0 : option ClientArea) (tool : option string) :
  wellFormed (mkEditState [] area0
                (match area0 with Some _ => "area" | None => "waypoint" end) tool).
Proof.
  unfold wellFormed. cbn [st_waypoints st_operationArea st_flightType map List.length seq].
  repeat split.
  - intros [|i] wp H; discriminate H.
  - destruct area0; [left|right]; now split.
Qed.

Lemma wellFormed_addWaypoint (lat0 lng0 : Q) (st : EditState) :
  wellFormed st -> wellFormed (addWaypoint lat0 lng0 st).
Proof.
  intros (Horder & Hindex & Harea & Htype). unfold addWaypoint. cbn zeta.
  assert (Hwps : st_waypoints
                   (match st_operationArea st with
                    | Some _ => mkEditState (st_waypoints st) None "waypoint" (st_currentTool st)
                    | None => st
                    end) = st_waypoints st) by now destruct (st_operationArea st).
  assert (Hnone : st_operationArea
                    (match st_operationArea st with
                     | Some _ => mkEditState (st_waypoints st) None "waypoint" (st_currentTool st)
                     | None => st
                     end) = None) by now destruct (st_operationArea st) eqn:E.
  assert (Hft : st_flightType
                  (match st_operationArea st with
                   | Some _ => mkEditState (st_waypoints st) None "waypoint" (st_currentTool st)
                   | None => st
                   end) = "waypoint"%string).
  { destruct (st_operationArea st) eqn:E; [reflexivity|].
    destruct Htype as [(_ & H)|(H & _)]; [now elim H|assumption]. }
  unfold wellFormed. cbn [st_waypoints st_operationArea st_flightType].
  rewrite Hwps, Hnone, Hft. repeat split.
  - rewrite map_app, length_app, Horder. cbn [map List.length wp_order].
    rewrite Nat.add_1_r, seq_S. reflexivity.
  - intros i wp H.
    destruct (Nat.lt_ge_cases i (List.length (st_waypoints st))) as [Hlt|Hge].
    + rewrite nth_error_app1 in H by assumption. now apply Hindex.
    + rewrite nth_error_app2 in H by assumption.
      destruct (i - List.length (st_waypoints st))%nat as [|k] eqn:E.
      * cbn in H. injection H as <-. cbn [wp_index]. lia.
      * destruct k; discriminate H.
  - intros H. now elim H.
  - right. now split.
Qed.

Lemma wellFormed_updateAt (f : Waypoint -> Waypoint) (index : nat) (st : EditState) :
  (forall wp, wp_order (f wp) = wp_order wp) ->
  (forall wp, wp_index (f wp) = wp_index wp) ->
  wellFormed st ->
  wellFormed (mkEditState (updateAt index f (st_waypoints st))
                (st_operationArea st) (st_flightType st) (st_currentTool st)).
Proof.
  intros Hforder Hfindex (Horder & Hindex & Harea & Htype). unfold wellFormed.
  cbn [st_waypoints st_operationArea st_flightType]. repeat split.
  - now rewrite updateAt_length, updateAt_map.
  - intros i wp. rewrite updateAt_nth_error.
    destruct (Nat.eqb index i); [|apply Hindex].
    destruct (nth_error (st_waypoints st) i) as [old|] eqn:E; [|discriminate].
    cbn [option_map]. intros [= <-]. rewrite Hfindex. now apply Hindex.
  - intros H. rewrite (Harea H). now destruct index.
  - exact Htype.
Qed.

Lemma wellFormed_applyOptimizedRoute (route : list RouteWaypoint) (st : EditState) :
  wellFormed st -> wellFormed (applyOptimizedRoute route st).
Proof.
  intros Hst. unfold applyOptimizedRoute. destruct route as [|wp0 route]; [assumption|].
  assert (Hstart : wellFormed
                     (mkEditState [] (st_operationArea st) (st_flightType st)
                        (st_currentTool st))).
  { destruct Hst as (_ & _ & _ & Htype).
    pose proof (wellFormed_empty (st_operationArea st) (st_currentTool st)) as H.
    destruct Htype as [(Hft & Ha)|(Hft & Ha)]; rewrite Hft.
    - destruct (st_operationArea st); [exact H|now elim Ha].
    - rewrite Ha in *. exact H. }
  generalize dependent (mkEditState [] (st_operationArea st) (st_flightType st)
                          (st_currentTool st)).
  clear Hst. induction (wp0 :: route) as [|wp rest IH]; intros st0 Hst0; [assumption|].
  cbn [fold_left]. apply IH. unfold applyOne. cbn zeta.
  apply (wellFormed_updateAt
           (fun w => mkWaypoint (wp_lat w) (wp_lng w) (rw_altitude wp) (wp_order w)
                       (wp_index w))
           _ (addWaypoint (rw_lat wp) (rw_lng wp) st0)); try reflexivity.
  now apply wellFormed_addWaypoint.
Qed.

Lemma wellFormed_removeWaypoint (index : nat) (st : EditState) :
  wellFormed st -> wellFormed (removeWaypoint index st).
Proof.
  intros Hst. unfold removeWaypoint.
  destruct (nth_error (st_waypoints st) index) as [found|] eqn:E; [|assumption].
  destruct Hst as (Horder & Hindex & Harea & Htype). unfold wellFormed.
  cbn [st_waypoints st_operationArea st_flightType]. repeat split.
  - now rewrite renumber_order, renumber_length.
  - intros i wp H. destruct (renumber_nth_error _ _ _ _ H) as (old & Hold & ->).
    cbn [wp_index]. destruct (splice1_nth_error _ _ _ _ Hold) as [H1|H1];
      apply Hindex in H1; lia.
  - intros H. rewrite (Harea H) in E. now destruct index.
  - exact Htype.
Qed.

Lemma wellFormed_handle (st : EditState) (e : Event) :
  wellFormed st -> wellFormed (handleEvent st e).
Proof.
  intros Hst. destruct e as [lat0 lng0|marker lat0 lng0|index|tool|layer| |route];
    cbn [handle].
  - unfold onMapClick. destruct (st_currentTool st) as [tool|]; [|assumption].
    destruct (negb (String.eqb tool "waypoint")); [assumption|].
    destruct (negb (inside lat0 lng0)); [assumption|].
    destruct (restricted _); [assumption|].
    destruct (checkNewWaypointTrajectory _ _ _ _); [assumption|].
    now apply wellFormed_addWaypoint.
  - destruct (nth_error (st_waypoints st) marker) as [wp|]; [|assumption].
    unfold dragEnd. destruct (negb (inside lat0 lng0)); [assumption|].
    destruct (restricted _); [assumption|].
    destruct (checkTrajectoryValidity _ _ _ _ _) as [[issue|]|]; try assumption.
    now apply wellFormed_updateAt.
  - now apply wellFormed_removeWaypoint.
  - unfold toolClick. destruct (String.eqb tool "clear").
    + exact (wellFormed_empty None (st_currentTool st)).
    + now apply wellFormed_tool.
  - unfold drawCreated. destruct (acceptedArea _ _ _ _ _ layer) as [area0|].
    + exact (wellFormed_empty (Some area0) None).
    + now apply wellFormed_tool.
  - now apply wellFormed_tool.
  - now apply wellFormed_applyOptimizedRoute.
Qed.

Lemma acceptedArea_circle (layer : Layer) (c : LatLng) (r : Q) :
  acceptedArea getDistanceMeters cosEighth sinEighth cosDeg geo layer = Some (CircleArea c r) ->
  inside (lat c) (lng c) = true
  /\ (forall p, In p (perimeter cosEighth sinEighth cosDeg c r) ->
      inside (lat p) (lng p) = true)
  /\ doesAreaOverlapRestricted getDistanceMeters cosEighth sinEighth cosDeg geo
       "circle" c r None = Unrestricted.
Proof.
  destruct layer as [c0 r0|c0 b0]; cbn [acceptedArea]; cbn zeta.
  - destruct (negb (inside (lat c0) (lng c0))) eqn:Ec; [discriminate|].
    destruct (forallb _ _) eqn:Ep; [|discriminate].
    destruct (restricted _) eqn:Er; [discriminate|].
    intros [= <- <-]. apply negb_false_iff in Ec. repeat split; [assumption| |].
    + rewrite forallb_forall in Ep. exact Ep.
    + now apply areaOverlap_verdict.
  - destruct (forallb _ _); [|discriminate]. destruct (restricted _); discriminate.
Qed.

Lemma acceptedArea_rectangle (layer : Layer) (c : LatLng) (b : Bounds) :
  acceptedArea getDistanceMeters cosEighth sinEighth cosDeg geo layer
  = Some (RectangleArea c b) ->
  (forall p, In p (corners b) -> inside (lat p) (lng p) = true)
  /\ doesAreaOverlapRestricted getDistanceMeters cosEighth sinEighth cosDeg geo
       "rectangle" c 0 (Some b) = Unrestricted.
Proof.
  destruct layer as [c0 r0|c0 b0]; cbn [acceptedArea]; cbn zeta.
  - destruct (negb _); [discriminate|]. destruct (forallb _ _); [|discriminate].
    destruct (restricted _); discriminate.
  - destruct (forallb _ _) eqn:Ep; [|discriminate].
    destruct (restricted _) eqn:Er; [discriminate|].
    intros [= <- <-]. split.
    + rewrite forallb_forall in Ep. exact Ep.
    + now apply areaOverlap_verdict.
Qed.

(** Manual edits from a state without waypoints and without area, under
    geodata that stays as it is. *)
Lemma manual_edits_safe (st0 : EditState) (edits : list Event) :
  st_waypoints st0 = [] ->
  st_operationArea st0 = None ->
  forallb isManual edits = true ->
  let st := edited st0 edits in
  (forall wp, In wp (st_waypoints st) ->
     placeable getDistanceMeters geo (wp_lat wp) (wp_lng wp))
  /\ (forall c r, st_operationArea st = Some (CircleArea c r) ->
      inside (lat c) (lng c) = true
      /\ (forall p, In p (perimeter cosEighth sinEighth cosDeg c r) ->
          inside (lat p) (lng p) = true)
      /\ doesAreaOverlapRestricted getDistanceMeters cosEighth sinEighth cosDeg geo
           "circle" c r None = Unrestricted)
  /\ (forall c b, st_operationArea st = Some (RectangleArea c b) ->
      (forall p, In p (corners b) -> inside (lat p) (lng p) = true)
      /\ doesAreaOverlapRestricted getDistanceMeters cosEighth sinEighth cosDeg geo
           "rectangle" c 0 (Some b) = Unrestricted).
Proof.
  intros Hwps0 Harea0 Hmanual. cbn zeta.
  assert (H : (forall wp, In wp (st_waypoints (edited st0 edits)) ->
                 placeable getDistanceMeters geo (wp_lat wp) (wp_lng wp))
              /\ (forall area0, st_operationArea (edited st0 edits) = Some area0 ->
                  exists layer,
                    acceptedArea getDistanceMeters cosEighth sinEighth cosDeg geo layer
                    = Some area0)).
  { apply (edits_invariant
             (fun st =>
                (forall wp, In wp (st_waypoints st) ->
                   placeable getDistanceMeters geo (wp_lat wp) (wp_lng wp))
                /\ (forall area0, st_operationArea st = Some area0 ->
                    exists layer,
                      acceptedArea getDistanceMeters cosEighth sinEighth cosDeg geo layer
                      = Some area0))
             isManual); [| |assumption].
    - rewrite Hwps0, Harea0. split; [intros wp []|discriminate].
    - intros st e He (Hwps & Harea).
      destruct e as [lat0 lng0|marker lat0 lng0|index|tool|layer| |route];
        cbn [handle]; try discriminate He.
      + unfold onMapClick. destruct (st_currentTool st) as [tool|]; [|now split].
        destruct (negb (String.eqb tool "waypoint")); [now split|].
        destruct (negb (inside lat0 lng0)) eqn:Ein; [now split|].
        destruct (restricted _) eqn:Er; [now split|].
        destruct (checkNewWaypointTrajectory _ _ _ _); [now split|].
        apply negb_false_iff in Ein. unfold addWaypoint. cbn zeta.
        cbn [st_waypoints st_operationArea]. split.
        * intros wp Hwp. apply in_app_or in Hwp. destruct Hwp as [Hwp|[<-|[]]].
          -- apply Hwps. now destruct (st_operationArea st).
          -- now split.
        * intros area0 H. destruct (st_operationArea st) eqn:E; [discriminate H|].
          apply Harea. now rewrite <- E.
      + destruct (nth_error (st_waypoints st) marker) as [dragged|]; [|now split].
        unfold dragEnd. destruct (negb (inside lat0 lng0)) eqn:Ein; [now split|].
        destruct (restricted _) eqn:Er; [now split|].
        destruct (checkTrajectoryValidity _ _ _ _ _) as [[issue|]|]; try now split.
        apply negb_false_iff in Ein. cbn [st_waypoints st_operationArea].
        split; [|assumption].
        intros wp Hwp. apply updateAt_In in Hwp.
        destruct Hwp as [Hwp|(old & _ & ->)]; [now apply Hwps|now split].
      + unfold removeWaypoint.
        destruct (nth_error (st_waypoints st) index); [|now split].
        cbn [st_waypoints st_operationArea]. split; [|assumption].
        intros wp Hwp. apply renumber_In in Hwp.
        destruct Hwp as (old & Hold & -> & ->). apply Hwps.
        exact (splice1_In _ _ _ Hold).
      + unfold toolClick. destruct (String.eqb tool "clear").
        * split; [intros wp []|discriminate].
        * now split.
      + unfold drawCreated.
        destruct (acceptedArea _ _ _ _ _ layer) as [area0|] eqn:E; [|now split].
        cbn [st_waypoints st_operationArea]. split; [intros wp []|].
        intros area1 [= <-]. now exists layer.
      + now split. }
  destruct H as (Hwps & Harea). split; [assumption|]. split.
  - intros c r Hc. destruct (Harea _ Hc) as (layer & Hl).
    exact (acceptedArea_circle layer c r Hl).
  - intros c b Hc. destruct (Harea _ Hc) as (layer & Hl).
    exact (acceptedArea_rectangle layer c b Hl).
Qed.

(** ** Segments between waypoints *)

Lemma consecutive_snoc (clear : Waypoint -> Waypoint -> Prop) (ws : list Waypoint) :
  forall w x,
    consecutive clear (w :: ws) -> clear (last ws w) x ->
    consecutive clear ((w :: ws) ++ [x]).
Proof.
  induction ws as [|b ws IH]; intros w x Hws Hlast.
  - cbn in *. now split.
  - rewrite last_cons_default in Hlast. destruct Hws as [Hwb Hrest].
    change (clear w b /\ consecutive clear ((b :: ws) ++ [x])).
    split; [assumption|now apply IH].
Qed.

Lemma consecutive_updateAt (clear : Waypoint -> Waypoint -> Prop)
    (f : Waypoint -> Waypoint) (l : list Waypoint) :
  forall i,
    consecutive clear l ->
    (forall prev x,
        (0 < i)%nat -> nth_error l (i - 1) = Some prev -> nth_error l i = Some x ->
        clear prev (f x)) ->
    (forall next x,
        nth_error l (i + 1) = Some next -> nth_error l i = Some x -> clear (f x) next) ->
    consecutive clear (updateAt i f l).
Proof.
  induction l as [|a l IH]; intros i Hl Hprev Hnext; [now destruct i|].
  destruct i as [|i].
  - cbn [updateAt]. destruct l as [|b l]; [exact I|].
    destruct Hl as [_ Hrest]. split; [|assumption].
    now apply (Hnext b a).
  - cbn [updateAt]. destruct l as [|b l]; [now destruct i|].
    destruct Hl as [Hab Hrest].
    assert (Htail : consecutive clear (updateAt i f (b :: l))).
    { apply IH; [assumption| |].
      - intros prev x Hi Hp Hx. apply (Hprev prev x); [lia| |assumption].
        destruct i as [|i]; [lia|]. cbn [Nat.sub nth_error] in *.
        now rewrite Nat.sub_0_r in Hp.
      - intros next x Hn Hx. now apply (Hnext next x). }
    destruct i as [|i].
    + cbn [updateAt] in *. split; [|assumption].
      now apply (Hprev a b); [lia|reflexivity|reflexivity].
    + cbn [updateAt] in *. now split.
Qed.

Lemma checkTrajectoryValidity_none (wps : list Waypoint) (i : nat) (lat0 lng0 : Q) :
  checkTrajectoryValidity geo wps i lat0 lng0 = Returns None
  <-> (i = 0%nat
       \/ exists prev,
            nth_error wps (i - 1) = Some prev
            /\ crosses geo (wp_lat prev) (wp_lng prev) lat0 lng0 = false)
      /\ (forall next,
          nth_error wps (i + 1) = Some next ->
          crosses geo lat0 lng0 (wp_lat next) (wp_lng next) = false).
Proof.
  unfold checkTrajectoryValidity. cbn zeta.
  assert (Hfrom :
            (if (i <? List.length wps - 1)%nat
             then match nth_error wps (i + 1) with
                  | Some nextWp =>
                      if crosses geo lat0 lng0 (wp_lat nextWp) (wp_lng nextWp)
                      then Returns (Some (CrossesBetween (i + 1) (i + 2)))
                      else Returns None
                  | None => Throws
                  end
             else Returns None) = Returns None
            <-> forall next,
                nth_error wps (i + 1) = Some next ->
                crosses geo lat0 lng0 (wp_lat next) (wp_lng next) = false).
  { destruct (i <? List.length wps - 1)%nat eqn:E.
    - apply Nat.ltb_lt in E.
      destruct (nth_error wps (i + 1)) as [next|] eqn:N.
      + destruct (crosses geo lat0 lng0 (wp_lat next) (wp_lng next)) eqn:C.
        * split; [discriminate|]. intros H. specialize (H next eq_refl). congruence.
        * split; [|reflexivity]. now intros _ next' [= <-].
      + apply nth_error_None in N. lia.
    - apply Nat.ltb_ge in E. split; [|reflexivity]. intros _ next N.
      assert (nth_error wps (i + 1) <> None) as Hn by now rewrite N.
      apply nth_error_Some in Hn. lia. }
  destruct (0 <? i)%nat eqn:E0.
  - apply Nat.ltb_lt in E0.
    destruct (nth_error wps (i - 1)) as [prev|] eqn:P.
    + destruct (crosses geo (wp_lat prev) (wp_lng prev) lat0 lng0) eqn:C.
      * split; [discriminate|]. intros ([H|(p & [= <-] & H)] & _); [lia|].
        rewrite H in C. discriminate.
      * rewrite Hfrom. split; [|now intros (_ & H)].
        intros H. split; [|assumption]. right. now exists prev.
    + split; [discriminate|]. intros ([H|(p & H & _)] & _); [lia|discriminate].
  - apply Nat.ltb_ge in E0. rewrite Hfrom. split; [|now intros (_ & H)].
    intros H. split; [|assumption]. left. lia.
Qed.

Lemma checkNewWaypointTrajectory_none (wps : list Waypoint) (lat0 lng0 : Q) :
  checkNewWaypointTrajectory geo wps lat0 lng0 = None
  <-> match wps with
      | [] => True
      | w :: ws => crosses geo (wp_lat (last ws w)) (wp_lng (last ws w)) lat0 lng0 = false
      end.
Proof.
  unfold checkNewWaypointTrajectory. destruct wps as [|w ws]; [now split|].
  cbn zeta. destruct (crosses _ _ _ _ _); split; intros H; try reflexivity; discriminate.
Qed.

Lemma segmentsFrom_invalid (rest : list Waypoint) :
  forall wp1,
    snd (segmentsFrom geo wp1 rest) = [] <-> consecutive (clearBetween geo) (wp1 :: rest).
Proof.
  induction rest as [|wp2 rest IH]; intros wp1; [now split|].
  cbn [segmentsFrom]. specialize (IH wp2).
  destruct (segmentsFrom geo wp2 rest) as [validSegments invalidSegments].
  cbn [snd] in IH.
  change (consecutive (clearBetween geo) (wp1 :: wp2 :: rest))
    with (clearBetween geo wp1 wp2 /\ consecutive (clearBetween geo) (wp2 :: rest)).
  unfold clearBetween at 1.
  destruct (crosses geo (wp_lat wp1) (wp_lng wp1) (wp_lat wp2) (wp_lng wp2)); cbn [snd].
  - split; [discriminate|]. now intros (H & _).
  - rewrite IH. split; [now split|now intros (_ & H)].
Qed.

Lemma updateFlightPath_invalid (wps : list Waypoint) :
  snd (updateFlightPath geo wps) = [] <-> consecutive (clearBetween geo) wps.
Proof.
  destruct wps as [|wp1 rest]; [now split|]. apply segmentsFrom_invalid.
Qed.

(** Edits that keep the markers, from a state without waypoints, under
    geodata that stays as it is. *)
Lemma edits_keep_path_clear (st0 : EditState) (edits : list Event) :
  st_waypoints st0 = [] ->
  forallb keepsMarkers edits = true ->
  let st := edited st0 edits in
  consecutive (clearBetween geo) (st_waypoints st)
  /\ (forall i wp, nth_error (st_waypoints st) i = Some wp -> wp_index wp = i)
  /\ snd (updateFlightPath geo (st_waypoints st)) = [].
Proof.
  intros Hwps0 Hkeeps. cbn zeta.
  assert (H : consecutive (clearBetween geo) (st_waypoints (edited st0 edits))
              /\ (forall i wp,
                  nth_error (st_waypoints (edited st0 edits)) i = Some wp ->
                  wp_index wp = i)).
  { apply (edits_invariant
             (fun st =>
                consecutive (clearBetween geo) (st_waypoints st)
                /\ (forall i wp, nth_error (st_waypoints st) i = Some wp -> wp_index wp = i))
             keepsMarkers); [| |assumption].
    - rewrite Hwps0. split; [exact I|]. intros [|i] wp H; discriminate H.
    - intros st e He (Hclear & Hindex).
      destruct e as [lat0 lng0|marker lat0 lng0|index|tool|layer| |route];
        cbn [handle]; try discriminate He.
      + unfold onMapClick. destruct (st_currentTool st) as [tool|]; [|now split].
        destruct (negb (String.eqb tool "waypoint")); [now split|].
        destruct (negb (inside lat0 lng0)); [now split|].
        destruct (restricted _); [now split|].
        destruct (checkNewWaypointTrajectory geo (st_waypoints st) lat0 lng0) eqn:N;
          [now split|].
        apply checkNewWaypointTrajectory_none in N.
        unfold addWaypoint. cbn zeta. cbn [st_waypoints].
        assert (Hwps : st_waypoints
                         (match st_operationArea st with
                          | Some _ =>
                              mkEditState (st_waypoints st) None "waypoint"
                                (st_currentTool st)
                          | None => st
                          end) = st_waypoints st) by now destruct (st_operationArea st).
        rewrite Hwps. split.
        * destruct (st_waypoints st) as [|w ws]; [exact I|].
          now apply consecutive_snoc.
        * intros i wp H.
          destruct (Nat.lt_ge_cases i (List.length (st_waypoints st))) as [Hlt|Hge].
          -- rewrite nth_error_app1 in H by assumption. now apply Hindex.
          -- rewrite nth_error_app2 in H by assumption.
             destruct (i - List.length (st_waypoints st))%nat as [|k] eqn:E.
             ++ cbn in H. injection H as <-. cbn [wp_index]. lia.
             ++ destruct k; discriminate H.
      + destruct (nth_error (st_waypoints st) marker) as [dragged|] eqn:D; [|now split].
        rewrite (Hindex _ _ D). unfold dragEnd.
        destruct (negb (inside lat0 lng0)); [now split|].
        destruct (restricted _); [now split|].
        destruct (checkTrajectoryValidity geo (st_waypoints st) marker lat0 lng0)
          as [[issue|]|] eqn:C; try now split.
        apply checkTrajectoryValidity_none in C. destruct C as (Cprev & Cnext).
        cbn [st_waypoints]. split.
        * apply consecutive_updateAt; [assumption| |].
          -- intros prev x Hpos Hp _. unfold clearBetween. cbn [wp_lat wp_lng].
             destruct Cprev as [->|(p & Hp' & Hc)]; [lia|].
             rewrite Hp in Hp'. now injection Hp' as <-.
          -- intros next x Hn _. unfold clearBetween. cbn [wp_lat wp_lng].
             now apply Cnext.
        * intros i wp. rewrite updateAt_nth_error.
          destruct (Nat.eqb marker i); [|apply Hindex].
          destruct (nth_error (st_waypoints st) i) as [old|] eqn:O; [|discriminate].
          cbn [option_map]. intros [= <-]. cbn [wp_index]. now apply Hindex.
      + unfold toolClick. destruct (String.eqb tool "clear"); [|now split].
        split; [exact I|]. intros [|i] wp H; discriminate H.
      + unfold drawCreated. destruct (acceptedArea _ _ _ _ _ layer); [|now split].
        split; [exact I|]. intros [|i] wp H; discriminate H.
      + now split. }
  destruct H as (Hclear & Hindex). repeat split; try assumption.
  now apply updateFlightPath_invalid.
Qed.

(** X21.  [checkTrajectoryValidity] finds nothing exactly when the segment
    from the waypoint before the index (if the index is not 0) and the
    segment to the waypoint after it (if there is one) both pass the border
    test; it throws exactly when the index is beyond the array length; and at
    the array length it finds nothing exactly when
    [checkNewWaypointTrajectory] finds nothing. *)
Theorem checkTrajectoryValidity_adjacent (wps : list Waypoint) (i : nat) (lat0 lng0 : Q) :
  (checkTrajectoryValidity geo wps i lat0 lng0 = Returns None
   <-> (i = 0%nat
        \/ exists prev,
             nth_error wps (i - 1) = Some prev
             /\ crosses geo (wp_lat prev) (wp_lng prev) lat0 lng0 = false)
       /\ (forall next,
           nth_error wps (i + 1) = Some next ->
           crosses geo lat0 lng0 (wp_lat next) (wp_lng next) = false))
  /\ (checkTrajectoryValidity geo wps i lat0 lng0 = Throws <-> (List.length wps < i)%nat)
  /\ (checkNewWaypointTrajectory geo wps lat0 lng0 = None
      <-> checkTrajectoryValidity geo wps (List.length wps) lat0 lng0 = Returns None).
Proof.
  split; [apply checkTrajectoryValidity_none|]. split.
  - unfold checkTrajectoryValidity. cbn zeta.
    assert (Hfrom :
              (if (i <? List.length wps - 1)%nat
               then match nth_error wps (i + 1) with
                    | Some nextWp =>
                        if crosses geo lat0 lng0 (wp_lat nextWp) (wp_lng nextWp)
                        then Returns (Some (CrossesBetween (i + 1) (i + 2)))
                        else Returns None
                    | None => Throws
                    end
               else Returns None) = Throws -> False).
    { destruct (i <? List.length wps - 1)%nat eqn:E; [|discriminate].
      apply Nat.ltb_lt in E. destruct (nth_error wps (i + 1)) as [next|] eqn:N.
      - destruct (crosses _ _ _ _ _); discriminate.
      - apply nth_error_None in N. lia. }
    destruct (0 <? i)%nat eqn:E0.
    + apply Nat.ltb_lt in E0. destruct (nth_error wps (i - 1)) as [prev|] eqn:P.
      * assert (nth_error wps (i - 1) <> None) as Hp by now rewrite P.
        apply nth_error_Some in Hp.
        destruct (crosses _ _ _ _ _).
        -- split; [discriminate|lia].
        -- split; [intros H; now elim Hfrom|lia].
      * apply nth_error_None in P. split; [lia|reflexivity].
    + apply Nat.ltb_ge in E0. split; [intros H; now elim Hfrom|lia].
  - rewrite checkNewWaypointTrajectory_none, checkTrajectoryValidity_none.
    destruct wps as [|w ws].
    + split; [|reflexivity]. intros _. split; [now left|]. intros next H. discriminate H.
    + cbn [List.length]. rewrite Nat.sub_succ, Nat.sub_0_r.
      assert (Hlast : nth_error (w :: ws) (List.length ws) = Some (last ws w)).
      { clear. revert w. induction ws as [|b ws IH]; intros w; [reflexivity|].
        rewrite last_cons_default. cbn [List.length nth_error]. apply IH. }
      rewrite Hlast. split.
      * intros H. split; [right; now exists (last ws w)|].
        intros next Hn.
        assert (nth_error (w :: ws) (S (List.length ws) + 1) <> None) as Hs
            by now rewrite Hn.
        apply nth_error_Some in Hs. cbn [List.length] in Hs. lia.
      * intros ([H|(prev & [= <-] & H)] & _); [discriminate|assumption].
Qed.

(** X22.  [updateFlightPath] sorts each of the segments between consecutive
    waypoints into exactly one of its two lists: the valid ones all pass the
    border test, the invalid ones all fail it, together they are one fewer
    than the waypoints, and nothing is drawn for fewer than two waypoints. *)
Theorem updateFlightPath_partition (wps : list Waypoint) :
  let validSegments := fst (updateFlightPath geo wps) in
  let invalidSegments := snd (updateFlightPath geo wps) in
  (List.length validSegments + List.length invalidSegments = List.length wps - 1)%nat
  /\ (forall a b, In (a, b) validSegments ->
      crosses geo (lat a) (lng a) (lat b) (lng b) = false)
  /\ (forall a b, In (a, b) invalidSegments ->
      crosses geo (lat a) (lng a) (lat b) (lng b) = true)
  /\ (invalidSegments = [] <-> consecutive (clearBetween geo) wps).
Proof.
  cbn zeta. split; [|split; [|split; [|apply updateFlightPath_invalid]]].
  - destruct wps as [|wp1 rest]; [reflexivity|]. cbn [updateFlightPath List.length].
    rewrite Nat.sub_succ, Nat.sub_0_r. revert wp1.
    induction rest as [|wp2 rest IH]; intros wp1; [reflexivity|].
    cbn [segmentsFrom]. specialize (IH wp2).
    destruct (segmentsFrom geo wp2 rest) as [validSegments invalidSegments].
    cbn [fst snd] in IH. destruct (crosses _ _ _ _ _); cbn [fst snd List.length]; lia.
  - destruct wps as [|wp1 rest]; [intros a b []|]. cbn [updateFlightPath]. revert wp1.
    induction rest as [|wp2 rest IH]; intros wp1 a b; [intros []|].
    cbn [segmentsFrom]. specialize (IH wp2 a b).
    destruct (segmentsFrom geo wp2 rest) as [validSegments invalidSegments].
    cbn [fst] in IH.
    destruct (crosses geo (wp_lat wp1) (wp_lng wp1) (wp_lat wp2) (wp_lng wp2)) eqn:C;
      cbn [fst]; [assumption|].
    intros [[= <- <-]|H]; [exact C|now apply IH].
  - destruct wps as [|wp1 rest]; [intros a b []|]. cbn [updateFlightPath]. revert wp1.
    induction rest as [|wp2 rest IH]; intros wp1 a b; [intros []|].
    cbn [segmentsFrom]. specialize (IH wp2 a b).
    destruct (segmentsFrom geo wp2 rest) as [validSegments invalidSegments].
    cbn [snd] in IH.
    destruct (crosses geo (wp_lat wp1) (wp_lng wp1) (wp_lat wp2) (wp_lng wp2)) eqn:C;
      cbn [snd]; [|assumption].
    intros [[= <- <-]|H]; [exact C|now apply IH].
Qed.

End EditingFacts.

(** ** The planner while the zone data arrives *)

Section PageFacts.

Variable getDistanceMeters : Q -> Q -> Q -> Q -> Q.
Variable cosEighth : nat -> Q.
Variable sinEighth : nat -> Q.
Variable cosDeg : Q -> Q.

Lemma after_app (geo0 : PlannerState) (events more : list PageEvent) :
  after getDistanceMeters cosEighth sinEighth cosDeg geo0 (events ++ more)
  = fold_left (step getDistanceMeters cosEighth sinEighth cosDeg) more
      (after getDistanceMeters cosEighth sinEighth cosDeg geo0 events).
Proof. unfold after. apply fold_left_app. Qed.

(** User events alone leave the geodata as it is. *)
Lemma user_steps (edits : list Event) :
  forall page,
    fold_left (step getDistanceMeters cosEighth sinEighth cosDeg) (map User edits) page
    = mkPage (page_geo page)
        (fold_left (handle getDistanceMeters cosEighth sinEighth cosDeg (page_geo page))
                   edits (page_state page)).
Proof.
  induction edits as [|e edits IH]; intros page; [now destruct page|].
  cbn [map fold_left]. rewrite IH. reflexivity.
Qed.

(** X18.  Whatever happens on the page (clicks, drags, removals, tool
    buttons, drawn shapes, applied routes, and the arrival of zone data at
    any moment), the editing state keeps its shape: every waypoint's [order]
    is its position in the array, the index a marker drags with is never
    below that position, a stored area means an empty waypoint array, and
    [flightType] is ['area'] exactly when an area is stored. *)
Theorem editing_keeps_shape (geo0 : PlannerState) (events : list PageEvent) :
  let st := page_state (after getDistanceMeters cosEighth sinEighth cosDeg geo0 events) in
  map wp_order (st_waypoints st) = seq 0 (List.length (st_waypoints st))
  /\ (forall i wp, nth_error (st_waypoints st) i = Some wp -> (i <= wp_index wp)%nat)
  /\ (st_operationArea st <> None -> st_waypoints st = [])
  /\ (st_flightType st = "area"%string <-> st_operationArea st <> None).
Proof.
  cbn zeta.
  assert (H : wellFormed
                (page_state (after getDistanceMeters cosEighth sinEighth cosDeg geo0 events))).
  { induction events as [|e events IH] using rev_ind.
    - exact (wellFormed_empty None None).
    - rewrite after_app. cbn [fold_left].
      destruct e as [e'|zoneData]; cbn [step page_state]; [|exact IH].
      apply wellFormed_handle. exact IH. }
  destruct H as (Horder & Hindex & Harea & Htype). repeat split; try assumption.
  - intros Hft. destruct Htype as [(_ & H)|(H & _)]; [assumption|].
    rewrite H in Hft. discriminate.
  - intros Ha. destruct Htype as [(H & _)|(_ & H)]; [assumption|now elim Ha].
Qed.

(** X19.  The handlers test a point against the geodata that is there when
    they run, and zone data that arrives later does not touch what is already
    placed.  So: from a moment at which the page holds no waypoint and no
    area (a freshly loaded page, for one, before or after the zone data has
    arrived), as long as no further zone data arrives and no optimised route
    is applied, every waypoint of the editing state passes the border test
    and the restriction test where it now lies, under the geodata of the
    page, also after drags and removals; a stored circle has its centre and
    eight perimeter points inside the border, a stored rectangle its four
    corners, and either passed the area test. *)
Theorem manual_editing_is_safe (geo0 : PlannerState) (earlier : list PageEvent)
    (edits : list Event) :
  st_waypoints (page_state (after getDistanceMeters cosEighth sinEighth cosDeg geo0 earlier))
  = [] ->
  st_operationArea
    (page_state (after getDistanceMeters cosEighth sinEighth cosDeg geo0 earlier)) = None ->
  forallb isManual edits = true ->
  let page :=
    after getDistanceMeters cosEighth sinEighth cosDeg geo0 (earlier ++ map User edits) in
  let geo := page_geo page in
  let st := page_state page in
  geo = page_geo (after getDistanceMeters cosEighth sinEighth cosDeg geo0 earlier)
  /\ (forall wp, In wp (st_waypoints st) ->
      placeable getDistanceMeters geo (wp_lat wp) (wp_lng wp))
  /\ (forall c r, st_operationArea st = Some (CircleArea c r) ->
      isPointInKosovo (kosovoBorderCoords geo) (lat c) (lng c) = true
      /\ (forall p, In p (perimeter cosEighth sinEighth cosDeg c r) ->
          isPointInKosovo (kosovoBorderCoords geo) (lat p) (lng p) = true)
      /\ doesAreaOverlapRestricted getDistanceMeters cosEighth sinEighth cosDeg geo
           "circle" c r None = Unrestricted)
  /\ (forall c b, st_operationArea st = Some (RectangleArea c b) ->
      (forall p, In p (corners b) ->
         isPointInKosovo (kosovoBorderCoords geo) (lat p) (lng p) = true)
      /\ doesAreaOverlapRestricted getDistanceMeters cosEighth sinEighth cosDeg geo
           "rectangle" c 0 (Some b) = Unrestricted).
Proof.
  intros Hwps Harea Hmanual. cbn zeta. rewrite after_app, user_steps.
  cbn [page_geo page_state]. split; [reflexivity|].
  now apply manual_edits_safe.
Qed.

(** X20.  From a moment at which the page holds no waypoint, as long as no
    further zone data arrives, no waypoint is removed and no optimised route
    is applied, every marker drags with the index of its own waypoint and
    every segment between consecutive waypoints passes the border test at its
    nineteen samples under the geodata of the page, so [updateFlightPath] has
    no segment to paint as invalid. *)
Theorem editing_without_removal_keeps_path_clear (geo0 : PlannerState)
    (earlier : list PageEvent) (edits : list Event) :
  st_waypoints (page_state (after getDistanceMeters cosEighth sinEighth cosDeg geo0 earlier))
  = [] ->
  forallb keepsMarkers edits = true ->
  let page :=
    after getDistanceMeters cosEighth sinEighth cosDeg geo0 (earlier ++ map User edits) in
  let geo := page_geo page in
  let st := page_state page in
  geo = page_geo (after getDistanceMeters cosEighth sinEighth cosDeg geo0 earlier)
  /\ consecutive (clearBetween geo) (st_waypoints st)
  /\ (forall i wp, nth_error (st_waypoints st) i = Some wp -> wp_index wp = i)
  /\ snd (updateFlightPath geo (st_waypoints st)) = [].
Proof.
  intros Hwps Hkeeps. cbn zeta. rewrite after_app, user_steps.
  cbn [page_geo page_state]. split; [reflexivity|].
  now apply edits_keep_path_clear.
Qed.

End PageFacts.

(** The tool is chosen and a click outside the fallback box is refused before
    the zone data arrives; the waypoint placed afterwards is tested against
    the data that has arrived. *)
Lemma manual_editing_is_safe_witness :
  page_geo
    (after meridianDistance (fun _ => 1) (fun _ => 0) cosUnit initialGeo
       ([User (ToolClick "waypoint"); User (MapClick 45 21); ZonesArrived demoZoneData]
        ++ map User [MapClick (4260 # 100) (2090 # 100)])) = demoState
  /\ map (fun wp => (wp_lat wp, wp_lng wp))
       (st_waypoints
          (page_state
             (after meridianDistance (fun _ => 1) (fun _ => 0) cosUnit initialGeo
                ([User (ToolClick "waypoint"); User (MapClick 45 21);
                  ZonesArrived demoZoneData]
                 ++ map User [MapClick (4260 # 100) (2090 # 100)]))))
     = [(4260 # 100, 2090 # 100)]
  /\ placeable meridianDistance demoState (4260 # 100) (2090 # 100).
Proof.
  split; [vm_compute; reflexivity|]. split; [vm_compute; reflexivity|].
  apply (proj1 (proj2 (manual_editing_is_safe meridianDistance (fun _ => 1) (fun _ => 0)
                         cosUnit initialGeo
                         [User (ToolClick "waypoint"); User (MapClick 45 21);
                          ZonesArrived demoZoneData]
                         [MapClick (4260 # 100) (2090 # 100)] eq_refl eq_refl eq_refl))
               (mkWaypoint (4260 # 100) (2090 # 100) 100 0 0)).
  vm_compute. left. reflexivity.
Defined.

Lemma editing_without_removal_keeps_path_clear_witness :
  map (fun wp => (wp_lat wp, wp_lng wp))
    (st_waypoints
       (page_state
          (after meridianDistance (fun _ => 1) (fun _ => 0) cosUnit initialGeo
             ([User (ToolClick "waypoint"); ZonesArrived demoZoneData]
              ++ map User [MapClick (4260 # 100) (2090 # 100);
                           MapClick (42601 # 1000) (2090 # 100);
                           DragEnd 1 (4261 # 100) (2091 # 100)]))))
  = [(4260 # 100, 2090 # 100); (4261 # 100, 2091 # 100)]
  /\ snd (updateFlightPath demoState
            (st_waypoints
               (page_state
                  (after meridianDistance (fun _ => 1) (fun _ => 0) cosUnit initialGeo
                     ([User (ToolClick "waypoint"); ZonesArrived demoZoneData]
                      ++ map User [MapClick (4260 # 100) (2090 # 100);
                                   MapClick (42601 # 1000) (2090 # 100);
                                   DragEnd 1 (4261 # 100) (2091 # 100)]))))) = [].
Proof.
  split; [vm_compute; reflexivity|].
  apply (proj2 (proj2 (proj2 (editing_without_removal_keeps_path_clear meridianDistance
                                (fun _ => 1) (fun _ => 0) cosUnit initialGeo
                                [User (ToolClick "waypoint"); ZonesArrived demoZoneData]
                                [MapClick (4260 # 100) (2090 # 100);
                                 MapClick (42601 # 1000) (2090 # 100);
                                 DragEnd 1 (4261 # 100) (2091 # 100)] eq_refl eq_refl)))).
Defined.

(** Without that condition neither property holds: two waypoints accepted
    under the fallback box before the zone data arrives stay where they are
    when a border arrives that leaves them outside, and the segment between
    them is then painted as invalid. *)
Example zone_data_strands_waypoints :
  map (fun wp => (wp_lat wp, wp_lng wp))
    (st_waypoints
       (page_state
          (after meridianDistance (fun _ => 1) (fun _ => 0) cosUnit initialGeo
             [User (ToolClick "waypoint"); User (MapClick (4260 # 100) (2090 # 100));
              User (MapClick (42601 # 1000) (2090 # 100));
              ZonesArrived southWestZoneData])))
  = [(4260 # 100, 2090 # 100); (42601 # 1000, 2090 # 100)]
  /\ isPointInKosovo
       (kosovoBorderCoords
          (page_geo
             (after meridianDistance (fun _ => 1) (fun _ => 0) cosUnit initialGeo
                [User (ToolClick "waypoint"); User (MapClick (4260 # 100) (2090 # 100));
                 User (MapClick (42601 # 1000) (2090 # 100));
                 ZonesArrived southWestZoneData])))
       (4260 # 100) (2090 # 100) = false
  /\ List.length
       (snd (updateFlightPath
               (page_geo
                  (after meridianDistance (fun _ => 1) (fun _ => 0) cosUnit initialGeo
                     [User (ToolClick "waypoint");
                      User (MapClick (4260 # 100) (2090 # 100));
                      User (MapClick (42601 # 1000) (2090 # 100));
                      ZonesArrived southWestZoneData]))
               (st_waypoints
                  (page_state
                     (after meridianDistance (fun _ => 1) (fun _ => 0) cosUnit initialGeo
                        [User (ToolClick "waypoint");
                         User (MapClick (4260 # 100) (2090 # 100));
                         User (MapClick (42601 # 1000) (2090 # 100));
                         ZonesArrived southWestZoneData]))))) = 1%nat.
Proof. repeat split; vm_compute; reflexivity. Qed.

(** * Further properties of the route optimiser *)

From Stdlib Require Import Permutation.

Section RouteFacts.

Variable calculateDistance : Q -> Q -> Q -> Q -> Q.
Variable TERRAIN_DATA : list Terrain.

Abbreviation leg := (legDistance calculateDistance).

Lemma nearestLoop_nearest (current d0 : RouteWaypoint) (remaining : list RouteWaypoint) :
  forall (done : list RouteWaypoint) (nearestIdx : nat) (nearestDist : option Q),
    match nearestDist with
    | None => done = []
    | Some nearest =>
        (nearestIdx < List.length done)%nat
        /\ leg current (nth nearestIdx done d0) = nearest
        /\ forall x, In x done -> nearest <= leg current x
    end ->
    done ++ remaining <> [] ->
    let idx := nearestLoop calculateDistance current remaining (List.length done)
                 nearestIdx nearestDist in
    (idx < List.length (done ++ remaining))%nat
    /\ forall x, In x (done ++ remaining) ->
         leg current (nth idx (done ++ remaining) d0) <= leg current x.
Proof.
  induction remaining as [|wp rest IH]; intros done nearestIdx nearestDist Hinv Hne;
    cbn zeta.
  - cbn [nearestLoop]. rewrite app_nil_r in *.
    destruct nearestDist as [nearest|]; [|now elim Hne].
    destruct Hinv as (Hlt & Heq & Hmin). split; [assumption|].
    intros x Hx. rewrite Heq. now apply Hmin.
  - cbn [nearestLoop]. cbn zeta.
    assert (Hassoc : done ++ wp :: rest = (done ++ [wp]) ++ rest)
      by now rewrite <- app_assoc.
    assert (Hlen : S (List.length done) = List.length (done ++ [wp]))
      by (rewrite length_app; cbn; lia).
    assert (Hne' : (done ++ [wp]) ++ rest <> []) by now destruct done.
    rewrite Hassoc, Hlen.
    destruct (match nearestDist with
              | Some nearest => Qltb (leg current wp) nearest
              | None => true
              end) eqn:E.
    + apply (IH (done ++ [wp]) (List.length done) (Some (leg current wp)));
        [|assumption].
      split; [lia|]. split.
      * rewrite app_nth2 by lia. now rewrite Nat.sub_diag.
      * intros x Hx. apply in_app_or in Hx. destruct Hx as [Hx|[<-|[]]]; [|lra].
        destruct nearestDist as [nearest|].
        -- destruct Hinv as (_ & _ & Hmin). apply Qltb_lt in E.
           specialize (Hmin x Hx). lra.
        -- subst done. destruct Hx.
    + destruct nearestDist as [nearest|]; [|discriminate].
      destruct Hinv as (Hlt & Heq & Hmin). apply Qltb_ge in E.
      apply (IH (done ++ [wp]) nearestIdx (Some nearest)); [|assumption].
      split; [lia|]. split.
      * now rewrite app_nth1.
      * intros x Hx. apply in_app_or in Hx. destruct Hx as [Hx|[<-|[]]];
          [now apply Hmin|assumption].
Qed.

Lemma splice1_permutation {A : Type} (l : list A) :
  forall index d, (index < List.length l)%nat ->
    Permutation (nth index l d :: splice1 index l) l.
Proof.
  unfold splice1. induction l as [|x l IH]; intros [|index] d Hlt; cbn in Hlt; try lia.
  - cbn. apply Permutation_refl.
  - cbn [nth firstn skipn app].
    apply Permutation_trans with (x :: nth index l d :: firstn index l ++ skipn (S index) l).
    + apply perm_swap.
    + apply perm_skip. apply IH. lia.
Qed.

Lemma splice1_length {A : Type} (l : list A) :
  forall index, (index < List.length l)%nat ->
    List.length (splice1 index l) = (List.length l - 1)%nat.
Proof.
  intros index Hlt. unfold splice1. rewrite length_app, length_firstn, length_skipn. lia.
Qed.

Lemma visit_chain (first : RouteWaypoint) (fuel : nat) :
  forall optimized remaining,
    (List.length remaining <= fuel)%nat ->
    exists chain,
      visit calculateDistance fuel first optimized remaining = optimized ++ chain
      /\ Permutation chain remaining
      /\ greedyFrom calculateDistance (last optimized first) chain.
Proof.
  induction fuel as [|fuel IH]; intros optimized remaining Hfuel.
  - destruct remaining; [|cbn in Hfuel; lia].
    exists []. cbn. now rewrite app_nil_r.
  - destruct remaining as [|r0 rest].
    + exists []. cbn. now rewrite app_nil_r.
    + cbn [visit]. cbn zeta.
      pose proof (nearestLoop_nearest (last optimized first) r0 (r0 :: rest) [] 0 None
                    eq_refl) as Hnear.
      cbn [app List.length] in Hnear. cbn zeta in Hnear.
      destruct Hnear as (Hlt & Hmin); [discriminate|].
      set (idx := nearestLoop calculateDistance (last optimized first) (r0 :: rest) 0 0 None)
        in *.
      destruct (IH (optimized ++ [nth idx (r0 :: rest) r0]) (splice1 idx (r0 :: rest)))
        as (chain & Hvisit & Hperm & Hgreedy).
      { rewrite splice1_length by assumption. cbn [List.length] in *. lia. }
      exists (nth idx (r0 :: rest) r0 :: chain). split; [|split].
      * rewrite Hvisit, <- app_assoc. reflexivity.
      * apply Permutation_trans with (nth idx (r0 :: rest) r0 :: splice1 idx (r0 :: rest)).
        -- now apply perm_skip.
        -- now apply splice1_permutation.
      * rewrite last_last in Hgreedy. split; [|assumption].
        intros other Hother. apply Hmin.
        apply (Permutation_in other
                 (Permutation_trans (perm_skip _ Hperm)
                    (splice1_permutation (r0 :: rest) idx r0 Hlt))).
        exact Hother.
Qed.

Lemma reorder_placeOf (l : list RouteWaypoint) :
  forall idx, map placeOf (reorder idx l) = map placeOf l.
Proof.
  induction l as [|wp l IH]; intros idx; cbn [reorder map]; [reflexivity|].
  now rewrite IH.
Qed.

Lemma reorder_order (l : list RouteWaypoint) :
  forall idx, map rw_order (reorder idx l) = seq idx (List.length l).
Proof.
  induction l as [|wp l IH]; intros idx; cbn [reorder map List.length seq]; [reflexivity|].
  now rewrite IH.
Qed.

Lemma reorder_In (l : list RouteWaypoint) :
  forall idx wp, In wp (reorder idx l) ->
    exists old, In old l /\ rw_lat wp = rw_lat old /\ rw_lng wp = rw_lng old.
Proof.
  induction l as [|x l IH]; intros idx wp; cbn [reorder]; [intros []|].
  intros [<-|H].
  - exists x. now repeat split; [left|..].
  - destruct (IH _ _ H) as (old & Hold & Hlat & Hlng). exists old.
    now repeat split; [right|..].
Qed.

Lemma greedyFrom_reorder (chain : list RouteWaypoint) :
  forall idx current current',
    rw_lat current' = rw_lat current -> rw_lng current' = rw_lng current ->
    greedyFrom calculateDistance current chain ->
    greedyFrom calculateDistance current' (reorder idx chain).
Proof.
  induction chain as [|next rest IH]; intros idx current current' Hlat Hlng Hg; [exact I|].
  destruct Hg as [Hmin Hrest]. cbn [reorder]. split.
  - intros other Hother.
    destruct (reorder_In (next :: rest) idx other Hother) as (old & Hold & Holat & Holng).
    specialize (Hmin old Hold). unfold legDistance in *. cbn [rw_lat rw_lng].
    now rewrite Hlat, Hlng, Holat, Holng.
  - apply (IH (S idx) next); [reflexivity|reflexivity|assumption].
Qed.

(** X23.  The shortest-path optimiser returns the waypoints it was given, each
    once, with the first one still first; with more than two waypoints their
    [order] fields are renumbered from 0, with two or fewer the array comes
    back as it is. *)
Theorem optimizeShortestPath_permutation (waypoints : list RouteWaypoint) :
  Permutation (map placeOf (optimizeShortestPath calculateDistance waypoints))
              (map placeOf waypoints)
  /\ (forall d, placeOf (hd d (optimizeShortestPath calculateDistance waypoints))
                = placeOf (hd d waypoints))
  /\ ((2 < List.length waypoints)%nat ->
      map rw_order (optimizeShortestPath calculateDistance waypoints)
      = seq 0 (List.length waypoints))
  /\ ((List.length waypoints <= 2)%nat ->
      optimizeShortestPath calculateDistance waypoints = waypoints).
Proof.
  unfold optimizeShortestPath.
  destruct (List.length waypoints <=? 2)%nat eqn:E.
  - apply Nat.leb_le in E. repeat split; try reflexivity. intros H. lia.
  - apply Nat.leb_gt in E. destruct waypoints as [|first rest]; [cbn in E; lia|].
    destruct (visit_chain first (List.length rest) [first] rest (le_n _))
      as (chain & Hvisit & Hperm & _).
    rewrite Hvisit. cbn [app reorder]. repeat split.
    + cbn [map]. apply perm_skip. rewrite reorder_placeOf. now apply Permutation_map.
    + intros _. cbn [map List.length seq]. rewrite reorder_order.
      now rewrite (Permutation_length Hperm).
    + intros H. lia.
Qed.

(** X24.  With more than two waypoints, the route of the shortest-path
    optimiser is the nearest-neighbour tour from the first waypoint: each
    waypoint after the first is, of all the waypoints not yet visited, one
    nearest to the waypoint before it. *)
Theorem optimizeShortestPath_nearest_neighbour (waypoints : list RouteWaypoint) :
  (2 < List.length waypoints)%nat ->
  exists first route,
    optimizeShortestPath calculateDistance waypoints = first :: route
    /\ greedyFrom calculateDistance first route.
Proof.
  intros Hlen. unfold optimizeShortestPath.
  destruct (List.length waypoints <=? 2)%nat eqn:E; [apply Nat.leb_le in E; lia|].
  destruct waypoints as [|first rest]; [cbn in Hlen; lia|].
  destruct (visit_chain first (List.length rest) [first] rest (le_n _))
    as (chain & Hvisit & _ & Hgreedy).
  rewrite Hvisit. cbn [app reorder last] in *.
  eexists. eexists. split; [reflexivity|].
  now apply (greedyFrom_reorder chain 1 first).
Qed.

Abbreviation total := (calculateTotalDistance calculateDistance).

Lemma totalFrom_map (f : RouteWaypoint -> RouteWaypoint) (rest : list RouteWaypoint) :
  (forall wp, rw_lat (f wp) = rw_lat wp) -> (forall wp, rw_lng (f wp) = rw_lng wp) ->
  forall prev acc,
    totalFrom calculateDistance (f prev) (map f rest) acc
    = totalFrom calculateDistance prev rest acc.
Proof.
  intros Hlat Hlng. induction rest as [|wp rest IH]; intros prev acc; [reflexivity|].
  cbn [map totalFrom]. rewrite IH. unfold legDistance. now rewrite !Hlat, !Hlng.
Qed.

Lemma total_map (f : RouteWaypoint -> RouteWaypoint) (waypoints : list RouteWaypoint) :
  (forall wp, rw_lat (f wp) = rw_lat wp) -> (forall wp, rw_lng (f wp) = rw_lng wp) ->
  total (map f waypoints) = total waypoints.
Proof.
  intros Hlat Hlng. destruct waypoints as [|wp0 rest]; [reflexivity|].
  cbn [map calculateTotalDistance]. now apply totalFrom_map.
Qed.

Lemma totalFrom_acc (rest : list RouteWaypoint) :
  forall prev acc,
    totalFrom calculateDistance prev rest acc
    == acc + totalFrom calculateDistance prev rest 0.
Proof.
  induction rest as [|wp rest IH]; intros prev acc; cbn [totalFrom]; [lra|].
  rewrite (IH wp (acc + leg prev wp)), (IH wp (0 + leg prev wp)). lra.
Qed.

Lemma total_cons (a b : RouteWaypoint) (rest : list RouteWaypoint) :
  total (a :: b :: rest) == leg a b + total (b :: rest).
Proof.
  cbn [calculateTotalDistance totalFrom]. rewrite totalFrom_acc. lra.
Qed.

Lemma round_zero (x y : Q) : x = y -> round (x - y) = 0%Z.
Proof.
  intros ->. unfold round.
  assert (H : y - y + (1 # 2) == 1 # 2) by lra.
  now rewrite H.
Qed.

(** X25.  The route optimisation refuses fewer than two waypoints.  For the
    goals battery and wind it answers with the waypoints at the coordinates
    and in the order they came in, so the distance it reports as saved is 0
    and the two reported distances are equal, whatever the wind speed drawn;
    the same holds for every goal when there are exactly two waypoints. *)
Theorem optimizeRoute_altitude_goals (optimizationGoal : string) (windSpeed : Q)
    (waypoints : list RouteWaypoint) :
  ((List.length waypoints < 2)%nat ->
   optimizeRoute calculateDistance optimizationGoal windSpeed waypoints = None)
  /\ ((2 <= List.length waypoints)%nat ->
      optimizationGoal = "battery"%string \/ optimizationGoal = "wind"%string
      \/ List.length waypoints = 2%nat ->
      exists answer,
        optimizeRoute calculateDistance optimizationGoal windSpeed waypoints = Some answer
        /\ map (fun wp => (rw_lat wp, rw_lng wp, rw_order wp)) (optimizedRoute answer)
           = map (fun wp => (rw_lat wp, rw_lng wp, rw_order wp)) waypoints
        /\ distanceSaved answer = 0%Z
        /\ optimizedDistance answer = originalDistance answer).
Proof.
  split.
  - intros Hlen. unfold optimizeRoute. apply Nat.ltb_lt in Hlen. now rewrite Hlen.
  - intros Hlen Hgoal. unfold optimizeRoute.
    assert (E : (List.length waypoints <? 2)%nat = false) by now apply Nat.ltb_ge.
    rewrite E. cbn zeta.
    assert (Hwind : map (fun wp => (rw_lat wp, rw_lng wp, rw_order wp))
                      (optimizeForWind windSpeed waypoints)
                    = map (fun wp => (rw_lat wp, rw_lng wp, rw_order wp)) waypoints
                    /\ total (optimizeForWind windSpeed waypoints) = total waypoints).
    { unfold optimizeForWind. split.
      - rewrite map_map. apply map_ext. intros wp. now destruct (Qgtb windSpeed 20).
      - apply total_map; intros wp; now destruct (Qgtb windSpeed 20). }
    assert (Hbattery : map (fun wp => (rw_lat wp, rw_lng wp, rw_order wp))
                         (optimizeForBattery waypoints)
                       = map (fun wp => (rw_lat wp, rw_lng wp, rw_order wp)) waypoints
                       /\ total (optimizeForBattery waypoints) = total waypoints).
    { unfold optimizeForBattery. split.
      - rewrite map_map. now apply map_ext.
      - now apply total_map. }
    assert (Hshort : List.length waypoints = 2%nat ->
                     optimizeShortestPath calculateDistance waypoints = waypoints).
    { intros H. unfold optimizeShortestPath. now rewrite H. }
    destruct (String.eqb optimizationGoal "shortest") eqn:Es.
    + apply String.eqb_eq in Es. subst optimizationGoal.
      destruct Hgoal as [H|[H|H]]; try discriminate H.
      rewrite (Hshort H). eexists. split; [reflexivity|].
      cbn [optimizedRoute distanceSaved optimizedDistance originalDistance].
      repeat split. now apply round_zero.
    + destruct (String.eqb optimizationGoal "battery") eqn:Eb.
      * destruct Hbattery as [Hmap Htotal]. eexists. split; [reflexivity|].
        cbn [optimizedRoute distanceSaved optimizedDistance originalDistance].
        rewrite Htotal. repeat split; [assumption|]. now apply round_zero.
      * destruct (String.eqb optimizationGoal "wind") eqn:Ew.
        -- destruct Hwind as [Hmap Htotal]. eexists. split; [reflexivity|].
           cbn [optimizedRoute distanceSaved optimizedDistance originalDistance].
           rewrite Htotal. repeat split; [assumption|]. now apply round_zero.
        -- apply String.eqb_neq in Eb, Ew. destruct Hgoal as [H|[H|H]]; try contradiction.
           rewrite (Hshort H). eexists. split; [reflexivity|].
           cbn [optimizedRoute distanceSaved optimizedDistance originalDistance].
           repeat split. now apply round_zero.
Qed.

(** X26.  The total distance of a route is the sum of its legs: a route cut
    at a waypoint has the total of its two parts, a route of fewer than two
    waypoints has total 0, the total is not negative when no distance is, and
    with a symmetric distance the route flown backwards has the same total. *)
Theorem calculateTotalDistance_legs :
  (forall before wp rest,
      calculateTotalDistance calculateDistance (before ++ wp :: rest)
      == calculateTotalDistance calculateDistance (before ++ [wp])
         + calculateTotalDistance calculateDistance (wp :: rest))
  /\ calculateTotalDistance calculateDistance [] = 0
  /\ (forall wp, calculateTotalDistance calculateDistance [wp] = 0)
  /\ ((forall lat1 lng1 lat2 lng2, 0 <= calculateDistance lat1 lng1 lat2 lng2) ->
      forall waypoints, 0 <= calculateTotalDistance calculateDistance waypoints)
  /\ ((forall lat1 lng1 lat2 lng2,
          calculateDistance lat1 lng1 lat2 lng2 == calculateDistance lat2 lng2 lat1 lng1) ->
      forall waypoints,
        calculateTotalDistance calculateDistance (rev waypoints)
        == calculateTotalDistance calculateDistance waypoints).
Proof.
  assert (Hsplit : forall before wp rest,
             total (before ++ wp :: rest) == total (before ++ [wp]) + total (wp :: rest)).
  { induction before as [|a before IH]; intros wp rest.
    - cbn [app]. change (total [wp]) with 0. lra.
    - destruct before as [|b before].
      + cbn [app]. rewrite (total_cons a wp rest), (total_cons a wp []).
        change (total [wp]) with 0. lra.
      + cbn [app] in *.
        rewrite (total_cons a b (before ++ wp :: rest)), (total_cons a b (before ++ [wp])).
        rewrite (IH wp rest). lra. }
  split; [exact Hsplit|]. split; [reflexivity|]. split; [reflexivity|]. split.
  - intros Hpos waypoints. destruct waypoints as [|a rest]; [cbn; lra|].
    revert a. induction rest as [|b rest IH]; intros a; [cbn; lra|].
    rewrite total_cons. specialize (IH b).
    pose proof (Hpos (rw_lat a) (rw_lng a) (rw_lat b) (rw_lng b)) as H.
    unfold legDistance. lra.
  - intros Hsym waypoints. induction waypoints as [|a rest IH]; [reflexivity|].
    cbn [rev]. destruct rest as [|b rest]; [reflexivity|].
    rewrite total_cons, <- IH. cbn [rev]. rewrite <- app_assoc. cbn [app].
    rewrite (Hsplit (rev rest) b [a]), (total_cons b a []).
    change (total [a]) with 0. unfold legDistance.
    rewrite (Hsym (rw_lat b) (rw_lng b) (rw_lat a) (rw_lng a)). lra.
Qed.

End RouteFacts.

Lemma optimizeShortestPath_nearest_neighbour_witness :
  exists first route,
    optimizeShortestPath meridianDistance
      [mkRouteWaypoint (4260 # 100) (2090 # 100) 100 0;
       mkRouteWaypoint (4270 # 100) (2090 # 100) 100 1;
       mkRouteWaypoint (4262 # 100) (2090 # 100) 100 2]
    = first :: route
    /\ greedyFrom meridianDistance first route.
Proof.
  apply (optimizeShortestPath_nearest_neighbour meridianDistance
           [mkRouteWaypoint (4260 # 100) (2090 # 100) 100 0;
            mkRouteWaypoint (4270 # 100) (2090 # 100) 100 1;
            mkRouteWaypoint (4262 # 100) (2090 # 100) 100 2]).
  cbn. lia.
Defined.

(** * Further properties of the path validation *)

Section PathFacts.

Variable calculateDistance : Q -> Q -> Q -> Q -> Q.
Variable isWithinKosovo : Q -> Q -> bool.
Variable checkRestrictedZone : Q -> Q -> Q -> list Violation.

Abbreviation passes := (pointPasses isWithinKosovo checkRestrictedZone).
Abbreviation hasError vs := (existsb (fun v => isError (violation_severity v)) vs).

Lemma coherent_push (st : PState) (issue : Issue) (valid : bool) :
  coherent st ->
  valid = snd st && negb (isErrorIssue issue) ->
  coherent (fst st ++ [issue], valid).
Proof.
  unfold coherent. cbn [fst snd]. intros Hst ->. rewrite existsb_app. cbn [existsb].
  rewrite Hst, orb_false_r, negb_orb. reflexivity.
Qed.

Lemma zoneIssues_fold (i : nat) (vs : list Violation) :
  forall acc : PState,
    let r := fold_left
               (fun (acc : PState) v =>
                  (fst acc ++ [mkIssue zone_violation i (violation_severity v)],
                   if isError (violation_severity v) then false else snd acc))
               vs acc in
    snd r = snd acc && negb (hasError vs) /\ (coherent acc -> coherent r).
Proof.
  induction vs as [|v vs IH]; intros acc; cbn zeta; cbn [fold_left existsb].
  - rewrite andb_true_r. now split.
  - destruct (IH (fst acc ++ [mkIssue zone_violation i (violation_severity v)],
                  if isError (violation_severity v) then false else snd acc))
      as (Hsnd & Hco).
    cbn zeta in Hsnd, Hco. rewrite Hsnd. cbn [snd]. split.
    + destruct (isError (violation_severity v)); cbn [orb negb];
        [now rewrite andb_false_r|reflexivity].
    + intros Hacc. apply Hco. apply coherent_push; [assumption|].
      unfold isErrorIssue. cbn [issue_severity].
      destruct (isError (violation_severity v)); cbn [negb];
        [now rewrite andb_false_r|now rewrite andb_true_r].
Qed.

Lemma checkWaypoint_spec (maxAltitude : option Q) (i : nat) (wp : LatLng) (st : PState) :
  snd (checkWaypoint isWithinKosovo checkRestrictedZone maxAltitude i wp st)
  = snd st && passes maxAltitude wp
  /\ (coherent st ->
      coherent (checkWaypoint isWithinKosovo checkRestrictedZone maxAltitude i wp st)).
Proof.
  unfold checkWaypoint, pointPasses. cbn zeta.
  destruct (zoneIssues_fold i
              (checkRestrictedZone (lat wp) (lng wp) (orDefault maxAltitude 120))
              (if negb (isWithinKosovo (lat wp) (lng wp))
               then (fst st ++ [mkIssue border_violation i error], false)
               else st)) as (Hsnd & Hco).
  cbn zeta in Hsnd, Hco. unfold PState in *. rewrite Hsnd. split.
  - destruct (isWithinKosovo (lat wp) (lng wp)); cbn [negb snd andb].
    + reflexivity.
    + now rewrite andb_false_r.
  - intros Hst. apply Hco. destruct (isWithinKosovo (lat wp) (lng wp)); cbn [negb].
    + assumption.
    + apply coherent_push; [assumption|]. cbn. now rewrite andb_false_r.
Qed.

Lemma checkWaypoints_spec (maxAltitude : option Q) (wps : list LatLng) :
  forall i st,
    snd (checkWaypoints isWithinKosovo checkRestrictedZone maxAltitude i wps st)
    = snd st && forallb (passes maxAltitude) wps
    /\ (coherent st ->
        coherent (checkWaypoints isWithinKosovo checkRestrictedZone maxAltitude i wps st)).
Proof.
  induction wps as [|wp wps IH]; intros i st; cbn [checkWaypoints forallb].
  - rewrite andb_true_r. now split.
  - destruct (checkWaypoint_spec maxAltitude i wp st) as (Hsnd & Hco).
    destruct (IH (S i) (checkWaypoint isWithinKosovo checkRestrictedZone maxAltitude i wp st))
      as (Hsnd' & Hco').
    rewrite Hsnd', Hsnd, andb_assoc. split; [reflexivity|]. intros H. now apply Hco', Hco.
Qed.

Lemma sampleIssues_fold (i : nat) (vs : list Violation) :
  forall (segmentValid : bool) (st : PState),
    let r := fold_left
               (fun (acc : bool * PState) v =>
                  if isError (violation_severity v)
                  then (false,
                        (fst (snd acc) ++ [mkIssue path_crosses_restricted i error], false))
                  else acc)
               vs (segmentValid, st) in
    fst r = segmentValid && negb (hasError vs)
    /\ snd (snd r) = snd st && negb (hasError vs)
    /\ (coherent st -> coherent (snd r)).
Proof.
  induction vs as [|v vs IH]; intros segmentValid st; cbn zeta; cbn [fold_left existsb].
  - rewrite !andb_true_r. now repeat split.
  - destruct (isError (violation_severity v)) eqn:E; cbn [orb negb].
    + destruct (IH false (fst st ++ [mkIssue path_crosses_restricted i error], false))
        as (Hf & Hs & Hco).
      cbn zeta in Hf, Hs, Hco. cbn [fst snd] in *. unfold PState in *.
      rewrite Hf, Hs, !andb_false_r.
      repeat split. intros Hst. apply Hco. apply coherent_push; [assumption|].
      cbn. now rewrite andb_false_r.
    + exact (IH segmentValid st).
Qed.

Lemma sampleLoop_spec (maxAltitude : option Q) (i : nat) (wp1 wp2 : LatLng)
    (numSamples : Z) (js : list nat) :
  forall (segmentValid : bool) (st : PState),
    let r := sampleLoop isWithinKosovo checkRestrictedZone maxAltitude i wp1 wp2
               numSamples js segmentValid st in
    let ok := forallb (fun j => passes maxAltitude (samplePoint wp1 wp2 numSamples j)) js in
    fst r = segmentValid && ok
    /\ snd (snd r) = snd st && ok
    /\ (coherent st -> coherent (snd r)).
Proof.
  induction js as [|j js IH]; intros segmentValid st; cbn zeta; cbn [sampleLoop forallb].
  - rewrite !andb_true_r. now repeat split.
  - cbn zeta. unfold pointPasses at 1 3.
    destruct (isWithinKosovo (lat (samplePoint wp1 wp2 numSamples j))
                (lng (samplePoint wp1 wp2 numSamples j))) eqn:W; cbn [negb andb].
    + destruct (sampleIssues_fold i
                  (checkRestrictedZone (lat (samplePoint wp1 wp2 numSamples j))
                     (lng (samplePoint wp1 wp2 numSamples j)) (orDefault maxAltitude 120))
                  segmentValid st) as (Hf & Hs & Hco).
      cbn zeta in Hf, Hs, Hco. unfold PState in *.
      destruct (fold_left _ _ (segmentValid, st)) as [segmentValid' st'].
      cbn [fst snd] in Hf, Hs, Hco.
      destruct (IH segmentValid' st') as (Hf' & Hs' & Hco'). cbn zeta in Hf', Hs', Hco'.
      split; [|split].
      * now rewrite Hf', Hf, andb_assoc.
      * now rewrite Hs', Hs, andb_assoc.
      * intros Hst. now apply Hco', Hco.
    + cbn [fst snd]. rewrite !andb_false_r. repeat split.
      intros Hst. apply coherent_push; [assumption|]. cbn. now rewrite andb_false_r.
Qed.

Lemma checkSegments_spec (maxAltitude : option Q) (rest : list LatLng) :
  forall i wp1 st segments,
    let r := checkSegments calculateDistance isWithinKosovo checkRestrictedZone
               maxAltitude i wp1 rest st segments in
    snd (fst r)
    = snd st && segmentsPass calculateDistance isWithinKosovo checkRestrictedZone
                  maxAltitude wp1 rest
    /\ (coherent st -> coherent (fst r))
    /\ exists added,
         snd r = segments ++ added
         /\ map seg_from added = seq i (List.length rest)
         /\ map seg_to added = seq (S i) (List.length rest)
         /\ forall k a b seg,
              nth_error (wp1 :: rest) k = Some a ->
              nth_error rest k = Some b ->
              nth_error added k = Some seg ->
              seg_valid seg
              = segmentPasses calculateDistance isWithinKosovo checkRestrictedZone
                  maxAltitude a b
              /\ seg_distance seg
                 = round (calculateDistance (lat a) (lng a) (lat b) (lng b)).
Proof.
  induction rest as [|wp2 rest IH]; intros i wp1 st segments; cbn zeta;
    cbn [checkSegments segmentsPass].
  - cbn [fst snd]. rewrite andb_true_r. split; [reflexivity|]. split; [auto|].
    exists []. rewrite app_nil_r.
    split; [reflexivity|split; [reflexivity|split; [reflexivity|]]].
    intros [|k] a b seg _ H; discriminate H.
  - cbn zeta.
    destruct (sampleLoop_spec maxAltitude i wp1 wp2
                (samplesOn calculateDistance wp1 wp2)
                (sampleSteps (samplesOn calculateDistance wp1 wp2)) true st)
      as (Hf & Hs & Hco).
    cbn zeta in Hf, Hs, Hco. unfold PState in *.
    destruct (sampleLoop _ _ _ _ _ _ _ _ true st) as [segmentValid st'].
    cbn [fst snd] in Hf, Hs, Hco. cbn [andb] in Hf.
    destruct (IH (S i) wp2 st'
                (segments
                 ++ [mkSegmentReport i (S i)
                       (round (calculateDistance (lat wp1) (lng wp1) (lat wp2) (lng wp2)))
                       segmentValid]))
      as (Hvalid & Hco' & added & Hadded & Hfrom & Hto & Hnth).
    cbn zeta in Hvalid, Hco', Hadded. rewrite Hvalid, Hs.
    split; [now rewrite andb_assoc|]. split; [intros H; now apply Hco', Hco|].
    exists (mkSegmentReport i (S i)
              (round (calculateDistance (lat wp1) (lng wp1) (lat wp2) (lng wp2)))
              segmentValid :: added).
    split; [now rewrite Hadded, <- app_assoc|].
    cbn [map seg_from seg_to List.length seq]. rewrite Hfrom, Hto.
    split; [reflexivity|split; [reflexivity|]].
    intros [|k] a b seg Ha Hb Hseg.
    + cbn [nth_error] in Ha, Hb, Hseg. injection Ha as <-. injection Hb as <-.
      injection Hseg as <-. cbn [seg_valid seg_distance]. now split.
    + cbn [nth_error] in Ha, Hb, Hseg. now apply (Hnth k a b seg).
Qed.

Abbreviation validate :=
  (validatePath calculateDistance isWithinKosovo checkRestrictedZone).
Abbreviation legPasses :=
  (segmentPasses calculateDistance isWithinKosovo checkRestrictedZone).

Lemma validatePath_spec (wp0 wp1 : LatLng) (rest : list LatLng) (maxAltitude : option Q) :
  exists r,
    validate (Some (wp0 :: wp1 :: rest)) maxAltitude = Some r
    /\ pv_isValid r
       = forallb (passes maxAltitude) (wp0 :: wp1 :: rest)
         && segmentsPass calculateDistance isWithinKosovo checkRestrictedZone
              maxAltitude wp0 (wp1 :: rest)
    /\ pv_isValid r = negb (existsb isErrorIssue (pv_issues r))
    /\ map seg_from (pv_segments r) = seq 0 (S (List.length rest))
    /\ map seg_to (pv_segments r) = seq 1 (S (List.length rest))
    /\ pv_waypointCount r = S (S (List.length rest))
    /\ forall k a b seg,
         nth_error (wp0 :: wp1 :: rest) k = Some a ->
         nth_error (wp1 :: rest) k = Some b ->
         nth_error (pv_segments r) k = Some seg ->
         seg_valid seg = legPasses maxAltitude a b
         /\ seg_distance seg = round (calculateDistance (lat a) (lng a) (lat b) (lng b)).
Proof.
  unfold validatePath. cbn [List.length Nat.ltb Nat.leb]. cbn zeta.
  destruct (checkWaypoints_spec maxAltitude (wp0 :: wp1 :: rest) 0 ([], true))
    as (Hsnd & Hco).
  destruct (checkSegments_spec maxAltitude (wp1 :: rest) 0 wp0
              (checkWaypoints isWithinKosovo checkRestrictedZone maxAltitude 0
                 (wp0 :: wp1 :: rest) ([], true)) [])
    as (Hvalid & Hco' & added & Hadded & Hfrom & Hto & Hnth).
  cbn zeta in Hvalid, Hco', Hadded. unfold PState in *.
  destruct (checkSegments _ _ _ _ _ _ _ _ _) as [st' segments].
  cbn [fst snd app] in Hvalid, Hco', Hadded. subst segments.
  eexists. split; [reflexivity|].
  cbn [pv_isValid pv_issues pv_segments pv_waypointCount].
  split; [now rewrite Hvalid, Hsnd|].
  split; [apply Hco', Hco; reflexivity|].
  split; [exact Hfrom|split; [exact Hto|split; [reflexivity|exact Hnth]]].
Qed.

(** X27.  The path validation refuses a missing array and fewer than two
    waypoints.  Otherwise its verdict is negative exactly when an issue of
    severity error is listed (warnings never change it), it reports one
    segment for each pair of consecutive waypoints, numbered from 0, and a
    segment reported as invalid always makes the verdict negative. *)
Theorem validatePath_report (wps : list LatLng) (maxAltitude : option Q) :
  validate None maxAltitude = None
  /\ ((List.length wps < 2)%nat -> validate (Some wps) maxAltitude = None)
  /\ ((2 <= List.length wps)%nat ->
      exists r,
        validate (Some wps) maxAltitude = Some r
        /\ pv_isValid r = negb (existsb isErrorIssue (pv_issues r))
        /\ map seg_from (pv_segments r) = seq 0 (List.length wps - 1)
        /\ map seg_to (pv_segments r) = seq 1 (List.length wps - 1)
        /\ pv_waypointCount r = List.length wps
        /\ forall seg, In seg (pv_segments r) -> seg_valid seg = false ->
             pv_isValid r = false).
Proof.
  split; [reflexivity|]. split.
  - intros Hlen. unfold validatePath. apply Nat.ltb_lt in Hlen. now rewrite Hlen.
  - intros Hlen. destruct wps as [|wp0 [|wp1 rest]]; cbn in Hlen; try lia.
    destruct (validatePath_spec wp0 wp1 rest maxAltitude)
      as (r & Hr & Hvalid & Hco & Hfrom & Hto & Hcount & Hnth).
    exists r. cbn [List.length Nat.sub]. rewrite ?Nat.sub_0_r.
    split; [assumption|]. split; [assumption|]. split; [assumption|].
    split; [assumption|]. split; [assumption|].
    intros seg Hseg Hbad. apply In_nth_error in Hseg. destruct Hseg as (k & Hk).
    assert (Hlt : (k < S (List.length rest))%nat).
    { assert (nth_error (pv_segments r) k <> None) as H by now rewrite Hk.
      apply nth_error_Some in H. rewrite <- (length_map seg_from), Hfrom, length_seq in H.
      exact H. }
    destruct (nth_error (wp0 :: wp1 :: rest) k) as [a|] eqn:Ha;
      [|apply nth_error_None in Ha; cbn in Ha; lia].
    destruct (nth_error (wp1 :: rest) k) as [b|] eqn:Hb;
      [|apply nth_error_None in Hb; cbn in Hb; lia].
    destruct (Hnth k a b seg Ha Hb Hk) as (Hseg & _). rewrite Hbad in Hseg.
    rewrite Hvalid. apply andb_false_iff. right.
    clear - Ha Hb Hseg. revert wp0 wp1 k Ha Hb.
    induction rest as [|wp2 rest IH]; intros wp0 wp1 [|k] Ha Hb;
      cbn [nth_error] in Ha, Hb.
    + injection Ha as <-. injection Hb as <-. cbn [segmentsPass].
      now rewrite <- Hseg.
    + now destruct k.
    + injection Ha as <-. injection Hb as <-.
      change (legPasses maxAltitude wp0 wp1
              && segmentsPass calculateDistance isWithinKosovo checkRestrictedZone
                   maxAltitude wp1 (wp2 :: rest) = false).
      now rewrite <- Hseg.
    + change (legPasses maxAltitude wp0 wp1
              && segmentsPass calculateDistance isWithinKosovo checkRestrictedZone
                   maxAltitude wp1 (wp2 :: rest) = false).
      rewrite (IH wp1 wp2 k Ha Hb). apply andb_false_r.
Qed.

(** X28.  The verdict of the path validation is positive exactly when every
    waypoint is inside the border without a zone violation of severity
    error, and so is every interior sample of every segment; a segment is
    reported valid exactly when its own interior samples all are, and its
    reported distance is the rounded distance between its two waypoints. *)
Theorem validatePath_verdict (wp0 wp1 : LatLng) (rest : list LatLng)
    (maxAltitude : option Q) :
  exists r,
    validate (Some (wp0 :: wp1 :: rest)) maxAltitude = Some r
    /\ pv_isValid r
       = forallb (passes maxAltitude) (wp0 :: wp1 :: rest)
         && segmentsPass calculateDistance isWithinKosovo checkRestrictedZone
              maxAltitude wp0 (wp1 :: rest)
    /\ forall k a b seg,
         nth_error (wp0 :: wp1 :: rest) k = Some a ->
         nth_error (wp0 :: wp1 :: rest) (S k) = Some b ->
         nth_error (pv_segments r) k = Some seg ->
         seg_valid seg = legPasses maxAltitude a b
         /\ seg_distance seg = round (calculateDistance (lat a) (lng a) (lat b) (lng b)).
Proof.
  destruct (validatePath_spec wp0 wp1 rest maxAltitude)
    as (r & Hr & Hvalid & _ & _ & _ & _ & Hnth).
  exists r. split; [assumption|]. split; [assumption|].
  intros k a b seg Ha Hb Hseg. now apply (Hnth k a b seg).
Qed.

Lemma short_leg_passes (maxAltitude : option Q) (a b : LatLng) :
  calculateDistance (lat a) (lng a) (lat b) (lng b) <= 500 ->
  legPasses maxAltitude a b = true.
Proof.
  intros Hshort. unfold segmentPasses, sampleSteps, samplesOn.
  assert (Hceil : (Qceiling (calculateDistance (lat a) (lng a) (lat b) (lng b) / 500) <= 1)%Z).
  { change 1%Z with (Qceiling (inject_Z 1)) at 1.
    - apply Qceiling_resp_le. apply Qle_shift_div_r; [reflexivity|].
      change (inject_Z 1) with 1. lra. }
  replace (Z.to_nat _ - 1)%nat with 0%nat by lia. reflexivity.
Qed.

(** X29.  A segment of at most 500 m has no interior sample: when every leg
    of the path is that short, every segment is reported valid and the
    verdict depends on the waypoints alone, whatever lies between them. *)
Theorem validatePath_short_legs (wp0 wp1 : LatLng) (rest : list LatLng)
    (maxAltitude : option Q) :
  (forall k a b,
      nth_error (wp0 :: wp1 :: rest) k = Some a ->
      nth_error (wp0 :: wp1 :: rest) (S k) = Some b ->
      calculateDistance (lat a) (lng a) (lat b) (lng b) <= 500) ->
  exists r,
    validate (Some (wp0 :: wp1 :: rest)) maxAltitude = Some r
    /\ pv_isValid r = forallb (passes maxAltitude) (wp0 :: wp1 :: rest)
    /\ forall seg, In seg (pv_segments r) -> seg_valid seg = true.
Proof.
  intros Hshort.
  destruct (validatePath_spec wp0 wp1 rest maxAltitude)
    as (r & Hr & Hvalid & _ & Hfrom & _ & _ & Hnth).
  exists r. split; [assumption|]. split.
  - rewrite Hvalid.
    assert (Hall : segmentsPass calculateDistance isWithinKosovo checkRestrictedZone
                     maxAltitude wp0 (wp1 :: rest) = true).
    { clear - Hshort. revert wp0 wp1 Hshort.
      induction rest as [|wp2 rest IH]; intros wp0 wp1 Hshort.
      - cbn [segmentsPass]. rewrite andb_true_r.
        apply short_leg_passes. now apply (Hshort 0%nat).
      - change (legPasses maxAltitude wp0 wp1
                && segmentsPass calculateDistance isWithinKosovo checkRestrictedZone
                     maxAltitude wp1 (wp2 :: rest) = true).
        rewrite (IH wp1 wp2).
        + rewrite andb_true_r. apply short_leg_passes. now apply (Hshort 0%nat).
        + intros k a b Ha Hb. now apply (Hshort (S k)). }
    now rewrite Hall, andb_true_r.
  - intros seg Hseg. apply In_nth_error in Hseg. destruct Hseg as (k & Hk).
    assert (Hlt : (k < S (List.length rest))%nat).
    { assert (nth_error (pv_segments r) k <> None) as H by now rewrite Hk.
      apply nth_error_Some in H. rewrite <- (length_map seg_from), Hfrom, length_seq in H.
      exact H. }
    destruct (nth_error (wp0 :: wp1 :: rest) k) as [a|] eqn:Ha;
      [|apply nth_error_None in Ha; cbn in Ha; lia].
    destruct (nth_error (wp1 :: rest) k) as [b|] eqn:Hb;
      [|apply nth_error_None in Hb; cbn in Hb; lia].
    destruct (Hnth k a b seg Ha Hb Hk) as (-> & _).
    apply short_leg_passes. now apply (Hshort k).
Qed.

End PathFacts.

Lemma validatePath_short_legs_witness :
  exists r,
    validatePath meridianDistance everywhereInside noZones
      (Some [waypointA; waypointNorth]) None = Some r
    /\ pv_isValid r = forallb (pointPasses everywhereInside noZones None)
                        [waypointA; waypointNorth]
    /\ forall seg, In seg (pv_segments r) -> seg_valid seg = true.
Proof.
  apply (validatePath_short_legs meridianDistance everywhereInside noZones
           waypointA waypointNorth [] None).
  intros [|[|k]] a b Ha Hb; try discriminate Hb.
  injection Ha as <-. injection Hb as <-. vm_compute. discriminate.
Defined.

(** * Further properties of the altitude optimisers *)

Section AltitudeFacts.

Variable calculateDistance : Q -> Q -> Q -> Q -> Q.
Variable TERRAIN_DATA : list Terrain.

Lemma withAltitude_same (wp : RouteWaypoint) : withAltitude wp (rw_altitude wp) = wp.
Proof. now destruct wp. Qed.

(** X30.  The wind, battery and altitude optimisers change altitudes only:
    their routes have the waypoints at the same coordinates, in the same
    order and with the same [order] fields, hence the same total distance.
    The battery route has no waypoint under 50 m, the wind route none under
    30 m when the wind exceeds 20 and is the input itself otherwise, and a
    waypoint that the altitude optimiser changes ends at 120 m or lower. *)
Theorem altitude_optimisers_keep_track (windSpeed : Q) (waypoints : list RouteWaypoint) :
  (forall route,
      In route [optimizeForWind windSpeed waypoints;
                optimizeForBattery waypoints;
                optimizeAltitude calculateDistance TERRAIN_DATA waypoints] ->
      map (fun wp => (rw_lat wp, rw_lng wp, rw_order wp)) route
      = map (fun wp => (rw_lat wp, rw_lng wp, rw_order wp)) waypoints
      /\ calculateTotalDistance calculateDistance route
         = calculateTotalDistance calculateDistance waypoints)
  /\ (forall wp, In wp (optimizeForBattery waypoints) -> 50 <= rw_altitude wp)
  /\ (windSpeed <= 20 -> optimizeForWind windSpeed waypoints = waypoints)
  /\ (20 < windSpeed ->
      forall wp, In wp (optimizeForWind windSpeed waypoints) -> 30 <= rw_altitude wp)
  /\ (forall wp,
      In wp (optimizeAltitude calculateDistance TERRAIN_DATA waypoints) ->
      In wp waypoints \/ rw_altitude wp <= 120).
Proof.
  split; [|split; [|split; [|split]]].
  - intros route [<-|[<-|[<-|[]]]].
    + unfold optimizeForWind. split.
      * rewrite map_map. apply map_ext. intros wp. now destruct (Qgtb windSpeed 20).
      * apply total_map; intros wp; now destruct (Qgtb windSpeed 20).
    + unfold optimizeForBattery. split.
      * rewrite map_map. now apply map_ext.
      * now apply total_map.
    + unfold optimizeAltitude. split.
      * rewrite map_map. apply map_ext. intros wp. now destruct (existsb _ _).
      * apply total_map; intros wp; now destruct (existsb _ _).
  - intros wp Hwp. unfold optimizeForBattery in Hwp. apply in_map_iff in Hwp.
    destruct Hwp as (old & <- & _). cbn [withAltitude rw_altitude]. apply Q.le_max_l.
  - intros Hcalm. unfold optimizeForWind.
    assert (E : Qgtb windSpeed 20 = false) by (apply Qltb_ge; assumption).
    rewrite E. rewrite <- (map_id waypoints) at 2. apply map_ext.
    intros wp. apply withAltitude_same.
  - intros Hwind wp Hwp. unfold optimizeForWind in Hwp.
    assert (E : Qgtb windSpeed 20 = true) by (apply Qltb_lt; assumption).
    rewrite E in Hwp. apply in_map_iff in Hwp. destruct Hwp as (old & <- & _).
    cbn [withAltitude rw_altitude]. apply Q.le_max_l.
  - intros wp Hwp. unfold optimizeAltitude in Hwp. apply in_map_iff in Hwp.
    destruct Hwp as (old & <- & Hold). destruct (existsb _ _).
    + right. cbn [withAltitude rw_altitude]. apply Q.le_min_l.
    + left. now rewrite withAltitude_same.
Qed.

End AltitudeFacts.
